(** * AT_CellularDevice: the device-level coordinator of an AT-command modem

    A shallow embedding of
    [features/cellular/framework/AT/AT_CellularDevice.cpp] and the
    properties of its power-save timer encoding, SIM/PIN operations,
    AT-handler pool, subsystem slots and destructor. *)

From stdpp Require Import gmap strings list.
From Stdlib Require Import ZArith Lia Ascii String.

Local Open Scope string_scope.
Local Open Scope list_scope.
Local Open Scope Z_scope.

(** ** C integer arithmetic *)

Module C.

(** [int] and [uint32_t] are 32 bits wide on the targets of the code. *)
Definition INT_MAX : Z := 2 ^ 31 - 1.
Definition INT_MIN : Z := - 2 ^ 31.

(** Conversion of an [int] to [uint32_t]: reduction modulo [2^32]. *)
Definition to_uint32 (z : Z) : Z := z mod 2 ^ 32.

(** [a / b] on [int] truncates towards zero. *)
Definition div (a b : Z) : Z := a ÷ b.

End C.

(** ** Character buffers *)

(** [overwrite s buf]: the characters of [s] stored over the first
    characters of [buf]. *)
Fixpoint overwrite (s buf : string) : string :=
  match s with
  | EmptyString => buf
  | String c s' =>
      String c (overwrite s' (match buf with String _ b => b | EmptyString => EmptyString end))
  end.

(** [write_at buf off s]: the buffer [buf] after [s] has been stored at
    [&buf[off]]. *)
Fixpoint write_at (buf : string) (off : nat) (s : string) : string :=
  match off, buf with
  | O, _ => overwrite s buf
  | S k, String c rest => String c (write_at rest k s)
  | S k, EmptyString => EmptyString
  end.

(** Modelled from the spec: [mbed_cellular_util::uint_to_binary_str] is
    declared in CellularUtil.h and defined outside the sources at hand.  The
    spec has each field "transmitted as an 8-character string of '0'/'1'
    characters, most-significant bit first, 3 unit-tag bits followed by 5
    magnitude bits": the helper stores the [bit_cnt] low bits of [num],
    most significant first, as the characters '0' and '1'. *)
Fixpoint uint_to_binary_str (num : Z) (bit_cnt : nat) : string :=
  match bit_cnt with
  | O => EmptyString
  | S i =>
      String (if Z.testbit num (Z.of_nat i) then "1"%char else "0"%char)
             (uint_to_binary_str num i)
  end.

(** The number a string of '0'/'1' characters denotes, most significant
    bit first. *)
Fixpoint binary_value_from (acc : Z) (s : string) : Z :=
  match s with
  | EmptyString => acc
  | String c s' => binary_value_from (2 * acc + (if Ascii.eqb c "1"%char then 1 else 0)) s'
  end.

Definition binary_value (s : string) : Z := binary_value_from 0 s.

Fixpoint is_binary_str (s : string) : bool :=
  match s with
  | EmptyString => true
  | String c s' => (Ascii.eqb c "0"%char || Ascii.eqb c "1"%char) && is_binary_str s'
  end.

(** ** Power-save timer encoding (the body of [set_power_save_mode]) *)

Module PSM.

Definition PSMTimerBits : nat := 5.
Definition ie_value_max : Z := 0x1f.

(** The nested conditional that fills [periodic_timer] and [pt]: the
    pair of the [uint32_t] timer value and the template copied into
    [pt] by [strcpy]. *)
Definition periodic_select (periodic_time : Z) : Z * string :=
  if periodic_time <=? 2 * ie_value_max then
    (C.to_uint32 (C.div periodic_time 2), "01100000")
  else if periodic_time <=? 30 * ie_value_max then
    (C.to_uint32 (C.div periodic_time 30), "10000000")
  else if periodic_time <=? 60 * ie_value_max then
    (C.to_uint32 (C.div periodic_time 60), "10100000")
  else if periodic_time <=? 10 * 60 * ie_value_max then
    (C.to_uint32 (C.div periodic_time (10 * 60)), "00000000")
  else if periodic_time <=? 60 * 60 * ie_value_max then
    (C.to_uint32 (C.div periodic_time (60 * 60)), "00100000")
  else if periodic_time <=? 10 * 60 * 60 * ie_value_max then
    (C.to_uint32 (C.div periodic_time (10 * 60 * 60)), "01000000")
  else
    let t := C.div periodic_time (320 * 60 * 60) in
    let t := if t >? ie_value_max then ie_value_max else t in
    (C.to_uint32 t, "11000000").

Definition periodic_timer (periodic_time : Z) : Z := fst (periodic_select periodic_time).

(** [pt] once [uint_to_binary_str(periodic_timer, &pt[3], sizeof(pt) - 3,
    PSMTimerBits)] has run. *)
Definition pt (periodic_time : Z) : string :=
  let '(timer, buf) := periodic_select periodic_time in
  write_at buf 3 (uint_to_binary_str timer PSMTimerBits).

(** The conditional that fills [active_timer] and [at]. *)
Definition active_select (active_time : Z) : Z * string :=
  if active_time <=? 2 * ie_value_max then
    (C.to_uint32 (C.div active_time 2), "00000000")
  else if active_time <=? 60 * ie_value_max then
    (C.to_uint32 (Z.lor (Z.shiftl 1 5) (C.div active_time 60)), "00100000")
  else
    let t := C.div active_time (6 * 60) in
    let t := if t >? ie_value_max then ie_value_max else t in
    (C.to_uint32 t, "01000000").

Definition active_timer (active_time : Z) : Z := fst (active_select active_time).

Definition at_ (active_time : Z) : string :=
  let '(timer, buf) := active_select active_time in
  write_at buf 3 (uint_to_binary_str timer PSMTimerBits).

(** *** The units of the two information elements

    Table 10.5.163a/3GPP TS 24.008 (GPRS Timer 3), as quoted in the
    source, in the order in which the code tries the units. *)
Inductive timer3_unit :=
| T3_2s | T3_30s | T3_1min | T3_10min | T3_1h | T3_10h | T3_320h.

Definition timer3_seconds (u : timer3_unit) : Z :=
  match u with
  | T3_2s => 2 | T3_30s => 30 | T3_1min => 60 | T3_10min => 10 * 60
  | T3_1h => 60 * 60 | T3_10h => 10 * 60 * 60 | T3_320h => 320 * 60 * 60
  end.

(** Bits 8 7 6 of the table. *)
Definition timer3_tag (u : timer3_unit) : string :=
  match u with
  | T3_10min => "000" | T3_1h => "001" | T3_10h => "010" | T3_2s => "011"
  | T3_30s => "100" | T3_1min => "101" | T3_320h => "110"
  end.

Definition timer3_order : list timer3_unit :=
  [T3_2s; T3_30s; T3_1min; T3_10min; T3_1h; T3_10h].

(** Table 10.5.172/3GPP TS 24.008 (GPRS Timer). *)
Inductive timer2_unit := T2_2s | T2_1min | T2_decihour.

Definition timer2_seconds (u : timer2_unit) : Z :=
  match u with T2_2s => 2 | T2_1min => 60 | T2_decihour => 6 * 60 end.

Definition timer2_tag (u : timer2_unit) : string :=
  match u with T2_2s => "000" | T2_1min => "001" | T2_decihour => "010" end.

#[global] Instance timer3_unit_eq_dec : EqDecision timer3_unit.
Proof. solve_decision. Defined.

#[global] Instance timer2_unit_eq_dec : EqDecision timer2_unit.
Proof. solve_decision. Defined.

(** The unit a buffer template stands for: its three leading
    characters. *)
Definition tag_of (buf : string) : string := substring 0 3 buf.

Definition timer3_of_tag (tag : string) : option timer3_unit :=
  List.find (fun u => String.eqb (timer3_tag u) tag) (timer3_order ++ [T3_320h]).

Definition timer2_of_tag (tag : string) : option timer2_unit :=
  List.find (fun u => String.eqb (timer2_tag u) tag) [T2_2s; T2_1min; T2_decihour].

(** The bucket a periodic duration falls in, read off the code's
    choice of template. *)
Definition periodic_unit (periodic_time : Z) : option timer3_unit :=
  timer3_of_tag (tag_of (snd (periodic_select periodic_time))).

Definition active_unit (active_time : Z) : option timer2_unit :=
  timer2_of_tag (tag_of (snd (active_select active_time))).

(** The magnitude a field carries: the number in its five low
    characters. *)
Definition magnitude_of (field : string) : Z := binary_value (substring 3 5 field).

(** *** The rule in the words of the specification

    "selecting the first unit (in that listed priority order, smallest
    granularity first) whose unit-count does not exceed 31", the
    unit-count being [floor(duration / unit-seconds)], with the 320 h
    unit as the fallback. *)
Definition spec_periodic_unit (duration : Z) : timer3_unit :=
  default T3_320h
    (List.find (fun u => duration / timer3_seconds u <=? 31) timer3_order).

(** The rule the code follows: the first unit 31 steps of which reach
    the duration. *)
Definition covering_periodic_unit (duration : Z) : timer3_unit :=
  default T3_320h
    (List.find (fun u => duration <=? 31 * timer3_seconds u) timer3_order).

Definition periodic_magnitude (duration : Z) (u : timer3_unit) : Z :=
  match u with
  | T3_320h => Z.min (duration / timer3_seconds u) 31
  | _ => duration / timer3_seconds u
  end.

(** The same for the active timer, whose last unit is the decihour. *)
Definition covering_active_unit (duration : Z) : timer2_unit :=
  default T2_decihour
    (List.find (fun u => duration <=? 31 * timer2_seconds u) [T2_2s; T2_1min]).

Definition active_magnitude (duration : Z) (u : timer2_unit) : Z :=
  match u with
  | T2_decihour => Z.min (duration / timer2_seconds u) 31
  | _ => duration / timer2_seconds u
  end.

(** The value the code computes for [active_timer]: in the one-minute
    unit it already carries the unit tag, [(1 << 5) | value]. *)
Definition active_timer_value (duration : Z) (u : timer2_unit) : Z :=
  match u with
  | T2_1min => Z.lor (Z.shiftl 1 5) (active_magnitude duration u)
  | _ => active_magnitude duration u
  end.

(** *** Reading a field back

    The duration a field stands for by the tables quoted in the source:
    the unit its three leading bits name times the number in its five
    low bits.  Only the units the code writes are read. *)
Definition timer3_value (field : string) : option Z :=
  (fun u => timer3_seconds u * magnitude_of field) <$> timer3_of_tag (tag_of field).

Definition timer2_value (field : string) : option Z :=
  (fun u => timer2_seconds u * magnitude_of field) <$> timer2_of_tag (tag_of field).

End PSM.

(** ** Result codes and enumerations declared outside the sources *)

Definition nsapi_error_t : Type := Z.

(** Modelled from the spec: the result codes are declared in nsapi_types.h,
    which is not among the sources; the spec names "NSAPI_ERROR_OK-equivalent
    (success), NSAPI_ERROR_PARAMETER-equivalent (invalid argument),
    NSAPI_ERROR_UNSUPPORTED-equivalent".  Success is [0] and the two
    others are negative codes different from each other. *)
Definition NSAPI_ERROR_OK : nsapi_error_t := 0.
Definition NSAPI_ERROR_UNSUPPORTED : nsapi_error_t := -3002.
Definition NSAPI_ERROR_PARAMETER : nsapi_error_t := -3003.

(** [CellularDevice::SimState]. *)
Inductive SimState :=
| SimStateReady | SimStatePinNeeded | SimStatePukNeeded | SimStateUnknown.

#[global] Instance SimState_eq_dec : EqDecision SimState.
Proof. solve_decision. Defined.

(** [memcmp(a, b, n)]; a buffer that ends early reads as NUL bytes. *)
Definition byte_at_head (s : string) : Z :=
  match s with
  | String c _ => Z.of_nat (nat_of_ascii c)
  | EmptyString => 0
  end.

Definition string_tail (s : string) : string :=
  match s with String _ r => r | EmptyString => EmptyString end.

Fixpoint memcmp (a b : string) (n : nat) : Z :=
  match n with
  | O => 0
  | S k =>
      if byte_at_head a =? byte_at_head b
      then memcmp (string_tail a) (string_tail b) k
      else byte_at_head a - byte_at_head b
  end.

(** ** The protocol engine at its interface *)

Module ATHandler.

(** The operations the device invokes on its engine [_at]. *)
Inductive call :=
| Lock | Unlock | Flush
| CmdStart (cmd : string)
| WriteInt (param : Z)
| WriteString (param : string)
| CmdStop | CmdStopReadResp
| RespStart (prefix : string)
| ReadString (size : Z)
| RespStop
| GetLastError | ClearError | UnlockReturnError.

(** What the engine and the modem behind it answer: the error status
    the engine holds once an operation has run, given the operations so
    far and the status before, and the token [read_string] finds
    ([None]: nothing readable, the call returns -1). *)
Record Modem := {
  error_after : list call -> nsapi_error_t -> nsapi_error_t;
  reply_to : list call -> option string
}.

Inductive trace_msg :=
| tr_info_msg (msg : string)
| tr_warn_msg (msg : string)
| tr_error_msg (msg : string).

(** The state the device-wide operations act on: the modem, the
    operations issued on [_at] (oldest first), the engine's recorded
    error, and the lines handed to the trace macros. *)
Record io := {
  modem : Modem;
  calls : list call;
  last_error : nsapi_error_t;
  trace_out : list trace_msg
}.

Definition M (A : Type) : Type := io -> A * io.

#[global] Instance M_ret : MRet M := fun A (a : A) (w : io) => (a, w).

#[global] Instance M_bind : MBind M :=
  fun A B (f : A -> M B) (m : M A) (w : io) => let '(a, w') := m w in f a w'.

(** Modelled from the spec: ATHandler.cpp is not among the sources; the
    spec lists the engine's "assumed synchronous API" ([lock], [unlock],
    [flush], [cmd_start], [write_int], [write_string], [cmd_stop],
    [cmd_stop_read_resp], [resp_start], [read_string], [resp_stop],
    [get_last_error], [clear_error], [unlock_return_error -> error
    code]).  Every operation is recorded; one that reaches the transport
    leaves the error status the modem decides, [clear_error] resets it,
    and the two getters return it unchanged. *)
Definition issue (c : call) : M unit :=
  fun w =>
    let history := calls w ++ [c] in
    (tt, {| modem := modem w;
            calls := history;
            last_error := error_after (modem w) history (last_error w);
            trace_out := trace_out w |}).

Definition record_only (c : call) (e : nsapi_error_t) : M nsapi_error_t :=
  fun w =>
    (e, {| modem := modem w; calls := calls w ++ [c];
           last_error := e; trace_out := trace_out w |}).

Definition lock : M unit := issue Lock.
Definition unlock : M unit := issue Unlock.
Definition flush : M unit := issue Flush.
Definition cmd_start (cmd : string) : M unit := issue (CmdStart cmd).
Definition write_int (param : Z) : M unit := issue (WriteInt param).
Definition write_string (param : string) : M unit := issue (WriteString param).
Definition cmd_stop : M unit := issue CmdStop.
Definition cmd_stop_read_resp : M unit := issue CmdStopReadResp.
Definition resp_start (prefix : string) : M unit := issue (RespStart prefix).
Definition resp_stop : M unit := issue RespStop.

Definition get_last_error : M nsapi_error_t :=
  fun w => record_only GetLastError (last_error w) w.

Definition unlock_return_error : M nsapi_error_t :=
  fun w => record_only UnlockReturnError (last_error w) w.

Definition clear_error : M unit :=
  fun w => (tt, snd (record_only ClearError NSAPI_ERROR_OK w)).

(** [read_string(buf, size)]: the length read, or -1, and the buffer,
    which holds at most [size - 1] characters. *)
Definition read_string (size : Z) : M (Z * string) :=
  fun w =>
    let '(_, w') := issue (ReadString size) w in
    match reply_to (modem w) (calls w') with
    | Some token =>
        let buf := substring 0 (Z.to_nat (size - 1)) token in
        ((Z.of_nat (String.length buf), buf), w')
    | None => ((-1, EmptyString), w')
    end.

Definition trace (m : trace_msg) : M unit :=
  fun w =>
    (tt, {| modem := modem w; calls := calls w; last_error := last_error w;
            trace_out := trace_out w ++ [m] |}).

Definition tr_info (msg : string) : M unit := trace (tr_info_msg msg).
Definition tr_warn (msg : string) : M unit := trace (tr_warn_msg msg).
Definition tr_error (msg : string) : M unit := trace (tr_error_msg msg).

(** The engine once the operations [cs] have been issued in turn. *)
Definition after (cs : list call) (w : io) : io :=
  fold_left (fun w c => snd (issue c w)) cs w.

(** A fresh engine talking to modem [m]. *)
Definition init (m : Modem) : io :=
  {| modem := m; calls := []; last_error := NSAPI_ERROR_OK; trace_out := [] |}.

End ATHandler.

(** ** Device-wide operations on [_at] *)

Section DeviceOperations.

Import ATHandler.

(** The build option that guards the trace switch of [get_sim_state]. *)
Variable MBED_CONF_MBED_TRACE_ENABLE : bool.

Definition MAX_SIM_RESPONSE_LENGTH : Z := 16.

Definition get_sim_state : M (nsapi_error_t * SimState) :=
  lock;;
  flush;;
  cmd_start "AT+CPIN?";;
  cmd_stop;;
  resp_start "+CPIN:";;
  '(len, simstr) ← read_string MAX_SIM_RESPONSE_LENGTH;
  state ←
    (if negb (len =? -1) then
       if (len >=? 5) && (memcmp simstr "READY" 5 =? 0) then
         mret SimStateReady
       else if (len >=? 7) && (memcmp simstr "SIM PIN" 7 =? 0) then
         mret SimStatePinNeeded
       else if (len >=? 7) && (memcmp simstr "SIM PUK" 7 =? 0) then
         mret SimStatePukNeeded
       else
         tr_error ("Unknown SIM state " +:+ simstr);;
         mret SimStateUnknown
     else
       tr_warn "SIM not readable.";;
       mret SimStateUnknown);
  resp_stop;;
  error ← get_last_error;
  unlock;;
  (if MBED_CONF_MBED_TRACE_ENABLE then
     match state with
     | SimStatePinNeeded => tr_info "SIM PIN required"
     | SimStatePukNeeded => tr_error "SIM PUK required"
     | SimStateUnknown => tr_warn "SIM state unknown"
     | SimStateReady => tr_info "SIM is ready"
     end
   else mret tt);;
  mret (error, state).

(** [sim_pin] is a [const char *]: [None] is the null pointer. *)
Definition set_pin (sim_pin : option string) : M nsapi_error_t :=
  '(error, state) ← get_sim_state;
  if (error =? NSAPI_ERROR_OK) && bool_decide (state = SimStateReady) then
    mret NSAPI_ERROR_OK
  else
    match sim_pin with
    | None => mret NSAPI_ERROR_PARAMETER
    | Some pin =>
        lock;;
        cmd_start "AT+CPIN=";;
        write_string pin;;
        cmd_stop_read_resp;;
        unlock_return_error
    end.

Definition is_ready : M nsapi_error_t :=
  lock;;
  cmd_start "AT";;
  cmd_stop_read_resp;;
  clear_error;;
  cmd_start "AT";;
  cmd_stop_read_resp;;
  unlock_return_error.

Definition set_power_save_mode (periodic_time active_time : Z) : M nsapi_error_t :=
  lock;;
  (if (periodic_time =? 0) && (active_time =? 0) then
     cmd_start "AT+CPSMS=";;
     write_int 0;;
     cmd_stop_read_resp
   else
     let pt := PSM.pt periodic_time in
     let at_ := PSM.at_ active_time in
     cmd_start "AT+CPSMS=";;
     write_int 1;;
     write_string pt;;
     write_string at_;;
     write_string pt;;
     write_string at_;;
     cmd_stop_read_resp;;
     error ← get_last_error;
     if negb (error =? NSAPI_ERROR_OK) then
       tr_warn "Power save mode not enabled!"
     else mret tt);;
  unlock_return_error.

End DeviceOperations.

(** ** The exchanges, as operation sequences *)

(** The disable request [AT+CPSMS=0] up to the end of its exchange. *)
Definition disable_exchange : list ATHandler.call :=
  [ATHandler.Lock; ATHandler.CmdStart "AT+CPSMS="; ATHandler.WriteInt 0;
   ATHandler.CmdStopReadResp].

(** The enable request [AT+CPSMS=1,pt,at,pt,at] up to the end of its
    exchange. *)
Definition enable_exchange (pt at_ : string) : list ATHandler.call :=
  [ATHandler.Lock; ATHandler.CmdStart "AT+CPSMS="; ATHandler.WriteInt 1;
   ATHandler.WriteString pt; ATHandler.WriteString at_;
   ATHandler.WriteString pt; ATHandler.WriteString at_;
   ATHandler.CmdStopReadResp].

(** The SIM-state query [AT+CPIN?] up to the reading of the first token
    of the reply, and to the end of the response. *)
Definition sim_query_read : list ATHandler.call :=
  [ATHandler.Lock; ATHandler.Flush; ATHandler.CmdStart "AT+CPIN?";
   ATHandler.CmdStop; ATHandler.RespStart "+CPIN:";
   ATHandler.ReadString MAX_SIM_RESPONSE_LENGTH].

Definition sim_query_exchange : list ATHandler.call :=
  [ATHandler.Lock; ATHandler.Flush; ATHandler.CmdStart "AT+CPIN?";
   ATHandler.CmdStop; ATHandler.RespStart "+CPIN:";
   ATHandler.ReadString MAX_SIM_RESPONSE_LENGTH; ATHandler.RespStop].

(** The PIN-set request [AT+CPIN=<pin>] up to the end of its exchange. *)
Definition pin_exchange (pin : string) : list ATHandler.call :=
  [ATHandler.Lock; ATHandler.CmdStart "AT+CPIN="; ATHandler.WriteString pin;
   ATHandler.CmdStopReadResp].

(** The SIM-state mapping in the words of the specification: "a
    5-character match READY -> Ready; a 7-character match SIM PIN ->
    PinNeeded; a 7-character match SIM PUK -> PukNeeded; any other content
    -> Unknown; no reply or a parse failure -> Unknown". *)
Definition spec_sim_state (reply : option string) : SimState :=
  match reply with
  | None => SimStateUnknown
  | Some token =>
      if bool_decide (substring 0 5 token = "READY") then SimStateReady
      else if bool_decide (substring 0 7 token = "SIM PIN") then SimStatePinNeeded
      else if bool_decide (substring 0 7 token = "SIM PUK") then SimStatePukNeeded
      else SimStateUnknown
  end.

(** ** The lock around an exchange *)

(** Whether the lock of the engine is held once the operations [cs] have
    been issued, [held] telling whether it was before; [None] when [lock]
    is issued while the lock is held, or any other operation while it is
    not. *)
Fixpoint lock_after (held : bool) (cs : list ATHandler.call) : option bool :=
  match cs with
  | [] => Some held
  | c :: rest =>
      match c with
      | ATHandler.Lock => if held then None else lock_after true rest
      | ATHandler.Unlock | ATHandler.UnlockReturnError =>
          if held then lock_after false rest else None
      | _ => if held then lock_after true rest else None
      end
  end.

(** The readiness probe [AT] up to the end of its exchange. *)
Definition probe : list ATHandler.call :=
  [ATHandler.CmdStart "AT"; ATHandler.CmdStopReadResp].

(** The engine with its recorded error cleared by [clear_error]. *)
Definition cleared (w : ATHandler.io) : ATHandler.io :=
  snd (ATHandler.clear_error w).

(** ** Sample modems *)

Module Sample.

Import ATHandler.

(** A modem that completes every exchange and answers [read_string]
    with [token]. *)
Definition modem_ok (token : option string) : Modem :=
  {| error_after := fun _ e => e; reply_to := fun _ => token |}.

(** A modem that sends [token] but never the final result code: the
    engine records [err] when it waits for the end of a response. *)
Definition modem_no_final_ok (err : nsapi_error_t) (token : option string) : Modem :=
  {| error_after := fun history e =>
       match last history with
       | Some RespStop | Some CmdStopReadResp => err
       | _ => e
       end;
     reply_to := fun _ => token |}.

Definition NSAPI_ERROR_DEVICE_ERROR : nsapi_error_t := -3012.

(** A modem coming back from data mode: the first command sent to it
    fails with [err], the later ones complete. *)
Definition modem_waking (err : nsapi_error_t) : Modem :=
  {| error_after := fun history e =>
       match last history with
       | Some CmdStopReadResp =>
           let sent :=
             List.filter
               (fun c => match c with CmdStopReadResp => true | _ => false end)
               history in
           if (List.length sent =? 1)%nat then err else e
       | _ => e
       end;
     reply_to := fun _ => None |}.

End Sample.

(** ** Objects on the heap *)

(** An object is known by its address; a nullable pointer is an
    [option addr]. *)
Definition addr : Type := positive.

(** The identity of a transport: the address a non-null [FileHandle *]
    holds. *)
Definition FileHandle : Type := positive.

Module Handle.

(** The part of an [ATHandler] object the device relies on when it
    shares handlers. *)
Record t := make_t {
  file_handle : FileHandle;
  ref_count : Z;
  at_timeout : Z;
  debug : bool
}.

#[global] Instance t_eq_dec : EqDecision t.
Proof. solve_decision. Defined.

(** Modelled from the spec: ATHandler.cpp is not among the sources.  The
    spec gives a handle a "transport identity (opaque, comparable), a
    reference count (>=0), a default timeout, a debug-enabled flag", with
    the lifecycle "created on first request for a given transport
    (count=1), incremented on each subsequent request for that transport,
    decremented on release".  The count is an unbounded integer here. *)
Definition make (fileHandle : FileHandle) (timeout : Z) : t :=
  {| file_handle := fileHandle; ref_count := 1; at_timeout := timeout;
     debug := false |}.

Definition get_file_handle (h : t) : FileHandle := file_handle h.

Definition get_ref_count (h : t) : Z := ref_count h.

Definition inc_ref_count (h : t) : t :=
  {| file_handle := file_handle h; ref_count := ref_count h + 1;
     at_timeout := at_timeout h; debug := debug h |}.

Definition dec_ref_count (h : t) : t :=
  {| file_handle := file_handle h; ref_count := ref_count h - 1;
     at_timeout := at_timeout h; debug := debug h |}.

Definition set_debug (on : bool) (h : t) : t :=
  {| file_handle := file_handle h; ref_count := ref_count h;
     at_timeout := at_timeout h; debug := on |}.

(** Modelled from the spec: [set_at_timeout(timeout, true)] is defined
    in ATHandler.cpp; the spec has the device push the timeout "to every
    live handle in the pool as their new default". *)
Definition set_at_timeout (timeout : Z) (h : t) : t :=
  {| file_handle := file_handle h; ref_count := ref_count h;
     at_timeout := timeout; debug := debug h |}.

End Handle.

(** The four subsystems the device caches. *)
Inductive subsystem := Network | SMS | Power | Information.

#[global] Instance subsystem_eq_dec : EqDecision subsystem.
Proof. solve_decision. Defined.

(** What the device allocates: handlers, the subsystem objects
    ([AT_CellularNetwork], [AT_CellularSMS], [AT_CellularPower],
    [AT_CellularInformation]), which keep a reference to the handler they
    were built on, and contexts ([AT_CellularContext]), which keep their
    handler and access point name. *)
Inductive object :=
| ObjATHandler (h : Handle.t)
| ObjSubsystem (k : subsystem) (at_handler : addr)
| ObjContext (at_handler : addr) (apn : option string).

#[global] Instance object_eq_dec : EqDecision object.
Proof. solve_decision. Defined.

(** Constructions and destructions, in the order they happen. *)
Inductive heap_event :=
| Constructed (a : addr) (o : object)
| Destroyed (a : addr) (o : object).

#[global] Instance heap_event_eq_dec : EqDecision heap_event.
Proof. solve_decision. Defined.

(** ** The device *)

(** The members of [AT_CellularDevice] that take part in resource
    management, with the heap of the objects the device has allocated.  The
    linked lists [_atHandlers] (through [_nextATHandler]) and
    [_context_list] (through [_next]) are the lists of their nodes'
    addresses, head first.

    Modelled from the spec: the four reference counters are declared in
    CellularDevice.h, which is not among the sources; the spec gives each
    slot "an independent reference count", zero when the slot is empty.
    They are unbounded integers here. *)
Record Device := {
  objects : gmap addr object;
  journal : list heap_event;
  _fh : FileHandle;
  _at : option addr;
  _atHandlers : list addr;
  _network : option addr;
  _sms : option addr;
  _power : option addr;
  _information : option addr;
  _network_ref_count : Z;
  _sms_ref_count : Z;
  _power_ref_count : Z;
  _info_ref_count : Z;
  _context_list : list addr;
  _default_timeout : Z;
  _modem_debug_on : bool
}.

#[global] Instance Device_eq_dec : EqDecision Device.
Proof. solve_decision. Defined.

Definition set_memory (h : gmap addr object) (j : list heap_event) (d : Device) : Device :=
  {| objects := h; journal := j;
     _fh := _fh d; _at := _at d; _atHandlers := _atHandlers d;
     _network := _network d; _sms := _sms d; _power := _power d;
     _information := _information d;
     _network_ref_count := _network_ref_count d;
     _sms_ref_count := _sms_ref_count d;
     _power_ref_count := _power_ref_count d;
     _info_ref_count := _info_ref_count d;
     _context_list := _context_list d;
     _default_timeout := _default_timeout d;
     _modem_debug_on := _modem_debug_on d |}.

Definition set_at (p : option addr) (d : Device) : Device :=
  {| objects := objects d; journal := journal d;
     _fh := _fh d; _at := p; _atHandlers := _atHandlers d;
     _network := _network d; _sms := _sms d; _power := _power d;
     _information := _information d;
     _network_ref_count := _network_ref_count d;
     _sms_ref_count := _sms_ref_count d;
     _power_ref_count := _power_ref_count d;
     _info_ref_count := _info_ref_count d;
     _context_list := _context_list d;
     _default_timeout := _default_timeout d;
     _modem_debug_on := _modem_debug_on d |}.

Definition set_atHandlers (l : list addr) (d : Device) : Device :=
  {| objects := objects d; journal := journal d;
     _fh := _fh d; _at := _at d; _atHandlers := l;
     _network := _network d; _sms := _sms d; _power := _power d;
     _information := _information d;
     _network_ref_count := _network_ref_count d;
     _sms_ref_count := _sms_ref_count d;
     _power_ref_count := _power_ref_count d;
     _info_ref_count := _info_ref_count d;
     _context_list := _context_list d;
     _default_timeout := _default_timeout d;
     _modem_debug_on := _modem_debug_on d |}.

Definition set_context_list (l : list addr) (d : Device) : Device :=
  {| objects := objects d; journal := journal d;
     _fh := _fh d; _at := _at d; _atHandlers := _atHandlers d;
     _network := _network d; _sms := _sms d; _power := _power d;
     _information := _information d;
     _network_ref_count := _network_ref_count d;
     _sms_ref_count := _sms_ref_count d;
     _power_ref_count := _power_ref_count d;
     _info_ref_count := _info_ref_count d;
     _context_list := l;
     _default_timeout := _default_timeout d;
     _modem_debug_on := _modem_debug_on d |}.

(** The member [_network], [_sms], [_power] or [_information]. *)
Definition slot_of (k : subsystem) (d : Device) : option addr :=
  match k with
  | Network => _network d
  | SMS => _sms d
  | Power => _power d
  | Information => _information d
  end.

(** The member [_network_ref_count], [_sms_ref_count],
    [_power_ref_count] or [_info_ref_count]. *)
Definition ref_count_of (k : subsystem) (d : Device) : Z :=
  match k with
  | Network => _network_ref_count d
  | SMS => _sms_ref_count d
  | Power => _power_ref_count d
  | Information => _info_ref_count d
  end.

Definition set_slot (k : subsystem) (p : option addr) (d : Device) : Device :=
  {| objects := objects d; journal := journal d;
     _fh := _fh d; _at := _at d; _atHandlers := _atHandlers d;
     _network := if decide (k = Network) then p else _network d;
     _sms := if decide (k = SMS) then p else _sms d;
     _power := if decide (k = Power) then p else _power d;
     _information := if decide (k = Information) then p else _information d;
     _network_ref_count := _network_ref_count d;
     _sms_ref_count := _sms_ref_count d;
     _power_ref_count := _power_ref_count d;
     _info_ref_count := _info_ref_count d;
     _context_list := _context_list d;
     _default_timeout := _default_timeout d;
     _modem_debug_on := _modem_debug_on d |}.

Definition set_ref_count (k : subsystem) (n : Z) (d : Device) : Device :=
  {| objects := objects d; journal := journal d;
     _fh := _fh d; _at := _at d; _atHandlers := _atHandlers d;
     _network := _network d; _sms := _sms d; _power := _power d;
     _information := _information d;
     _network_ref_count := if decide (k = Network) then n else _network_ref_count d;
     _sms_ref_count := if decide (k = SMS) then n else _sms_ref_count d;
     _power_ref_count := if decide (k = Power) then n else _power_ref_count d;
     _info_ref_count := if decide (k = Information) then n else _info_ref_count d;
     _context_list := _context_list d;
     _default_timeout := _default_timeout d;
     _modem_debug_on := _modem_debug_on d |}.

(** ** Operations on the device: state and undefined behaviour *)

(** A member function acts on the device and its heap; [None] stands for
    undefined behaviour (the use of a pointer to an object that is not
    live). *)
Definition R (A : Type) : Type := Device -> option (A * Device).

#[global] Instance R_ret : MRet R := fun A (a : A) (d : Device) => Some (a, d).

#[global] Instance R_bind : MBind R :=
  fun A B (f : A -> R B) (m : R A) (d : Device) =>
    match m d with
    | Some (a, d') => f a d'
    | None => None
    end.

Definition member {A : Type} (f : Device -> A) : R A := fun d => Some (f d, d).

Definition assign (f : Device -> Device) : R unit := fun d => Some (tt, f d).

Definition undefined_behaviour {A : Type} : R A := fun _ => None.

(** [new T(...)]: the object is stored at an address that holds no
    live object. *)
Definition operator_new (o : object) : R addr :=
  fun d =>
    let a := fresh (dom (objects d)) in
    Some (a, set_memory (<[a := o]> (objects d)) (journal d ++ [Constructed a o]) d).

(** [delete p] for a non-null [p]. *)
Definition operator_delete (a : addr) : R unit :=
  fun d =>
    match objects d !! a with
    | Some o =>
        Some (tt, set_memory (delete a (objects d)) (journal d ++ [Destroyed a o]) d)
    | None => None
    end.

(** Access to the [ATHandler] at [a]. *)
Definition load_handler (a : addr) : R Handle.t :=
  fun d =>
    match objects d !! a with
    | Some (ObjATHandler h) => Some (h, d)
    | _ => None
    end.

Definition store_handler (a : addr) (h : Handle.t) : R unit :=
  fun d => Some (tt, set_memory (<[a := ObjATHandler h]> (objects d)) (journal d) d).

(** [&subsystem->get_at_handler()]: the handler a subsystem object was
    built on. *)
Definition subsystem_at_handler (s : addr) : R addr :=
  fun d =>
    match objects d !! s with
    | Some (ObjSubsystem _ at_handler) => Some (at_handler, d)
    | _ => None
    end.

(** Access to the context at [c] (to read [_next]). *)
Definition load_context (c : addr) : R unit :=
  fun d =>
    match objects d !! c with
    | Some (ObjContext _ _) => Some (tt, d)
    | _ => None
    end.

(** ** The handler pool *)

Definition DEFAULT_AT_TIMEOUT : Z := 1000.

(** The [while] loop of [get_at_handler]: the first handler of the list
    bound to [fileHandle], if any. *)
Fixpoint find_at_handler (fileHandle : FileHandle) (atHandlers : list addr)
  : R (option addr) :=
  match atHandlers with
  | [] => mret None
  | atHandler :: nextATHandler =>
      h ← load_handler atHandler;
      if decide (Handle.get_file_handle h = fileHandle) then mret (Some atHandler)
      else find_at_handler fileHandle nextATHandler
  end.

Definition get_at_handler (fileHandle : option FileHandle) : R (option addr) :=
  fh ← member _fh;
  let fileHandle := default fh fileHandle in
  atHandlers ← member _atHandlers;
  found ← find_at_handler fileHandle atHandlers;
  match found with
  | Some atHandler =>
      h ← load_handler atHandler;
      store_handler atHandler (Handle.inc_ref_count h);;
      mret (Some atHandler)
  | None =>
      timeout ← member _default_timeout;
      atHandler ← operator_new (ObjATHandler (Handle.make fileHandle timeout));
      debug_on ← member _modem_debug_on;
      (if (debug_on : bool) then
         h ← load_handler atHandler;
         store_handler atHandler (Handle.set_debug debug_on h)
       else mret tt);;
      assign (set_atHandlers (atHandler :: atHandlers));;
      mret (Some atHandler)
  end.

(** The [while] loop of [release_at_handler]: the list once the node
    [at_handler] has been unlinked and deleted; every node up to it is
    read. *)
Fixpoint unlink_at_handler (at_handler : addr) (atHandlers : list addr)
  : R (list addr) :=
  match atHandlers with
  | [] => mret []
  | atHandler :: nextATHandler =>
      load_handler atHandler;;
      if decide (atHandler = at_handler) then
        operator_delete atHandler;;
        mret nextATHandler
      else
        rest ← unlink_at_handler at_handler nextATHandler;
        mret (atHandler :: rest)
  end.

Definition release_at_handler (at_handler : option addr) : R unit :=
  match at_handler with
  | None => mret tt
  | Some a =>
      h ← load_handler a;
      store_handler a (Handle.dec_ref_count h);;
      h ← load_handler a;
      if Handle.get_ref_count h =? 0 then
        atHandlers ← member _atHandlers;
        atHandlers ← unlink_at_handler a atHandlers;
        assign (set_atHandlers atHandlers)
      else mret tt
  end.

(** ** The subsystem slots

    [open_network], [open_sms], [open_power] and [open_information] are
    the same text up to the names of the members, and so are the four
    [close] functions: each is the instance of one definition at its
    subsystem. *)
Definition open_subsystem (k : subsystem) (fh : option FileHandle) : R (option addr) :=
  slot ← member (slot_of k);
  (if slot is None then
     atHandler ← get_at_handler fh;
     match atHandler with
     | Some at_handler =>
         s ← operator_new (ObjSubsystem k at_handler);
         assign (set_slot k (Some s))
     | None => mret tt
     end
   else mret tt);;
  slot ← member (slot_of k);
  (if slot is Some _ then
     count ← member (ref_count_of k);
     assign (set_ref_count k (count + 1))
   else mret tt);;
  member (slot_of k).

Definition open_network : option FileHandle -> R (option addr) := open_subsystem Network.
Definition open_sms : option FileHandle -> R (option addr) := open_subsystem SMS.
Definition open_power : option FileHandle -> R (option addr) := open_subsystem Power.
Definition open_information : option FileHandle -> R (option addr) :=
  open_subsystem Information.

Definition close_subsystem (k : subsystem) : R unit :=
  slot ← member (slot_of k);
  match slot with
  | Some s =>
      count ← member (ref_count_of k);
      assign (set_ref_count k (count - 1));;
      count ← member (ref_count_of k);
      if count =? 0 then
        atHandler ← subsystem_at_handler s;
        operator_delete s;;
        assign (set_slot k None);;
        release_at_handler (Some atHandler)
      else mret tt
  | None => mret tt
  end.

Definition close_network : R unit := close_subsystem Network.
Definition close_sms : R unit := close_subsystem SMS.
Definition close_power : R unit := close_subsystem Power.
Definition close_information : R unit := close_subsystem Information.

(** ** Contexts *)

(** The loop of [create_context] that walks to the last node. *)
Fixpoint walk_context_list (l : list addr) : R unit :=
  match l with
  | [] => mret tt
  | curr :: next => load_context curr;; walk_context_list next
  end.

Definition create_context (fh : option FileHandle) (apn : option string)
  : R (option addr) :=
  atHandler ← get_at_handler fh;
  match atHandler with
  | Some at_handler =>
      ctx ← operator_new (ObjContext at_handler apn);
      context_list ← member _context_list;
      match context_list with
      | [] =>
          assign (set_context_list [ctx]);;
          mret (Some ctx)
      | _ =>
          walk_context_list context_list;;
          assign (set_context_list (context_list ++ [ctx]));;
          mret (Some ctx)
      end
  | None => mret None
  end.

(** ** Construction and destruction of the device *)

(** The members as the initialisers of the constructors leave them: the
    lists and slots null, the counters zero. *)
Definition initial_members (fh : FileHandle) : Device :=
  {| objects := ∅; journal := [];
     _fh := fh; _at := None; _atHandlers := [];
     _network := None; _sms := None; _power := None; _information := None;
     _network_ref_count := 0; _sms_ref_count := 0;
     _power_ref_count := 0; _info_ref_count := 0;
     _context_list := [];
     _default_timeout := DEFAULT_AT_TIMEOUT;
     _modem_debug_on := false |}.

(** [AT_CellularDevice::AT_CellularDevice(fh)], for a non-null [fh]. *)
Definition AT_CellularDevice_new (fh : FileHandle) : option Device :=
  '(at_handler, d) ← get_at_handler (Some fh) (initial_members fh);
  Some (set_at at_handler d).

(** The two loops of the destructor. *)
Fixpoint delete_context_list (l : list addr) : R unit :=
  match l with
  | [] => mret tt
  | curr :: next =>
      load_context curr;;
      operator_delete curr;;
      delete_context_list next
  end.

Fixpoint delete_at_handlers (l : list addr) : R unit :=
  match l with
  | [] => mret tt
  | old :: atHandler =>
      load_handler old;;
      operator_delete old;;
      delete_at_handlers atHandler
  end.

(** [AT_CellularDevice::~AT_CellularDevice()]: the heap and the journal
    the device leaves behind.

    Modelled from the spec: the destructors of the subsystems and of
    [AT_CellularContext], and the state machine deleted first, are defined
    outside the sources; deleting an object frees it and does nothing else
    to the device ("freeing every remaining node"). *)
Definition AT_CellularDevice_delete (d : Device)
  : option (gmap addr object * list heap_event) :=
  '(_, d) ←
    (assign (set_ref_count Network 1);;
     assign (set_ref_count SMS 1);;
     assign (set_ref_count Power 1);;
     assign (set_ref_count Information 1);;
     close_network;;
     close_sms;;
     close_power;;
     close_information;;
     context_list ← member _context_list;
     delete_context_list context_list;;
     atHandlers ← member _atHandlers;
     delete_at_handlers atHandlers) d;
  Some (objects d, journal d).

(** ** Sequences of calls *)

(** [n] calls of [get_at_handler(fileHandle)], with the handles they
    return. *)
Fixpoint acquire_n (n : nat) (fileHandle : option FileHandle) : R (list (option addr)) :=
  match n with
  | O => mret []
  | S n' =>
      at_handler ← get_at_handler fileHandle;
      rest ← acquire_n n' fileHandle;
      mret (at_handler :: rest)
  end.

(** One call of [release_at_handler] on each handle of a list. *)
Fixpoint release_each (handles : list (option addr)) : R unit :=
  match handles with
  | [] => mret tt
  | at_handler :: rest => release_at_handler at_handler;; release_each rest
  end.

(** One [open] of subsystem [k] for each transport argument of a list,
    with the pointers returned. *)
Fixpoint open_each (k : subsystem) (fhs : list (option FileHandle))
  : R (list (option addr)) :=
  match fhs with
  | [] => mret []
  | fh :: rest =>
      s ← open_subsystem k fh;
      returned ← open_each k rest;
      mret (s :: returned)
  end.

(** [n] calls of the [close] of subsystem [k]. *)
Fixpoint close_n (k : subsystem) (n : nat) : R unit :=
  match n with
  | O => mret tt
  | S n' => close_subsystem k;; close_n k n'
  end.

(** ** Well-formed devices *)

(** The live handler at [a], if any. *)
Definition handler_at (d : Device) (a : addr) : option Handle.t :=
  match objects d !! a with
  | Some (ObjATHandler h) => Some h
  | _ => None
  end.

(** The handler the object at [p] refers to, when [p] is a live
    subsystem or context. *)
Definition handler_of (d : Device) (p : addr) : option addr :=
  match objects d !! p with
  | Some (ObjSubsystem _ at_handler) => Some at_handler
  | Some (ObjContext at_handler _) => Some at_handler
  | _ => None
  end.

Definition all_subsystems : list subsystem := [Network; SMS; Power; Information].

(** The subsystem [k] is open and built on the handler [a]. *)
Definition bound_slot (d : Device) (k : subsystem) (a : addr) : bool :=
  match slot_of k d with
  | Some s => bool_decide (handler_of d s = Some a)
  | None => false
  end.

(** The number of open subsystems built on the handler [a]. *)
Definition slot_users (d : Device) (a : addr) : Z :=
  Z.b2z (bound_slot d Network a) + Z.b2z (bound_slot d SMS a)
  + Z.b2z (bound_slot d Power a) + Z.b2z (bound_slot d Information a).

(** The number of contexts built on the handler [a]. *)
Definition context_users (d : Device) (a : addr) : Z :=
  Z.of_nat
    (List.length (filter (fun c => handler_of d c = Some a) (_context_list d))).

(** The number of references to the handler [a] the device holds: its
    own [_at], one for each open subsystem built on it and one for each
    context built on it. *)
Definition users (d : Device) (a : addr) : Z :=
  slot_users d a + context_users d a
  + (if decide (_at d = Some a) then 1 else 0).

Definition slot_ok (d : Device) (k : subsystem) : Prop :=
  match slot_of k d with
  | Some s =>
      match objects d !! s with
      | Some (ObjSubsystem k' at_handler) =>
          k' = k /\ at_handler ∈ _atHandlers d /\ 1 <= ref_count_of k d
      | _ => False
      end
  | None => ref_count_of k d = 0
  end.

Definition context_ok (d : Device) (c : addr) : Prop :=
  match objects d !! c with
  | Some (ObjContext at_handler _) => at_handler ∈ _atHandlers d
  | _ => False
  end.

Definition handler_ok (d : Device) (a : addr) : Prop :=
  match handler_at d a with
  | Some h => 1 <= Handle.ref_count h /\ users d a <= Handle.ref_count h
  | None => False
  end.

(** Every live object is reachable from the device. *)
Definition owned (d : Device) (a : addr) (o : object) : Prop :=
  match o with
  | ObjATHandler _ => a ∈ _atHandlers d
  | ObjSubsystem k _ => slot_of k d = Some a
  | ObjContext _ _ => a ∈ _context_list d
  end.

(** [_at], when set, is a handler of the pool. *)
Definition at_ok (d : Device) : Prop :=
  match _at d with
  | Some a => a ∈ _atHandlers d
  | None => True
  end.

(** The invariant of the device: the pool lists live handlers, each
    once and no two on the same transport; a handler's count is at least
    one and at least the number of references the device itself holds; a
    non-null slot points to a live subsystem of its kind built on a pooled
    handler, its counter being positive, and the counter of an empty slot
    is zero; the context list holds live contexts, each once, built on
    pooled handlers; nothing else is on the heap; [_at] is pooled. *)
Definition device_ok (d : Device) : Prop :=
  NoDup (_atHandlers d)
  /\ Forall (handler_ok d) (_atHandlers d)
  /\ NoDup (omap (fun a => Handle.file_handle <$> handler_at d a) (_atHandlers d))
  /\ Forall (slot_ok d) all_subsystems
  /\ NoDup (_context_list d)
  /\ Forall (context_ok d) (_context_list d)
  /\ map_Forall (owned d) (objects d)
  /\ at_ok d.

#[global] Instance slot_ok_dec d k : Decision (slot_ok d k).
Proof.
  unfold slot_ok. destruct (slot_of k d); [|apply _].
  destruct (objects d !! a) as [[]|]; apply _.
Defined.

#[global] Instance context_ok_dec d c : Decision (context_ok d c).
Proof. unfold context_ok. destruct (objects d !! c) as [[]|]; apply _. Defined.

#[global] Instance handler_ok_dec d a : Decision (handler_ok d a).
Proof. unfold handler_ok. destruct (handler_at d a); apply _. Defined.

#[global] Instance owned_dec d a o : Decision (owned d a o).
Proof. unfold owned. destruct o; apply _. Defined.

#[global] Instance at_ok_dec d : Decision (at_ok d).
Proof. unfold at_ok. destruct (_at d); apply _. Defined.

#[global] Instance device_ok_dec d : Decision (device_ok d).
Proof. unfold device_ok. apply _. Defined.

(** ** Sample devices *)

Module SampleDevice.

(** The state [m] leaves a device in (the device itself where [m] is
    undefined). *)
Definition run {A : Type} (m : R A) (d : Device) : Device :=
  match m d with
  | Some (_, d') => d'
  | None => d
  end.

(** A device on transport 7, just constructed. *)
Definition fresh_device : Device :=
  default (initial_members 7%positive) (AT_CellularDevice_new 7%positive).

(** The same device with the network opened twice (first on transport
    9), the messaging subsystem opened on the default transport, and a
    context created on transport 9; nothing has been closed. *)
Definition busy_device : Device :=
  run (create_context (Some 9%positive) None)
    (run (open_sms None)
       (run (open_network None)
          (run (open_network (Some 9%positive)) fresh_device))).

End SampleDevice.

(** The first handler of a list bound to transport [fileHandle], by
    inspection of the heap. *)
Definition pooled_for (d : Device) (fileHandle : FileHandle) (l : list addr)
  : option addr :=
  List.find
    (fun a => bool_decide (Handle.file_handle <$> handler_at d a = Some fileHandle)) l.

(** The handler [get_at_handler] builds for a transport that has none. *)
Definition new_handler (d : Device) (fileHandle : FileHandle) : Handle.t :=
  Handle.set_debug (_modem_debug_on d) (Handle.make fileHandle (_default_timeout d)).

(** The transport a call of [get_at_handler] is about. *)
Definition transport_of (d : Device) (fileHandle : option FileHandle) : FileHandle :=
  default (_fh d) fileHandle.

(** A list without the first occurrence of [a]. *)
Fixpoint remove_first (a : addr) (l : list addr) : list addr :=
  match l with
  | [] => []
  | x :: rest => if decide (x = a) then rest else x :: remove_first a rest
  end.

(** Every node of the pool is a live handler. *)
Definition pool_live (d : Device) : Prop :=
  Forall (fun a => is_Some (handler_at d a)) (_atHandlers d).

(** The device [d] while [count] references are held on a handler
    built at [a] for a transport [T] that had none in [d]. *)
Definition held (d : Device) (T : FileHandle) (a : addr) (count : Z) : Device :=
  set_atHandlers (a :: _atHandlers d)
    (set_memory
       (<[a := ObjATHandler
                 {| Handle.file_handle := T; Handle.ref_count := count;
                    Handle.at_timeout := _default_timeout d;
                    Handle.debug := _modem_debug_on d |}]> (objects d))
       (journal d ++ [Constructed a (ObjATHandler (Handle.make T (_default_timeout d)))])
       d).

(** At most one live handler is bound to transport [T]. *)
Definition at_most_one_handler (d : Device) (T : FileHandle) : Prop :=
  forall a1 a2 h1 h2,
    handler_at d a1 = Some h1 -> handler_at d a2 = Some h2 ->
    Handle.file_handle h1 = T -> Handle.file_handle h2 = T ->
    a1 = a2.

(** The device [d] once the handler built at [a] for [T] has been
    released for the last time. *)
Definition released (d : Device) (T : FileHandle) (a : addr) : Device :=
  set_memory (objects d)
    (journal d
     ++ [Constructed a (ObjATHandler (Handle.make T (_default_timeout d)));
         Destroyed a
           (ObjATHandler
              {| Handle.file_handle := T; Handle.ref_count := 0;
                 Handle.at_timeout := _default_timeout d;
                 Handle.debug := _modem_debug_on d |})])
    d.

(** The device [d1] with the subsystem [k] open: its object built at
    [s] on the handler [at_handler], and [count] opens outstanding. *)
Definition opened (d1 : Device) (k : subsystem) (s at_handler : addr) (count : Z)
  : Device :=
  set_ref_count k count
    (set_slot k (Some s)
       (set_memory (<[s := ObjSubsystem k at_handler]> (objects d1))
                   (journal d1 ++ [Constructed s (ObjSubsystem k at_handler)])
                   d1)).

(** The device [d1] once that subsystem object has been deleted and
    its slot cleared, before its handler is released. *)
Definition closing (d1 : Device) (k : subsystem) (s at_handler : addr) : Device :=
  set_ref_count k 0
    (set_slot k None
       (set_memory (objects d1)
                   (journal d1 ++ [Constructed s (ObjSubsystem k at_handler);
                                   Destroyed s (ObjSubsystem k at_handler)])
                   d1)).

(** ** The state of a device that is being destroyed *)

Definition slot_tearing (d : Device) (k : subsystem) : Prop :=
  match slot_of k d with
  | Some s =>
      match objects d !! s with
      | Some (ObjSubsystem k' at_handler) => k' = k /\ at_handler ∈ _atHandlers d
      | _ => False
      end
  | None => True
  end.

Definition handler_tearing (d : Device) (a : addr) : Prop :=
  match handler_at d a with
  | Some h => slot_users d a <= Handle.ref_count h
  | None => False
  end.

Definition context_live (d : Device) (c : addr) : Prop :=
  match objects d !! c with
  | Some (ObjContext _ _) => True
  | _ => False
  end.

(** What the destructor relies on while it closes the subsystems: the
    invariant of the device without the counters of the slots, and with
    the references of the subsystems only. *)
Definition tearing (d : Device) : Prop :=
  NoDup (_atHandlers d)
  /\ Forall (handler_tearing d) (_atHandlers d)
  /\ Forall (slot_tearing d) all_subsystems
  /\ NoDup (_context_list d)
  /\ Forall (context_live d) (_context_list d)
  /\ map_Forall (owned d) (objects d).

(** The counters as the destructor forces them. *)
Definition forced (d : Device) : Device :=
  set_ref_count Information 1
    (set_ref_count Power 1 (set_ref_count SMS 1 (set_ref_count Network 1 d))).

(** The device once [close] has deleted the subsystem object [o] at
    [s] and cleared the slot [k], before the handler is released. *)
Definition slot_cleared (d : Device) (k : subsystem) (s : addr) (o : object) : Device :=
  set_slot k None
    (set_memory (delete s (objects d)) (journal d ++ [Destroyed s o])
       (set_ref_count k 0 d)).

(** ** The use of a device *)

(** The calls made on a device between its construction and its
    destruction that add to what it holds, and the closes.  A handle
    obtained by [CallGetAtHandler] is kept by the caller;
    [release_at_handler] on a handle that is not the caller's own is not
    among the calls. *)
Inductive device_call :=
| CallOpen (k : subsystem) (fh : option FileHandle)
| CallClose (k : subsystem)
| CallCreateContext (fh : option FileHandle) (apn : option string)
| CallGetAtHandler (fh : option FileHandle).

Definition perform (c : device_call) : R unit :=
  match c with
  | CallOpen k fh => open_subsystem k fh;; mret tt
  | CallClose k => close_subsystem k
  | CallCreateContext fh apn => create_context fh apn;; mret tt
  | CallGetAtHandler fh => get_at_handler fh;; mret tt
  end.

Fixpoint perform_all (cs : list device_call) : R unit :=
  match cs with
  | [] => mret tt
  | c :: rest => perform c;; perform_all rest
  end.

(** ** The other member functions *)

Definition set_default_timeout (timeout : Z) (d : Device) : Device :=
  {| objects := objects d; journal := journal d;
     _fh := _fh d; _at := _at d; _atHandlers := _atHandlers d;
     _network := _network d; _sms := _sms d; _power := _power d;
     _information := _information d;
     _network_ref_count := _network_ref_count d;
     _sms_ref_count := _sms_ref_count d;
     _power_ref_count := _power_ref_count d;
     _info_ref_count := _info_ref_count d;
     _context_list := _context_list d;
     _default_timeout := timeout;
     _modem_debug_on := _modem_debug_on d |}.

Definition set_modem_debug_on (on : bool) (d : Device) : Device :=
  {| objects := objects d; journal := journal d;
     _fh := _fh d; _at := _at d; _atHandlers := _atHandlers d;
     _network := _network d; _sms := _sms d; _power := _power d;
     _information := _information d;
     _network_ref_count := _network_ref_count d;
     _sms_ref_count := _sms_ref_count d;
     _power_ref_count := _power_ref_count d;
     _info_ref_count := _info_ref_count d;
     _context_list := _context_list d;
     _default_timeout := _default_timeout d;
     _modem_debug_on := on |}.

(** [get_context_list]: the head of the list. *)
Definition get_context_list : R (option addr) :=
  context_list ← member _context_list;
  mret (head context_list).

(** The loop of [delete_context]: every node is visited, and the node
    [context] is spliced out of the list. *)
Fixpoint unlink_context (context : option addr) (l : list addr) : R (list addr) :=
  match l with
  | [] => mret []
  | curr :: next =>
      load_context curr;;
      rest ← unlink_context context next;
      mret (if decide (context = Some curr) then rest else curr :: rest)
  end.

(** [delete_context(context)]; the [delete] of a null pointer does
    nothing.

    Modelled from the spec: the destructor of [AT_CellularContext] is
    defined outside the sources; as in the destructor of the device,
    deleting a context frees the object ("a destroyed context is fully
    detached and freed") and does nothing else to the members of the
    device. *)
Definition delete_context (context : option addr) : R unit :=
  context_list ← member _context_list;
  context_list ← unlink_context context context_list;
  assign (set_context_list context_list);;
  match context with
  | Some c => load_context c;; operator_delete c
  | None => mret tt
  end.

(** The loop of [set_timeout]. *)
Fixpoint set_at_timeout_each (timeout : Z) (l : list addr) : R unit :=
  match l with
  | [] => mret tt
  | atHandler :: nextATHandler =>
      h ← load_handler atHandler;
      store_handler atHandler (Handle.set_at_timeout timeout h);;
      set_at_timeout_each timeout nextATHandler
  end.

Definition set_timeout (timeout : Z) : R unit :=
  assign (set_default_timeout timeout);;
  default_timeout ← member _default_timeout;
  atHandlers ← member _atHandlers;
  set_at_timeout_each default_timeout atHandlers.

(** The loop of [modem_debug_on]. *)
Fixpoint set_debug_each (on : bool) (l : list addr) : R unit :=
  match l with
  | [] => mret tt
  | atHandler :: nextATHandler =>
      h ← load_handler atHandler;
      store_handler atHandler (Handle.set_debug on h);;
      set_debug_each on nextATHandler
  end.

Definition modem_debug_on (on : bool) : R unit :=
  assign (set_modem_debug_on on);;
  debug_on ← member _modem_debug_on;
  atHandlers ← member _atHandlers;
  set_debug_each debug_on atHandlers.

Section Calls.

(** The build option that guards the body of [init_module]. *)
Variable MBED_CONF_MBED_TRACE_ENABLE : bool.

(** [init_module], with the code and the text
    [information->get_model(pbuf, sizeof( *pbuf))] yields given as
    [model]: [AT_CellularInformation] is outside the sources, its exchange
    with the modem leaves the members of the device alone.  The result is
    the code returned and the lines traced; [open_information()] is the
    call with the null transport. *)
Definition init_module (model : nsapi_error_t * string)
  : R (nsapi_error_t * list ATHandler.trace_msg) :=
  lines ←
    (if MBED_CONF_MBED_TRACE_ENABLE then
       information ← open_information None;
       if information is Some _ then
         let '(ret, pbuf) := model in
         close_information;;
         mret (if ret =? NSAPI_ERROR_OK
               then [ATHandler.tr_info_msg ("Model " +:+ pbuf)] else [])
       else mret []
     else mret []);
  mret (NSAPI_ERROR_OK, lines).

(** The calls a client makes on a device between its construction and
    its destruction.  The client keeps the handles [get_at_handler]
    returns to it, the latest first, and releases only those:
    [ReleaseAtHandler i] releases the handle of rank [i] it holds (a null
    pointer when there is none).  [DeleteContext i] deletes the node of
    rank [i] of the context list (a null pointer when there is none). *)
Inductive member_call :=
| OpenSubsystem (k : subsystem) (fh : option FileHandle)
| CloseSubsystem (k : subsystem)
| CreateContext (fh : option FileHandle) (apn : option string)
| DeleteContext (i : nat)
| GetAtHandler (fh : option FileHandle)
| ReleaseAtHandler (i : nat)
| SetTimeout (timeout : Z)
| ModemDebugOn (on : bool)
| InitModule (model : nsapi_error_t * string).

(** One call, with the handles the client holds before and after. *)
Definition invoke (c : member_call) (held : list addr) : R (list addr) :=
  match c with
  | OpenSubsystem k fh => open_subsystem k fh;; mret held
  | CloseSubsystem k => close_subsystem k;; mret held
  | CreateContext fh apn => create_context fh apn;; mret held
  | DeleteContext i =>
      context_list ← member _context_list;
      delete_context (context_list !! i);;
      mret held
  | GetAtHandler fh =>
      at_handler ← get_at_handler fh;
      mret (from_option (fun a => a :: held) held at_handler)
  | ReleaseAtHandler i =>
      release_at_handler (held !! i);;
      mret (delete i held)
  | SetTimeout timeout => set_timeout timeout;; mret held
  | ModemDebugOn on => modem_debug_on on;; mret held
  | InitModule model => init_module model;; mret held
  end.

Fixpoint invoke_all (cs : list member_call) (held : list addr) : R (list addr) :=
  match cs with
  | [] => mret held
  | c :: rest => held ← invoke c held; invoke_all rest held
  end.

End Calls.

(** The timeout and the debug flag the calls of a list leave as the
    defaults of a device that had [timeout] and [on]. *)
Fixpoint timeout_after (cs : list member_call) (timeout : Z) : Z :=
  match cs with
  | [] => timeout
  | SetTimeout t :: rest => timeout_after rest t
  | _ :: rest => timeout_after rest timeout
  end.

Fixpoint debug_after (cs : list member_call) (on : bool) : bool :=
  match cs with
  | [] => on
  | ModemDebugOn b :: rest => debug_after rest b
  | _ :: rest => debug_after rest on
  end.

(** [_at] is a live handler on the transport of the device. *)
Definition own_handler_ok (d : Device) : Prop :=
  match _at d with
  | Some a =>
      match handler_at d a with
      | Some h => Handle.file_handle h = _fh d
      | None => False
      end
  | None => False
  end.

(** Every live handler carries the default timeout and the debug flag
    of the device. *)
Definition settings_ok (d : Device) : Prop :=
  forall (a : addr) (h : Handle.t),
    handler_at d a = Some h ->
    Handle.at_timeout h = _default_timeout d
    /\ Handle.debug h = _modem_debug_on d.

(** A device in good order, its own handler and the settings of its
    handlers included. *)
Definition device_settled (d : Device) : Prop :=
  device_ok d /\ own_handler_ok d /\ settings_ok d.

(** The members that no call but [set_timeout] and [modem_debug_on]
    assigns. *)
Definition same_settings (d d' : Device) : Prop :=
  _fh d' = _fh d /\ _at d' = _at d
  /\ _default_timeout d' = _default_timeout d
  /\ _modem_debug_on d' = _modem_debug_on d.

(** From [d] to [d'] the handlers kept their transport, timeout and
    debug flag, and the new ones were given the defaults of the device. *)
Definition handlers_kept (d d' : Device) : Prop :=
  same_settings d d'
  /\ forall (a : addr) (h' : Handle.t),
       handler_at d' a = Some h' ->
       match handler_at d a with
       | Some h =>
           Handle.file_handle h' = Handle.file_handle h
           /\ Handle.at_timeout h' = Handle.at_timeout h
           /\ Handle.debug h' = Handle.debug h
       | None =>
           Handle.at_timeout h' = _default_timeout d
           /\ Handle.debug h' = _modem_debug_on d
       end.

(** The device [d] with the count of the handler [h] at [a] set to
    [count]. *)
Definition recounted (d : Device) (a : addr) (h : Handle.t) (count : Z) : Device :=
  set_memory
    (<[a := ObjATHandler
              {| Handle.file_handle := Handle.file_handle h;
                 Handle.ref_count := count;
                 Handle.at_timeout := Handle.at_timeout h;
                 Handle.debug := Handle.debug h |}]> (objects d))
    (journal d) d.

(** One [create_context] for each pair of a transport and an access
    point name, with the pointers returned. *)
Fixpoint create_each (requests : list (option FileHandle * option string))
  : R (list (option addr)) :=
  match requests with
  | [] => mret []
  | (fh, apn) :: rest =>
      ctx ← create_context fh apn;
      returned ← create_each rest;
      mret (ctx :: returned)
  end.

(** The context at [c] was built for the request [request] and its
    handler is live in [d] on transport [T]. *)
Definition context_for (d : Device) (T : FileHandle) (apn : option string)
           (c : addr) : Prop :=
  exists (a : addr) (h : Handle.t),
    objects d !! c = Some (ObjContext a apn)
    /\ handler_at d a = Some h
    /\ Handle.file_handle h = T.

(** The references of the handler at [a] that the device does not
    account for: its count less the references the device itself holds
    (0 when no handler is live at [a]). *)
Definition spare (d : Device) (a : addr) : Z :=
  match handler_at d a with
  | Some h => Handle.ref_count h - users d a
  | None => 0
  end.

(** The number of times the client holds the handle [a]. *)
Definition occurrences (a : addr) (held : list addr) : Z :=
  Z.of_nat (List.length (filter (fun x => x = a) held)).

(** A device in good order and a client that holds no more handles
    than the handlers have references to spare. *)
Definition client_ok (d : Device) (held : list addr) : Prop :=
  device_settled d /\ forall a, occurrences a held <= spare d a.

(** The calls of a list that delete no context. *)
Definition deletes_no_context (cs : list member_call) : bool :=
  forallb (fun c => match c with DeleteContext _ => false | _ => true end) cs.

(** * Properties *)

(** ** Bit strings *)

Lemma append_String (c : ascii) (s t : string) :
  String c s +:+ t = String c (s +:+ t).
Proof. reflexivity. Qed.

Lemma append_Empty (t : string) : EmptyString +:+ t = t.
Proof. reflexivity. Qed.

Lemma binary_value_from_bits (v : Z) (n : nat) (acc : Z) :
  binary_value_from acc (uint_to_binary_str v n)
  = acc * 2 ^ Z.of_nat n + v mod 2 ^ Z.of_nat n.
Proof.
  revert acc. induction n as [|n IH]; intros acc.
  - simpl. rewrite Z.mod_1_r. lia.
  - cbn [uint_to_binary_str binary_value_from]. rewrite IH.
    rewrite Nat2Z.inj_succ, Z.pow_succ_r by lia.
    rewrite (Z.mul_comm 2 (2 ^ Z.of_nat n)).
    rewrite Z.rem_mul_r by lia.
    rewrite <- Z.testbit_spec' by lia.
    destruct (Z.testbit v (Z.of_nat n)); simpl; lia.
Qed.

Lemma binary_value_bits (v : Z) (n : nat) :
  binary_value (uint_to_binary_str v n) = v mod 2 ^ Z.of_nat n.
Proof. unfold binary_value. rewrite binary_value_from_bits. lia. Qed.

Lemma uint_to_binary_str_length (v : Z) (n : nat) :
  String.length (uint_to_binary_str v n) = n.
Proof. induction n as [|n IH]; simpl; congruence. Qed.

Lemma uint_to_binary_str_binary (v : Z) (n : nat) :
  is_binary_str (uint_to_binary_str v n) = true.
Proof.
  induction n as [|n IH]; simpl; [reflexivity|].
  rewrite IH. destruct (Z.testbit v (Z.of_nat n)); reflexivity.
Qed.

Lemma uint_to_binary_str_low_bits (v w : Z) (n : nat) :
  v mod 2 ^ Z.of_nat n = w mod 2 ^ Z.of_nat n ->
  uint_to_binary_str v n = uint_to_binary_str w n.
Proof.
  intros Hmod. induction n as [|n IH]; simpl; [reflexivity|].
  assert (Hbit : forall i, 0 <= i < Z.of_nat (S n) -> Z.testbit v i = Z.testbit w i).
  { intros i Hi.
    rewrite <- (Z.mod_pow2_bits_low v (Z.of_nat (S n)) i) by lia.
    rewrite <- (Z.mod_pow2_bits_low w (Z.of_nat (S n)) i) by lia.
    now rewrite Hmod. }
  rewrite (Hbit (Z.of_nat n)) by lia.
  f_equal. apply IH.
  apply Z.bits_inj'. intros i Hi.
  destruct (Z.lt_ge_cases i (Z.of_nat n)) as [Hlt|Hge].
  - rewrite !Z.mod_pow2_bits_low by lia. apply Hbit. lia.
  - rewrite !Z.mod_pow2_bits_high by lia. reflexivity.
Qed.

(** A field is its template's three tag characters followed by the five
    low bits of the timer value. *)
Lemma write_at_3_bits (c0 c1 c2 : ascii) (rest : string) (v : Z) :
  String.length rest = 5%nat ->
  write_at (String c0 (String c1 (String c2 rest))) 3 (uint_to_binary_str v 5)
  = String c0 (String c1 (String c2 (uint_to_binary_str v 5))).
Proof.
  intros Hlen.
  do 5 (destruct rest as [|? rest]; [discriminate Hlen|]).
  destruct rest; [reflexivity | discriminate Hlen].
Qed.

(** ** The power-save timer encoding *)

Section Encoding.

Import PSM.

Lemma to_uint32_small (z : Z) : 0 <= z < 4294967296 -> C.to_uint32 z = z.
Proof. intros H. unfold C.to_uint32. apply Z.mod_small. exact H. Qed.

Lemma c_div_nonneg (a b : Z) : 0 <= a -> 0 < b -> C.div a b = a / b.
Proof. apply Z.quot_div_nonneg. Qed.

Ltac case_leb :=
  match goal with
  | |- context [ ?a <=? ?b ] => destruct (Z.leb_spec a b)
  | |- context [ ?a >? ?b ] => rewrite (Z.gtb_ltb a b); destruct (Z.ltb_spec b a)
  end.

Ltac small_quotient :=
  match goal with
  | |- context [ C.div ?a ?b ] =>
      rewrite (c_div_nonneg a b) by lia;
      assert (0 <= a / b) by (apply Z.div_pos; lia);
      assert (a / b <= 31) by (apply Z.div_le_upper_bound; lia)
  end.

(** On a non-negative duration the periodic conditional picks the
    first unit 31 steps of which reach the duration, and stores the
    whole number of such units. *)
Lemma periodic_select_covering (d : Z) :
  0 <= d ->
  periodic_select d
  = (periodic_magnitude d (covering_periodic_unit d),
     timer3_tag (covering_periodic_unit d) +:+ "00000").
Proof.
  intros Hd. unfold periodic_select, covering_periodic_unit, timer3_order, ie_value_max.
  cbn [List.find timer3_seconds].
  change (2 * 31) with 62. change (31 * 2) with 62.
  change (30 * 31) with 930. change (31 * 30) with 930.
  change (60 * 31) with 1860. change (31 * 60) with 1860.
  change (10 * 60 * 31) with 18600. change (31 * (10 * 60)) with 18600.
  change (60 * 60 * 31) with 111600. change (31 * (60 * 60)) with 111600.
  change (10 * 60 * 60 * 31) with 1116000. change (31 * (10 * 60 * 60)) with 1116000.
  repeat (case_leb; [cbn [default from_option id periodic_magnitude timer3_tag timer3_seconds];
                     small_quotient; rewrite to_uint32_small by lia; reflexivity|]).
  cbn [default from_option id periodic_magnitude timer3_tag timer3_seconds].
  rewrite c_div_nonneg by lia.
  assert (0 <= d / (320 * 60 * 60)) by (apply Z.div_pos; lia).
  case_leb; rewrite to_uint32_small by lia; f_equal; lia.
Qed.

Lemma periodic_magnitude_range (d : Z) :
  0 <= d -> 0 <= periodic_magnitude d (covering_periodic_unit d) <= 31.
Proof.
  intros Hd. unfold covering_periodic_unit, timer3_order.
  cbn [List.find timer3_seconds].
  repeat (case_leb;
          [cbn [default from_option id periodic_magnitude timer3_seconds]; split;
           [apply Z.div_pos; lia | apply Z.div_le_upper_bound; lia]|]).
  cbn [default from_option id periodic_magnitude timer3_seconds].
  assert (0 <= d / (320 * 60 * 60)) by (apply Z.div_pos; lia). lia.
Qed.

Lemma pt_field (d : Z) :
  0 <= d ->
  pt d = timer3_tag (covering_periodic_unit d)
         +:+ uint_to_binary_str (periodic_magnitude d (covering_periodic_unit d)) 5.
Proof.
  intros Hd. unfold pt. rewrite periodic_select_covering by assumption.
  destruct (covering_periodic_unit d); apply write_at_3_bits; reflexivity.
Qed.

Lemma timer3_of_tag_field (u : timer3_unit) (m : Z) :
  timer3_of_tag (tag_of (timer3_tag u +:+ uint_to_binary_str m 5)) = Some u.
Proof. destruct u; reflexivity. Qed.

Lemma periodic_unit_covering (d : Z) :
  0 <= d -> periodic_unit d = Some (covering_periodic_unit d).
Proof.
  intros Hd. unfold periodic_unit. rewrite periodic_select_covering by assumption.
  destruct (covering_periodic_unit d); reflexivity.
Qed.

Lemma magnitude_of_field3 (u : timer3_unit) (m : Z) :
  0 <= m <= 31 ->
  magnitude_of (timer3_tag u +:+ uint_to_binary_str m 5) = m.
Proof.
  intros Hm. unfold magnitude_of.
  replace (substring 3 5 (timer3_tag u +:+ uint_to_binary_str m 5))
    with (uint_to_binary_str m 5) by (destruct u; reflexivity).
  rewrite binary_value_bits. apply Z.mod_small. simpl. lia.
Qed.

Lemma lor_tag_1min (q : Z) : 0 <= q <= 31 -> Z.lor (Z.shiftl 1 5) q = 32 + q.
Proof.
  intros Hq. change (Z.shiftl 1 5) with 32.
  assert (Hland : Z.land 32 q = 0).
  { apply Z.bits_inj'. intros i Hi. rewrite Z.land_spec, Z.bits_0.
    destruct (Z.eq_dec i 5) as [->|Hne].
    - replace q with (q mod 2 ^ 5) by (apply Z.mod_small; simpl; lia).
      rewrite Z.mod_pow2_bits_high by lia. apply andb_false_r.
    - change 32 with (2 ^ 5). rewrite Z.pow2_bits_eqb by lia.
      destruct (Z.eqb_spec 5 i); [lia | reflexivity]. }
  pose proof (Z.add_lor_land 32 q). lia.
Qed.

Lemma bits_of_uint32 (x : Z) :
  uint_to_binary_str (C.to_uint32 x) 5 = uint_to_binary_str x 5.
Proof.
  apply uint_to_binary_str_low_bits. unfold C.to_uint32.
  change (2 ^ 32) with (2 ^ Z.of_nat 5 * 2 ^ 27).
  rewrite Z.rem_mul_r by (simpl; lia).
  rewrite (Z.mul_comm (2 ^ Z.of_nat 5)), Z.mod_add by (simpl; lia).
  apply Z.mod_mod. simpl; lia.
Qed.

Lemma active_select_covering (d : Z) :
  0 <= d ->
  active_select d
  = (active_timer_value d (covering_active_unit d),
     timer2_tag (covering_active_unit d) +:+ "00000").
Proof.
  intros Hd. unfold active_select, covering_active_unit, ie_value_max.
  cbn [List.find timer2_seconds].
  change (2 * 31) with 62. change (31 * 2) with 62.
  change (60 * 31) with 1860. change (31 * 60) with 1860.
  case_leb.
  { cbn [default from_option id active_timer_value active_magnitude timer2_tag timer2_seconds].
    small_quotient. rewrite to_uint32_small by lia. reflexivity. }
  case_leb.
  { cbn [default from_option id active_timer_value active_magnitude timer2_tag timer2_seconds].
    small_quotient. rewrite lor_tag_1min by lia.
    rewrite to_uint32_small by lia. reflexivity. }
  cbn [default from_option id active_timer_value active_magnitude timer2_tag timer2_seconds].
  rewrite c_div_nonneg by lia.
  assert (0 <= d / (6 * 60)) by (apply Z.div_pos; lia).
  case_leb; rewrite to_uint32_small by lia; f_equal; lia.
Qed.

Lemma active_magnitude_range (d : Z) :
  0 <= d -> 0 <= active_magnitude d (covering_active_unit d) <= 31.
Proof.
  intros Hd. unfold covering_active_unit.
  cbn [List.find timer2_seconds].
  repeat (case_leb;
          [cbn [default from_option id active_magnitude timer2_seconds]; split;
           [apply Z.div_pos; lia | apply Z.div_le_upper_bound; lia]|]).
  cbn [default from_option id active_magnitude timer2_seconds].
  assert (0 <= d / (6 * 60)) by (apply Z.div_pos; lia). lia.
Qed.

Lemma active_timer_value_bits (d : Z) :
  0 <= d ->
  uint_to_binary_str (active_timer_value d (covering_active_unit d)) 5
  = uint_to_binary_str (active_magnitude d (covering_active_unit d)) 5.
Proof.
  intros Hd. pose proof (active_magnitude_range d Hd) as Hm.
  destruct (covering_active_unit d); cbn [active_timer_value] in *; try reflexivity.
  apply uint_to_binary_str_low_bits.
  rewrite lor_tag_1min by assumption.
  change (2 ^ Z.of_nat 5) with 32.
  rewrite <- (Z.mul_1_l 32) at 1. rewrite Z.add_comm, Z.mod_add by lia. reflexivity.
Qed.

Lemma at_field (d : Z) :
  0 <= d ->
  at_ d = timer2_tag (covering_active_unit d)
          +:+ uint_to_binary_str (active_magnitude d (covering_active_unit d)) 5.
Proof.
  intros Hd. unfold at_. rewrite active_select_covering by assumption.
  rewrite <- active_timer_value_bits by assumption.
  destruct (covering_active_unit d); apply write_at_3_bits; reflexivity.
Qed.

Lemma active_unit_covering (d : Z) :
  0 <= d -> active_unit d = Some (covering_active_unit d).
Proof.
  intros Hd. unfold active_unit. rewrite active_select_covering by assumption.
  destruct (covering_active_unit d); reflexivity.
Qed.

Lemma magnitude_of_field2 (u : timer2_unit) (m : Z) :
  0 <= m <= 31 ->
  magnitude_of (timer2_tag u +:+ uint_to_binary_str m 5) = m.
Proof.
  intros Hm. unfold magnitude_of.
  replace (substring 3 5 (timer2_tag u +:+ uint_to_binary_str m 5))
    with (uint_to_binary_str m 5) by (destruct u; reflexivity).
  rewrite binary_value_bits. apply Z.mod_small. simpl. lia.
Qed.

(** The fields are eight characters '0'/'1' for every [int] argument. *)
Lemma field_shape (c0 c1 c2 : ascii) (v : Z) :
  let field := String c0 (String c1 (String c2 (uint_to_binary_str v 5))) in
  String.length field = 8%nat
  /\ is_binary_str field
     = is_binary_str (String c0 (String c1 (String c2 EmptyString))).
Proof.
  split; [reflexivity|].
  cbn [is_binary_str]. rewrite uint_to_binary_str_binary.
  now rewrite !andb_true_r.
Qed.

End Encoding.


(** ** [set_power_save_mode] *)

(** Runs an operation on an engine state given by its four fields. *)
Ltac run_engine :=
  cbv beta iota zeta delta
    [set_power_save_mode get_sim_state set_pin is_ready
     ATHandler.lock ATHandler.unlock ATHandler.flush ATHandler.cmd_start
     ATHandler.write_int ATHandler.write_string ATHandler.cmd_stop
     ATHandler.cmd_stop_read_resp ATHandler.resp_start ATHandler.resp_stop
     ATHandler.get_last_error ATHandler.unlock_return_error
     ATHandler.clear_error ATHandler.read_string
     ATHandler.tr_info ATHandler.tr_warn ATHandler.tr_error
     ATHandler.trace ATHandler.issue ATHandler.record_only ATHandler.after
     fold_left mbind mret ATHandler.M_bind ATHandler.M_ret
     enable_exchange disable_exchange sim_query_exchange sim_query_read
     pin_exchange
     fst snd ATHandler.modem ATHandler.calls ATHandler.last_error
     ATHandler.trace_out].

Section PowerSave.

Import ATHandler.

Lemma set_power_save_mode_disable (w : io) :
  calls (snd (set_power_save_mode 0 0 w))
  = calls w ++ disable_exchange ++ [UnlockReturnError].
Proof.
  destruct w as [m cs e tr]. unfold set_power_save_mode.
  change ((0 =? 0) && (0 =? 0)) with true.
  run_engine. rewrite <- !app_assoc. reflexivity.
Qed.

Lemma set_power_save_mode_not_both_zero (periodic_time active_time : Z) (w : io) :
  periodic_time <> 0 \/ active_time <> 0 ->
  let exchange := enable_exchange (PSM.pt periodic_time) (PSM.at_ active_time) in
  let result := last_error (after exchange w) in
  let out := set_power_save_mode periodic_time active_time w in
  fst out = result
  /\ calls (snd out) = calls w ++ exchange ++ [GetLastError; UnlockReturnError]
  /\ last_error (snd out) = result
  /\ trace_out (snd out)
     = trace_out w ++ (if result =? NSAPI_ERROR_OK then []
                       else [tr_warn_msg "Power save mode not enabled!"]).
Proof.
  intros Hnz exchange result out.
  assert (Hcond : (periodic_time =? 0) && (active_time =? 0) = false).
  { apply andb_false_iff. rewrite !Z.eqb_neq. exact Hnz. }
  subst out result exchange. destruct w as [m cs e tr].
  unfold set_power_save_mode. rewrite Hcond.
  run_engine.
  match goal with
  | |- context [ ?x =? NSAPI_ERROR_OK ] => destruct (x =? NSAPI_ERROR_OK)
  end;
    cbn [negb fst snd modem calls last_error trace_out];
    rewrite <- ?app_assoc, ?app_nil_r; cbn [app]; auto.
Qed.

Lemma binary_value_field3 (u : PSM.timer3_unit) (m : Z) :
  0 <= m <= 31 ->
  binary_value (PSM.timer3_tag u +:+ uint_to_binary_str m 5)
  = 32 * binary_value (PSM.timer3_tag u) + m.
Proof.
  intros Hm. unfold binary_value.
  destruct u; cbn [PSM.timer3_tag]; rewrite !append_String, append_Empty;
    cbn [binary_value_from Ascii.eqb Bool.eqb andb];
    rewrite binary_value_from_bits; change (2 ^ Z.of_nat 5) with 32;
    rewrite Z.mod_small by lia; lia.
Qed.

Lemma binary_value_field2 (u : PSM.timer2_unit) (m : Z) :
  0 <= m <= 31 ->
  binary_value (PSM.timer2_tag u +:+ uint_to_binary_str m 5)
  = 32 * binary_value (PSM.timer2_tag u) + m.
Proof.
  intros Hm. unfold binary_value.
  destruct u; cbn [PSM.timer2_tag]; rewrite !append_String, append_Empty;
    cbn [binary_value_from Ascii.eqb Bool.eqb andb];
    rewrite binary_value_from_bits; change (2 ^ Z.of_nat 5) with 32;
    rewrite Z.mod_small by lia; lia.
Qed.

Lemma field3_shape (u : PSM.timer3_unit) (m : Z) :
  String.length (PSM.timer3_tag u +:+ uint_to_binary_str m 5) = 8%nat
  /\ is_binary_str (PSM.timer3_tag u +:+ uint_to_binary_str m 5) = true.
Proof.
  destruct u; (split; [reflexivity|]);
    cbn [PSM.timer3_tag]; rewrite !append_String, append_Empty;
    cbn [is_binary_str Ascii.eqb Bool.eqb andb orb];
    rewrite uint_to_binary_str_binary; reflexivity.
Qed.

Lemma field2_shape (u : PSM.timer2_unit) (m : Z) :
  String.length (PSM.timer2_tag u +:+ uint_to_binary_str m 5) = 8%nat
  /\ is_binary_str (PSM.timer2_tag u +:+ uint_to_binary_str m 5) = true.
Proof.
  destruct u; (split; [reflexivity|]);
    cbn [PSM.timer2_tag]; rewrite !append_String, append_Empty;
    cbn [is_binary_str Ascii.eqb Bool.eqb andb orb];
    rewrite uint_to_binary_str_binary; reflexivity.
Qed.


(** C1 (as amended).  The boundary cases of the encoding, as the code
    computes them: periodic = 0 and active = 0 issue the disable request
    only; periodic = 60 s falls in the 2-second bucket with magnitude 30
    (tag 011); periodic = 621 s falls in the 30-second bucket with
    magnitude 20 (tag 100); periodic = 1,000,000 s falls in the 10-hour
    bucket with magnitude 27 (tag 010); active = 90 s is encoded in the
    1-minute unit with the tag-combined value (1 << 5) | 1. *)
Theorem psm_boundary_cases :
  (forall w : io,
      calls (snd (set_power_save_mode 0 0 w))
      = calls w ++ disable_exchange ++ [UnlockReturnError])
  /\ (PSM.periodic_unit 60 = Some PSM.T3_2s
      /\ PSM.periodic_timer 60 = 60 / 2
      /\ PSM.pt 60 = "01111110")
  /\ (PSM.periodic_unit 621 = Some PSM.T3_30s
      /\ PSM.periodic_timer 621 = 20
      /\ PSM.pt 621 = "10010100")
  /\ (PSM.periodic_unit 1000000 = Some PSM.T3_10h
      /\ PSM.periodic_timer 1000000 = 27
      /\ PSM.pt 1000000 = "01011011")
  /\ (PSM.active_unit 90 = Some PSM.T2_1min
      /\ PSM.active_timer 90 = Z.lor (Z.shiftl 1 5) 1
      /\ PSM.at_ 90 = "00100001").
Proof.
  split; [exact set_power_save_mode_disable|].
  repeat split; vm_compute; reflexivity.
Qed.

(** C1, refuted as stated: periodic = 60 s is not in the 30-second
    bucket, periodic = 621 s is not in the 1-hour bucket, and
    periodic = 1,000,000 s is not in the 320-hour bucket. *)
Lemma psm_boundary_cases_as_specified_fail :
  PSM.periodic_unit 60 <> Some PSM.T3_30s
  /\ PSM.periodic_timer 60 <> 60 / 30
  /\ PSM.periodic_unit 621 <> Some PSM.T3_1h
  /\ PSM.periodic_unit 1000000 <> Some PSM.T3_320h
  /\ PSM.periodic_timer 1000000 <> 31.
Proof. repeat split; vm_compute; discriminate. Qed.

(** C2 (as amended).  For every non-negative periodic duration the
    encoding selects the first unit, in the order 2 s, 30 s, 1 min,
    10 min, 1 h, 10 h, of which 31 steps reach the duration
    (duration <= 31 * unit-seconds), and the 320 h unit when none does;
    the encoded magnitude is floor(duration / unit-seconds), at most 31,
    and it is clamped to 31 in the 320-hour bucket only. *)
Theorem periodic_timer_first_covering_unit (duration : Z) :
  0 <= duration ->
  let u := PSM.covering_periodic_unit duration in
  PSM.periodic_unit duration = Some u
  /\ PSM.periodic_timer duration = PSM.periodic_magnitude duration u
  /\ PSM.magnitude_of (PSM.pt duration) = PSM.periodic_magnitude duration u
  /\ (u <> PSM.T3_320h ->
      PSM.periodic_magnitude duration u = duration / PSM.timer3_seconds u)
  /\ (u = PSM.T3_320h ->
      PSM.periodic_magnitude duration u
      = Z.min (duration / PSM.timer3_seconds u) 31)
  /\ 0 <= PSM.periodic_magnitude duration u <= 31.
Proof.
  intros Hd u. subst u.
  pose proof (periodic_magnitude_range duration Hd) as Hrange.
  split; [now apply periodic_unit_covering|].
  split; [unfold PSM.periodic_timer; now rewrite periodic_select_covering|].
  split; [rewrite pt_field by assumption; now apply magnitude_of_field3|].
  split; [|split; [|exact Hrange]].
  - destruct (PSM.covering_periodic_unit duration); intros Hu;
      try reflexivity; now destruct Hu.
  - intros ->. reflexivity.
Qed.

Lemma periodic_timer_first_covering_unit_witness :
  0 <= 63
  /\ (let u := PSM.covering_periodic_unit 63 in
      PSM.periodic_unit 63 = Some u
      /\ PSM.periodic_timer 63 = PSM.periodic_magnitude 63 u
      /\ PSM.magnitude_of (PSM.pt 63) = PSM.periodic_magnitude 63 u
      /\ (u <> PSM.T3_320h ->
          PSM.periodic_magnitude 63 u = 63 / PSM.timer3_seconds u)
      /\ (u = PSM.T3_320h ->
          PSM.periodic_magnitude 63 u = Z.min (63 / PSM.timer3_seconds u) 31)
      /\ 0 <= PSM.periodic_magnitude 63 u <= 31).
Proof. split; [lia | apply (periodic_timer_first_covering_unit 63); lia]. Defined.

(** C2, refuted as stated: at 63 s the unit-count of the 2-second
    unit is floor(63 / 2) = 31, which does not exceed 31, so the rule of
    the claim selects the 2-second unit; the code selects the 30-second
    unit with magnitude 2. *)
Lemma periodic_timer_not_first_unit_count_fit :
  63 / PSM.timer3_seconds PSM.T3_2s <= 31
  /\ PSM.spec_periodic_unit 63 = PSM.T3_2s
  /\ PSM.periodic_unit 63 = Some PSM.T3_30s
  /\ PSM.periodic_timer 63 = 2
  /\ PSM.periodic_unit 63 <> Some (PSM.spec_periodic_unit 63).
Proof. repeat split; vm_compute; discriminate. Qed.

(** C3.  When at least one of the two (non-negative) durations is
    non-zero, [set_power_save_mode] issues the enable request
    AT+CPSMS=1 followed by the periodic field, the active field, the
    periodic field and the active field again; each field is eight
    characters '0'/'1', most significant bit first, made of the three
    bits of the unit tag followed by the five bits of the magnitude; and
    the call returns the error status the engine holds at the end of the
    exchange, whether OK or not, a failure adding only a warning to the
    trace. *)
Theorem set_power_save_mode_enable (periodic_time active_time : Z) (w : io) :
  0 <= periodic_time -> 0 <= active_time ->
  periodic_time <> 0 \/ active_time <> 0 ->
  let pu := PSM.covering_periodic_unit periodic_time in
  let au := PSM.covering_active_unit active_time in
  let pm := PSM.periodic_magnitude periodic_time pu in
  let am := PSM.active_magnitude active_time au in
  let pt := PSM.timer3_tag pu +:+ uint_to_binary_str pm 5 in
  let at_ := PSM.timer2_tag au +:+ uint_to_binary_str am 5 in
  let result := last_error (after (enable_exchange pt at_) w) in
  let out := set_power_save_mode periodic_time active_time w in
  calls (snd out)
  = calls w ++ enable_exchange pt at_ ++ [GetLastError; UnlockReturnError]
  /\ (String.length pt = 8%nat /\ is_binary_str pt = true
      /\ binary_value pt = 32 * binary_value (PSM.timer3_tag pu) + pm
      /\ 0 <= pm <= 31)
  /\ (String.length at_ = 8%nat /\ is_binary_str at_ = true
      /\ binary_value at_ = 32 * binary_value (PSM.timer2_tag au) + am
      /\ 0 <= am <= 31)
  /\ fst out = result
  /\ trace_out (snd out)
     = trace_out w ++ (if result =? NSAPI_ERROR_OK then []
                       else [tr_warn_msg "Power save mode not enabled!"]).
Proof.
  intros Hp Ha Hnz pu au pm am pt at_ result out.
  pose proof (set_power_save_mode_not_both_zero periodic_time active_time w Hnz)
    as (Hret & Hcalls & _ & Htrace).
  rewrite (pt_field periodic_time Hp), (at_field active_time Ha) in Hret, Hcalls, Htrace.
  pose proof (periodic_magnitude_range periodic_time Hp) as Hpm.
  pose proof (active_magnitude_range active_time Ha) as Ham.
  split; [exact Hcalls|].
  split; [|split; [|split; [exact Hret | exact Htrace]]].
  - destruct (field3_shape pu pm) as [Hlen Hbin].
    repeat split; try assumption; try apply Hpm.
    now apply binary_value_field3.
  - destruct (field2_shape au am) as [Hlen Hbin].
    repeat split; try assumption; try apply Ham.
    now apply binary_value_field2.
Qed.

Lemma set_power_save_mode_enable_witness :
  let w := init (Sample.modem_no_final_ok Sample.NSAPI_ERROR_DEVICE_ERROR None) in
  let out := set_power_save_mode 621 90 w in
  calls (snd out)
  = calls w ++ enable_exchange "10010100" "00100001"
      ++ [GetLastError; UnlockReturnError]
  /\ fst out = Sample.NSAPI_ERROR_DEVICE_ERROR
  /\ trace_out (snd out) = [tr_warn_msg "Power save mode not enabled!"].
Proof.
  pose proof (set_power_save_mode_enable 621 90
                (init (Sample.modem_no_final_ok Sample.NSAPI_ERROR_DEVICE_ERROR None)))
    as H.
  destruct H as (Hcalls & _ & _ & Hret & Htrace);
    [lia | lia | left; lia |].
  split; [exact Hcalls | split; [exact Hret | exact Htrace]].
Defined.

(** C10.  When the two durations are not both zero, in particular when
    exactly one of them is zero, [set_power_save_mode] does not send the
    disable request: it sends the enable request, in which a zero
    duration is encoded in the 2-second unit with magnitude 0 (active
    field 00000000, periodic field 01100000). *)
Theorem set_power_save_mode_one_zero (periodic_time active_time : Z) (w : io) :
  periodic_time <> 0 \/ active_time <> 0 ->
  let out := set_power_save_mode periodic_time active_time w in
  calls (snd out)
  = calls w ++ enable_exchange (PSM.pt periodic_time) (PSM.at_ active_time)
      ++ [GetLastError; UnlockReturnError]
  /\ calls (snd out) <> calls w ++ disable_exchange ++ [UnlockReturnError]
  /\ (active_time = 0 ->
      PSM.at_ active_time = "00000000"
      /\ PSM.active_unit active_time = Some PSM.T2_2s
      /\ PSM.magnitude_of (PSM.at_ active_time) = 0)
  /\ (periodic_time = 0 ->
      PSM.pt periodic_time = "01100000"
      /\ PSM.periodic_unit periodic_time = Some PSM.T3_2s
      /\ PSM.magnitude_of (PSM.pt periodic_time) = 0).
Proof.
  intros Hnz out.
  pose proof (set_power_save_mode_not_both_zero periodic_time active_time w Hnz)
    as (_ & Hcalls & _).
  split; [exact Hcalls|]. split.
  - fold out in Hcalls. rewrite Hcalls. intros Heq.
    apply app_inv_head in Heq. discriminate Heq.
  - split; intros ->; repeat split; reflexivity.
Qed.

Lemma set_power_save_mode_one_zero_witness :
  let w := init (Sample.modem_ok None) in
  (calls (snd (set_power_save_mode 3600 0 w))
   = enable_exchange "00000110" "00000000" ++ [GetLastError; UnlockReturnError])
  /\ (calls (snd (set_power_save_mode 0 20 w))
      = enable_exchange "01100000" "00001010" ++ [GetLastError; UnlockReturnError]).
Proof.
  split.
  - destruct (set_power_save_mode_one_zero 3600 0 (init (Sample.modem_ok None)))
      as (Hcalls & _); [left; lia | exact Hcalls].
  - destruct (set_power_save_mode_one_zero 0 20 (init (Sample.modem_ok None)))
      as (Hcalls & _); [right; lia | exact Hcalls].
Defined.

End PowerSave.

(** ** [get_sim_state] and [set_pin] *)

Section Sim.

Import ATHandler.

Lemma byte_at_head_eqb (c d : ascii) (s t : string) :
  (byte_at_head (String c s) =? byte_at_head (String d t)) = Ascii.eqb c d.
Proof.
  cbn [byte_at_head]. destruct (Ascii.eqb_spec c d) as [->|Hne].
  - apply Z.eqb_refl.
  - apply Z.eqb_neq. intros Heq. apply Hne.
    apply Nat2Z.inj in Heq.
    rewrite <- (ascii_nat_embedding c), <- (ascii_nat_embedding d). now f_equal.
Qed.

Lemma substring_0_0 (s : string) : substring 0 0 s = EmptyString.
Proof. destruct s; reflexivity. Qed.

Lemma memcmp_guard (lit s : string) :
  (Z.of_nat (String.length s) >=? Z.of_nat (String.length lit))
  && (memcmp s lit (String.length lit) =? 0)
  = bool_decide (substring 0 (String.length lit) s = lit).
Proof.
  revert s. induction lit as [|d lit IH]; intros s.
  - cbn [String.length memcmp]. rewrite substring_0_0.
    rewrite Z.geb_leb. destruct (Z.leb_spec (Z.of_nat 0) (Z.of_nat (String.length s))); [reflexivity | lia].
  - destruct s as [|c s].
    + cbn [String.length substring]. rewrite Z.geb_leb.
      destruct (Z.leb_spec (Z.of_nat (S (String.length lit))) (Z.of_nat 0)); [lia|].
      symmetry. apply bool_decide_eq_false. discriminate.
    + cbn [String.length substring memcmp string_tail].
      rewrite byte_at_head_eqb.
      destruct (Ascii.eqb_spec c d) as [->|Hne].
      * specialize (IH s). rewrite !Z.geb_leb in *.
        replace (Z.of_nat (S (String.length lit)) <=? Z.of_nat (S (String.length s)))
          with (Z.of_nat (String.length lit) <=? Z.of_nat (String.length s))
          by (destruct (Z.leb_spec (Z.of_nat (String.length lit)) (Z.of_nat (String.length s)));
              destruct (Z.leb_spec (Z.of_nat (S (String.length lit))) (Z.of_nat (S (String.length s)))); lia).
        rewrite IH. apply bool_decide_ext. split; congruence.
      * replace ((byte_at_head (String c s) - byte_at_head (String d lit)) =? 0) with false.
        { rewrite andb_false_r. symmetry. apply bool_decide_eq_false. congruence. }
        symmetry. apply Z.eqb_neq. intros Heq.
        assert (Hz : (byte_at_head (String c s) =? byte_at_head (String d lit)) = true)
          by (apply Z.eqb_eq; lia).
        rewrite byte_at_head_eqb in Hz. apply Ascii.eqb_eq in Hz. contradiction.
Qed.

Lemma substring_prefix_of_prefix (n m : nat) (s : string) :
  (n <= m)%nat -> substring 0 n (substring 0 m s) = substring 0 n s.
Proof.
  revert n m. induction s as [|c s IH]; intros n m Hle.
  - destruct n, m; reflexivity.
  - destruct n as [|n]; [now rewrite !substring_0_0|].
    destruct m as [|m]; [lia|].
    cbn [substring]. f_equal. apply IH. lia.
Qed.

Lemma guard_READY (s : string) :
  (Z.of_nat (String.length s) >=? 5) && (memcmp s "READY" 5 =? 0)
  = bool_decide (substring 0 5 s = "READY").
Proof. exact (memcmp_guard "READY" s). Qed.

Lemma guard_SIM_PIN (s : string) :
  (Z.of_nat (String.length s) >=? 7) && (memcmp s "SIM PIN" 7 =? 0)
  = bool_decide (substring 0 7 s = "SIM PIN").
Proof. exact (memcmp_guard "SIM PIN" s). Qed.

Lemma guard_SIM_PUK (s : string) :
  (Z.of_nat (String.length s) >=? 7) && (memcmp s "SIM PUK" 7 =? 0)
  = bool_decide (substring 0 7 s = "SIM PUK").
Proof. exact (memcmp_guard "SIM PUK" s). Qed.

(** One run of the query: the state decided, the code returned and
    the operations issued. *)
Lemma get_sim_state_run (trace_enable : bool) (w : io) :
  let reply := reply_to (modem w) (calls w ++ sim_query_read) in
  let out := get_sim_state trace_enable w in
  snd (fst out) = spec_sim_state reply
  /\ fst (fst out) = last_error (after sim_query_exchange w)
  /\ calls (snd out)
     = calls w ++ sim_query_exchange ++ [GetLastError; Unlock].
Proof.
  destruct w as [m cs e tr]. intros reply out. subst reply out.
  run_engine. rewrite <- !app_assoc. cbn [app].
  change (Z.to_nat (MAX_SIM_RESPONSE_LENGTH - 1)) with 15%nat.
  destruct (reply_to m _) as [token|].
  - cbv beta iota zeta.
    set (simstr := substring 0 15 token).
    replace (Z.of_nat (String.length simstr) =? -1) with false
      by (symmetry; apply Z.eqb_neq; lia).
    cbn [negb].
    rewrite guard_READY, guard_SIM_PIN, guard_SIM_PUK.
    subst simstr. rewrite !substring_prefix_of_prefix by lia.
    unfold spec_sim_state.
    repeat case_bool_decide; destruct trace_enable; run_engine;
      rewrite <- ?app_assoc; cbn [app]; auto.
  - change (-1 =? -1) with true. cbn [negb].
    destruct trace_enable; run_engine; rewrite <- ?app_assoc; cbn [app]; auto.
Qed.

(** What [set_pin] does once the query has run. *)
Lemma set_pin_after_query (trace_enable : bool) (sim_pin : option string) (w : io) :
  let query := get_sim_state trace_enable w in
  let error := fst (fst query) in
  let state := snd (fst query) in
  let w1 := snd query in
  let out := set_pin trace_enable sim_pin w in
  if (error =? NSAPI_ERROR_OK) && bool_decide (state = SimStateReady) then
    out = (NSAPI_ERROR_OK, w1)
  else
    match sim_pin with
    | None => out = (NSAPI_ERROR_PARAMETER, w1)
    | Some pin =>
        fst out = last_error (after (pin_exchange pin) w1)
        /\ calls (snd out) = calls w1 ++ pin_exchange pin ++ [UnlockReturnError]
    end.
Proof.
  intros query error state w1 out. subst out error state w1.
  unfold set_pin. cbv beta iota zeta delta [mbind M_bind].
  destruct (get_sim_state trace_enable w) as [[error state] w1] eqn:Hq.
  subst query. cbn [fst snd].
  destruct ((error =? NSAPI_ERROR_OK) && bool_decide (state = SimStateReady)).
  - reflexivity.
  - destruct sim_pin as [pin|]; [|reflexivity].
    destruct w1 as [m cs e tr]. run_engine.
    rewrite <- ?app_assoc; cbn [app]; auto.
Qed.

(** C6.  [get_sim_state] decides the state from the first token of
    the reply: a 5-character match READY gives Ready, a 7-character match
    SIM PIN gives PinNeeded, a 7-character match SIM PUK gives PukNeeded,
    any other content gives Unknown, and no reply (a read failure) gives
    Unknown; whatever the reply, the code returned is the error status
    the engine holds at the end of the exchange. *)
Theorem get_sim_state_classifies (trace_enable : bool) (w : io) :
  let reply := reply_to (modem w) (calls w ++ sim_query_read) in
  let out := get_sim_state trace_enable w in
  let state := snd (fst out) in
  (forall token : string,
      reply = Some token ->
      (substring 0 5 token = "READY" -> state = SimStateReady)
      /\ (substring 0 7 token = "SIM PIN" -> state = SimStatePinNeeded)
      /\ (substring 0 7 token = "SIM PUK" -> state = SimStatePukNeeded)
      /\ (substring 0 5 token <> "READY" ->
          substring 0 7 token <> "SIM PIN" ->
          substring 0 7 token <> "SIM PUK" -> state = SimStateUnknown))
  /\ (reply = None -> state = SimStateUnknown)
  /\ state = spec_sim_state reply
  /\ fst (fst out) = last_error (after sim_query_exchange w)
  /\ calls (snd out) = calls w ++ sim_query_exchange ++ [GetLastError; Unlock].
Proof.
  intros reply out state.
  destruct (get_sim_state_run trace_enable w) as (Hstate & Herror & Hcalls).
  fold reply out in Hstate, Herror, Hcalls. fold state in Hstate.
  split; [|split; [|split; [exact Hstate | split; [exact Herror | exact Hcalls]]]].
  - intros token Hreply. rewrite Hstate, Hreply. unfold spec_sim_state.
    repeat split.
    + intros Hready. now rewrite bool_decide_eq_true_2.
    + intros Hpin.
      rewrite bool_decide_eq_false_2, bool_decide_eq_true_2; [reflexivity | exact Hpin |].
      intros Hready. destruct token as [|c0 [|c1 [|c2 [|c3 [|c4 ?]]]]]; try discriminate.
      cbn in Hready, Hpin. congruence.
    + intros Hpuk.
      rewrite bool_decide_eq_false_2, bool_decide_eq_false_2, bool_decide_eq_true_2;
        [reflexivity | exact Hpuk | |].
      * intros Hpin. congruence.
      * intros Hready. destruct token as [|c0 [|c1 [|c2 [|c3 [|c4 ?]]]]]; try discriminate.
        cbn in Hready, Hpuk. congruence.
    + intros Hready Hpin Hpuk. now rewrite !bool_decide_eq_false_2.
  - intros Hreply. now rewrite Hstate, Hreply.
Qed.

Lemma get_sim_state_classifies_witness :
  snd (fst (get_sim_state false (init (Sample.modem_ok (Some "SIM PIN")))))
  = SimStatePinNeeded
  /\ snd (fst (get_sim_state false (init (Sample.modem_ok (Some "READY")))))
     = SimStateReady
  /\ snd (fst (get_sim_state false (init (Sample.modem_ok None)))) = SimStateUnknown.
Proof.
  split; [|split].
  - destruct (get_sim_state_classifies false (init (Sample.modem_ok (Some "SIM PIN"))))
      as (Htoken & _).
    destruct (Htoken "SIM PIN" eq_refl) as (_ & Hpin & _). exact (Hpin eq_refl).
  - destruct (get_sim_state_classifies false (init (Sample.modem_ok (Some "READY"))))
      as (Htoken & _).
    destruct (Htoken "READY" eq_refl) as (Hready & _). exact (Hready eq_refl).
  - destruct (get_sim_state_classifies false (init (Sample.modem_ok None)))
      as (_ & Hnone & _).
    exact (Hnone eq_refl).
Defined.

(** C7 (as amended).  [set_pin] first performs the SIM-state query;
    if the query returns OK and the state is Ready, the call returns
    success at once and issues nothing more; otherwise (the state is not
    Ready, or the query failed) a non-null PIN is required, a null PIN
    being a parameter error, and when a PIN is supplied, an empty one
    included, AT+CPIN= is sent and the error status of that exchange is
    returned. *)
Theorem set_pin_steps (trace_enable : bool) (sim_pin : option string) (w : io) :
  let query := get_sim_state trace_enable w in
  let error := fst (fst query) in
  let state := snd (fst query) in
  let w1 := snd query in
  let out := set_pin trace_enable sim_pin w in
  calls w1 = calls w ++ sim_query_exchange ++ [GetLastError; Unlock]
  /\ if (error =? NSAPI_ERROR_OK) && bool_decide (state = SimStateReady) then
       out = (NSAPI_ERROR_OK, w1)
     else
       match sim_pin with
       | None => out = (NSAPI_ERROR_PARAMETER, w1)
       | Some pin =>
           fst out = last_error (after (pin_exchange pin) w1)
           /\ calls (snd out)
              = calls w1 ++ pin_exchange pin ++ [UnlockReturnError]
       end.
Proof.
  intros query error state w1 out. split.
  - apply (get_sim_state_run trace_enable w).
  - exact (set_pin_after_query trace_enable sim_pin w).
Qed.

(** C7, refuted as stated: the modem answers READY but the final
    result code never comes, so that the query returns an error with the
    state Ready; [set_pin] then does not return success: without a PIN
    it returns the parameter error, and with a PIN it sends AT+CPIN=. *)
Lemma set_pin_ready_after_failed_query :
  let w := init (Sample.modem_no_final_ok Sample.NSAPI_ERROR_DEVICE_ERROR
                   (Some "READY")) in
  fst (get_sim_state false w) = (Sample.NSAPI_ERROR_DEVICE_ERROR, SimStateReady)
  /\ fst (set_pin false None w) = NSAPI_ERROR_PARAMETER
  /\ fst (set_pin false None w) <> NSAPI_ERROR_OK
  /\ fst (set_pin false (Some "1234") w) <> NSAPI_ERROR_OK
  /\ calls (snd (set_pin false (Some "1234") w))
     = sim_query_exchange ++ [GetLastError; Unlock]
       ++ pin_exchange "1234" ++ [UnlockReturnError].
Proof. repeat split; vm_compute; (reflexivity || discriminate). Qed.

(** C8 (as amended).  [set_pin] called with a null PIN issues the
    SIM-state query exchange AT+CPIN? on the transport and nothing else
    (no PIN-set command); the parameter error is returned after that
    exchange, unless the query returned OK with the state Ready, in which
    case the call returns success. *)
Theorem set_pin_null_pin (trace_enable : bool) (w : io) :
  let query := get_sim_state trace_enable w in
  let out := set_pin trace_enable None w in
  calls (snd out) = calls w ++ sim_query_exchange ++ [GetLastError; Unlock]
  /\ snd out = snd query
  /\ fst out
     = if (fst (fst query) =? NSAPI_ERROR_OK)
          && bool_decide (snd (fst query) = SimStateReady)
       then NSAPI_ERROR_OK else NSAPI_ERROR_PARAMETER.
Proof.
  intros query out.
  pose proof (set_pin_after_query trace_enable None w) as Hpin.
  cbv zeta in Hpin. fold query in Hpin. fold out in Hpin.
  assert (Hout : snd out = snd query
                 /\ fst out
                    = if (fst (fst query) =? NSAPI_ERROR_OK)
                         && bool_decide (snd (fst query) = SimStateReady)
                      then NSAPI_ERROR_OK else NSAPI_ERROR_PARAMETER).
  { destruct ((fst (fst query) =? NSAPI_ERROR_OK)
              && bool_decide (snd (fst query) = SimStateReady));
      rewrite Hpin; split; reflexivity. }
  destruct Hout as [Hstate Hret].
  split; [|split; assumption].
  rewrite Hstate. apply (get_sim_state_run trace_enable w).
Qed.

(** C8, refuted as stated: with the SIM waiting for its PIN,
    [set_pin] with a null PIN returns the parameter error after the whole
    AT+CPIN? exchange has been issued on the transport. *)
Lemma set_pin_null_pin_after_query :
  let w := init (Sample.modem_ok (Some "SIM PIN")) in
  fst (set_pin false None w) = NSAPI_ERROR_PARAMETER
  /\ calls (snd (set_pin false None w))
     = [Lock; Flush; CmdStart "AT+CPIN?"; CmdStop; RespStart "+CPIN:";
        ReadString 16; RespStop; GetLastError; Unlock]
  /\ calls (snd (set_pin false None w)) <> [].
Proof. repeat split; vm_compute; (reflexivity || discriminate). Qed.

End Sim.

(** ** The handler pool *)

Ltac run_device :=
  cbv beta iota zeta delta
    [mbind mret R_bind R_ret member assign undefined_behaviour
     operator_new operator_delete load_handler store_handler
     subsystem_at_handler load_context];
  cbn [objects journal _fh _at _atHandlers _network _sms _power _information
       _network_ref_count _sms_ref_count _power_ref_count _info_ref_count
       _context_list _default_timeout _modem_debug_on
       set_memory set_at set_atHandlers set_context_list set_slot set_ref_count
       slot_of ref_count_of fst snd].

Lemma handler_at_Some (d : Device) (a : addr) (h : Handle.t) :
  handler_at d a = Some h <-> objects d !! a = Some (ObjATHandler h).
Proof.
  unfold handler_at. destruct (objects d !! a) as [[]|]; split; congruence.
Qed.

Lemma load_handler_live (d : Device) (a : addr) (h : Handle.t) :
  handler_at d a = Some h -> load_handler a d = Some (h, d).
Proof. intros H%handler_at_Some. unfold load_handler. now rewrite H. Qed.

Lemma find_at_handler_pooled (d : Device) (fileHandle : FileHandle) (l : list addr) :
  Forall (fun a => is_Some (handler_at d a)) l ->
  find_at_handler fileHandle l d = Some (pooled_for d fileHandle l, d).
Proof.
  induction 1 as [|a l [h Ha] _ IH]; [reflexivity|].
  cbn [find_at_handler pooled_for List.find]. run_device.
  apply handler_at_Some in Ha as Hobj. rewrite Hobj, Ha. cbn [fmap option_fmap option_map].
  unfold Handle.get_file_handle.
  destruct (decide (Handle.file_handle h = fileHandle)) as [<-|Hne].
  - rewrite bool_decide_eq_true_2 by reflexivity. reflexivity.
  - rewrite bool_decide_eq_false_2 by congruence. exact IH.
Qed.


Lemma pooled_for_Some (d : Device) (fileHandle : FileHandle) (l : list addr) (a : addr) :
  pooled_for d fileHandle l = Some a ->
  a ∈ l /\ exists h, handler_at d a = Some h /\ Handle.file_handle h = fileHandle.
Proof.
  unfold pooled_for. intros Hfind. apply List.find_some in Hfind as [Hin Hdec].
  apply bool_decide_eq_true_1 in Hdec. split; [now apply list_elem_of_In|].
  destruct (handler_at d a) as [h|]; [|discriminate].
  exists h. split; [reflexivity|]. now injection Hdec.
Qed.

Lemma pooled_for_None (d : Device) (fileHandle : FileHandle) (l : list addr) :
  pooled_for d fileHandle l = None <->
  forall a h, a ∈ l -> handler_at d a = Some h -> Handle.file_handle h <> fileHandle.
Proof.
  unfold pooled_for. split.
  - intros Hfind a h Hin Ha Heq.
    pose proof (List.find_none _ _ Hfind a (proj1 (list_elem_of_In _ _) Hin)) as Hdec.
    cbn beta in Hdec. rewrite Ha in Hdec. cbn in Hdec.
    apply bool_decide_eq_false_1 in Hdec. congruence.
  - intros Hnone. induction l as [|a l IH]; [reflexivity|].
    cbn [List.find]. rewrite bool_decide_eq_false_2.
    + apply IH. intros a' h Hin. apply Hnone. now right.
    + destruct (handler_at d a) as [h|] eqn:Ha; [|discriminate].
      cbn. intros [= Heq]. apply (Hnone a h); [now left | assumption | assumption].
Qed.

(** [get_at_handler] on a transport that has a handler in the pool. *)
Lemma get_at_handler_found (d : Device) (fileHandle : option FileHandle)
      (a : addr) (h : Handle.t) :
  pool_live d ->
  pooled_for d (transport_of d fileHandle) (_atHandlers d) = Some a ->
  handler_at d a = Some h ->
  get_at_handler fileHandle d
  = Some (Some a,
          set_memory (<[a := ObjATHandler (Handle.inc_ref_count h)]> (objects d))
                     (journal d) d).
Proof.
  intros Hlive Hfound Ha. unfold get_at_handler. run_device.
  fold (transport_of d fileHandle).
  rewrite (find_at_handler_pooled d _ _ Hlive), Hfound.
  apply handler_at_Some in Ha. rewrite Ha. reflexivity.
Qed.

(** [get_at_handler] on a transport that has none. *)
Lemma get_at_handler_new (d : Device) (fileHandle : option FileHandle) :
  pool_live d ->
  pooled_for d (transport_of d fileHandle) (_atHandlers d) = None ->
  let T := transport_of d fileHandle in
  let a := fresh (dom (objects d)) in
  get_at_handler fileHandle d
  = Some (Some a,
          set_atHandlers (a :: _atHandlers d)
            (set_memory (<[a := ObjATHandler (new_handler d T)]> (objects d))
               (journal d
                ++ [Constructed a (ObjATHandler (Handle.make T (_default_timeout d)))])
               d)).
Proof.
  intros Hlive Hnone T a. subst T a. unfold get_at_handler. run_device.
  fold (transport_of d fileHandle).
  rewrite (find_at_handler_pooled d _ _ Hlive), Hnone.
  unfold new_handler. destruct (_modem_debug_on d) eqn:Hdebug; run_device.
  - rewrite lookup_insert_eq. run_device. rewrite insert_insert_eq. reflexivity.
  - reflexivity.
Qed.

Lemma unlink_at_handler_absent (d : Device) (a : addr) (l : list addr) :
  Forall (fun x => is_Some (handler_at d x)) l ->
  a ∉ l ->
  unlink_at_handler a l d = Some (l, d).
Proof.
  induction 1 as [|x l [h Hx] _ IH]; intros Hnotin; [reflexivity|].
  cbn [unlink_at_handler]. run_device.
  apply handler_at_Some in Hx. rewrite Hx.
  rewrite decide_False by (intros ->; apply Hnotin; now left).
  rewrite IH by (intros Hin; apply Hnotin; now right). reflexivity.
Qed.

Lemma unlink_at_handler_present (d : Device) (a : addr) (l : list addr) (o : object) :
  Forall (fun x => is_Some (handler_at d x)) l ->
  a ∈ l ->
  objects d !! a = Some o ->
  unlink_at_handler a l d
  = Some (remove_first a l,
          set_memory (delete a (objects d)) (journal d ++ [Destroyed a o]) d).
Proof.
  induction 1 as [|x l [h Hx] _ IH]; intros Hin Ho; [now apply not_elem_of_nil in Hin|].
  cbn [unlink_at_handler remove_first]. run_device.
  apply handler_at_Some in Hx. rewrite Hx.
  destruct (decide (x = a)) as [->|Hne].
  - rewrite Ho. reflexivity.
  - apply elem_of_cons in Hin as [->|Hin]; [congruence|].
    rewrite (IH Hin Ho). reflexivity.
Qed.

Lemma handler_at_insert (d : Device) (a x : addr) (h : Handle.t) (j : list heap_event) :
  handler_at (set_memory (<[a := ObjATHandler h]> (objects d)) j d) x
  = if decide (a = x) then Some h else handler_at d x.
Proof.
  unfold handler_at. cbn [objects set_memory].
  rewrite lookup_insert. now destruct (decide (a = x)).
Qed.

(** Releasing a handler that stays referenced only lowers its count. *)
Lemma release_at_handler_shared (d : Device) (a : addr) (h : Handle.t) :
  handler_at d a = Some h ->
  Handle.ref_count h <> 1 ->
  release_at_handler (Some a) d
  = Some (tt, set_memory (<[a := ObjATHandler (Handle.dec_ref_count h)]> (objects d))
                         (journal d) d).
Proof.
  intros Ha Hcount. unfold release_at_handler. run_device.
  apply handler_at_Some in Ha. rewrite Ha. run_device.
  rewrite lookup_insert_eq. run_device.
  unfold Handle.get_ref_count, Handle.dec_ref_count. cbn [Handle.ref_count].
  destruct (Z.eqb_spec (Handle.ref_count h - 1) 0); [lia | reflexivity].
Qed.

(** Releasing the last reference unlinks the handler and deletes it. *)
Lemma release_at_handler_last (d : Device) (a : addr) (h : Handle.t) :
  pool_live d ->
  a ∈ _atHandlers d ->
  handler_at d a = Some h ->
  Handle.ref_count h = 1 ->
  release_at_handler (Some a) d
  = Some (tt,
          set_atHandlers (remove_first a (_atHandlers d))
            (set_memory (delete a (objects d))
               (journal d ++ [Destroyed a (ObjATHandler (Handle.dec_ref_count h))])
               d)).
Proof.
  intros Hlive Hin Ha Hcount. unfold release_at_handler. run_device.
  apply handler_at_Some in Ha as Hobj. rewrite Hobj. run_device.
  rewrite lookup_insert_eq. run_device.
  unfold Handle.get_ref_count, Handle.dec_ref_count at 1. cbn [Handle.ref_count].
  destruct (Z.eqb_spec (Handle.ref_count h - 1) 0); [|lia].
  run_device.
  rewrite (unlink_at_handler_present _ a (_atHandlers d)
             (ObjATHandler (Handle.dec_ref_count h))).
  - run_device. rewrite delete_insert_eq. reflexivity.
  - eapply Forall_impl; [exact Hlive|]. intros x [hx Hx].
    rewrite handler_at_insert. destruct (decide (a = x)); eauto.
  - exact Hin.
  - cbn [objects set_memory]. apply lookup_insert_eq.
Qed.


(** ** Acquiring and releasing a handler [n] times *)

Section AcquireRelease.

Variable d : Device.
Variable fileHandle : option FileHandle.

Local Abbreviation T := (transport_of d fileHandle).
Local Abbreviation a := (fresh (dom (objects d))).

Hypothesis Hlive : pool_live d.
Hypothesis Hnone : pooled_for d T (_atHandlers d) = None.

Lemma fresh_not_live : objects d !! a = None.
Proof. apply not_elem_of_dom. apply is_fresh. Qed.

Lemma held_handler (count : Z) :
  handler_at (held d T a count) a
  = Some {| Handle.file_handle := T; Handle.ref_count := count;
            Handle.at_timeout := _default_timeout d;
            Handle.debug := _modem_debug_on d |}.
Proof. unfold held, handler_at. cbn. now rewrite lookup_insert_eq. Qed.

Lemma held_handler_other (count : Z) (x : addr) :
  x <> a -> handler_at (held d T a count) x = handler_at d x.
Proof.
  intros Hne. unfold held, handler_at. cbn. now rewrite lookup_insert_ne.
Qed.

Lemma held_pool_live (count : Z) : pool_live (held d T a count).
Proof.
  unfold pool_live. cbn [held _atHandlers set_atHandlers].
  constructor; [rewrite held_handler; eauto|].
  eapply Forall_impl; [exact Hlive|]. intros x [hx Hx].
  destruct (decide (x = a)) as [->|Hne]; [rewrite held_handler; eauto|].
  rewrite held_handler_other by assumption. eauto.
Qed.

Lemma held_pooled (count : Z) :
  pooled_for (held d T a count) T (_atHandlers (held d T a count)) = Some a.
Proof.
  unfold pooled_for. cbn [held _atHandlers set_atHandlers List.find].
  fold (held d T a count). rewrite held_handler. cbn.
  now rewrite bool_decide_eq_true_2.
Qed.

Lemma get_at_handler_first :
  get_at_handler fileHandle d = Some (Some a, held d T a 1).
Proof.
  rewrite (get_at_handler_new d fileHandle Hlive Hnone).
  unfold held, new_handler, Handle.set_debug, Handle.make. reflexivity.
Qed.

Lemma get_at_handler_again (count : Z) :
  get_at_handler fileHandle (held d T a count)
  = Some (Some a, held d T a (count + 1)).
Proof.
  rewrite (get_at_handler_found (held d T a count) fileHandle a _
             (held_pool_live count) (held_pooled count) (held_handler count)).
  unfold held, Handle.inc_ref_count. cbn.
  rewrite insert_insert_eq. reflexivity.
Qed.

Lemma acquire_n_held (n : nat) (count : Z) :
  acquire_n n fileHandle (held d T a count)
  = Some (replicate n (Some a), held d T a (count + Z.of_nat n)).
Proof.
  revert count. induction n as [|n IH]; intros count.
  - cbn. now rewrite Z.add_0_r.
  - cbn [acquire_n replicate]. run_device.
    rewrite get_at_handler_again, IH.
    do 3 f_equal. lia.
Qed.

Lemma acquire_n_first (n : nat) :
  acquire_n (S n) fileHandle d
  = Some (replicate (S n) (Some a), held d T a (Z.of_nat (S n))).
Proof.
  cbn [acquire_n replicate]. run_device.
  rewrite get_at_handler_first, acquire_n_held.
  do 3 f_equal. lia.
Qed.

Lemma release_held_shared (count : Z) :
  count <> 1 ->
  release_at_handler (Some a) (held d T a count)
  = Some (tt, held d T a (count - 1)).
Proof.
  intros Hcount.
  rewrite (release_at_handler_shared _ a _ (held_handler count)) by exact Hcount.
  unfold held, Handle.dec_ref_count. cbn.
  rewrite insert_insert_eq. reflexivity.
Qed.

Lemma release_held_last :
  release_at_handler (Some a) (held d T a 1) = Some (tt, released d T a).
Proof.
  assert (Hin : a ∈ _atHandlers (held d T a 1)) by (cbn; now left).
  rewrite (release_at_handler_last (held d T a 1) a _ (held_pool_live 1) Hin
             (held_handler 1) eq_refl).
  unfold held, released, Handle.dec_ref_count. cbn.
  rewrite decide_True by reflexivity.
  rewrite delete_insert_id by exact fresh_not_live.
  rewrite <- app_assoc. reflexivity.
Qed.

Lemma release_each_held (n : nat) (count : Z) :
  1 <= count ->
  release_each (replicate n (Some a)) (held d T a (count + Z.of_nat n))
  = Some (tt, held d T a count).
Proof.
  intros Hcount. induction n as [|n IH].
  - cbn. now rewrite Z.add_0_r.
  - cbn [release_each replicate]. run_device.
    rewrite release_held_shared by lia.
    replace (count + Z.of_nat (S n) - 1) with (count + Z.of_nat n) by lia.
    now rewrite IH.
Qed.

Lemma release_each_all (n : nat) :
  release_each (replicate (S n) (Some a)) (held d T a (Z.of_nat (S n)))
  = Some (tt, released d T a).
Proof.
  replace (S n) with (n + 1)%nat at 1 by lia.
  rewrite replicate_add. 
  assert (Hsplit : forall l1 l2 s,
             release_each (l1 ++ l2) s
             = match release_each l1 s with
               | Some (_, s') => release_each l2 s'
               | None => None
               end).
  { induction l1 as [|x l1 IHl]; intros l2 s; [reflexivity|].
    cbn [release_each app]. run_device.
    destruct (release_at_handler x s) as [[[] s']|]; [apply IHl | reflexivity]. }
  rewrite Hsplit.
  replace (Z.of_nat (S n)) with (1 + Z.of_nat n) by lia.
  rewrite release_each_held by lia.
  cbn [release_each replicate]. run_device.
  now rewrite release_held_last.
Qed.

Hypothesis Hok : device_ok d.

Lemma no_handler_for_transport (x : addr) (h : Handle.t) :
  handler_at d x = Some h -> Handle.file_handle h <> T.
Proof.
  intros Hx. destruct Hok as (_ & _ & _ & _ & _ & _ & Howned & _).
  apply handler_at_Some in Hx as Hobj.
  pose proof (Howned x _ Hobj) as Hin. cbn in Hin.
  exact (proj1 (pooled_for_None d T (_atHandlers d)) Hnone x h Hin Hx).
Qed.

Lemma at_most_one_before : at_most_one_handler d T.
Proof.
  intros a1 a2 h1 h2 H1 _ Hfh _. now apply no_handler_for_transport in H1.
Qed.

Lemma at_most_one_held (count : Z) : at_most_one_handler (held d T a count) T.
Proof.
  intros a1 a2 h1 h2 H1 H2 Hfh1 Hfh2.
  destruct (decide (a1 = a)) as [->|Hne1], (decide (a2 = a)) as [->|Hne2];
    try reflexivity.
  - rewrite held_handler_other in H2 by assumption.
    now apply no_handler_for_transport in H2.
  - rewrite held_handler_other in H1 by assumption.
    now apply no_handler_for_transport in H1.
  - rewrite held_handler_other in H1 by assumption.
    now apply no_handler_for_transport in H1.
Qed.

Lemma at_most_one_released : at_most_one_handler (released d T a) T.
Proof. exact at_most_one_before. Qed.

End AcquireRelease.

Lemma device_ok_pool_live (d : Device) : device_ok d -> pool_live d.
Proof.
  intros (_ & Hhandlers & _). unfold pool_live.
  eapply Forall_impl; [exact Hhandlers|]. intros a Ha.
  unfold handler_ok in Ha. destruct (handler_at d a); [eauto | contradiction].
Qed.

(** C4 (as amended).  For every N >= 1 and every transport T that has
    no handler in the pool beforehand (so T is not the transport of the
    device itself, whose handler the constructor keeps), N calls of
    [get_at_handler] for T followed by N calls of [release_at_handler] on
    the handles returned leave the pool with no entry for T, the pool and
    the heap being as before; exactly one handler object is constructed
    and destroyed for T, whatever N; and at every intermediate point at
    most one handler exists for T. *)
Theorem acquire_release_n (d : Device) (fileHandle : option FileHandle) (n : nat) :
  device_ok d ->
  (1 <= n)%nat ->
  pooled_for d (transport_of d fileHandle) (_atHandlers d) = None ->
  let T := transport_of d fileHandle in
  exists (a : addr) (d1 d2 : Device) (h1 h0 : Handle.t),
    acquire_n n fileHandle d = Some (replicate n (Some a), d1)
    /\ release_each (replicate n (Some a)) d1 = Some (tt, d2)
    /\ pooled_for d2 T (_atHandlers d2) = None
    /\ _atHandlers d2 = _atHandlers d
    /\ objects d2 = objects d
    /\ journal d2
       = journal d ++ [Constructed a (ObjATHandler h1); Destroyed a (ObjATHandler h0)]
    /\ (Handle.file_handle h1 = T /\ Handle.ref_count h1 = 1)
    /\ (Handle.file_handle h0 = T /\ Handle.ref_count h0 = 0)
    /\ (forall i, (i <= n)%nat ->
          exists di, acquire_n i fileHandle d = Some (replicate i (Some a), di)
                     /\ at_most_one_handler di T)
    /\ (forall j, (j <= n)%nat ->
          exists dj, release_each (replicate j (Some a)) d1 = Some (tt, dj)
                     /\ at_most_one_handler dj T).
Proof.
  intros Hok Hn Hnone T.
  pose proof (device_ok_pool_live d Hok) as Hlive.
  destruct n as [|n]; [lia|].
  set (a := fresh (dom (objects d))).
  exists a, (held d T a (Z.of_nat (S n))), (released d T a).
  eexists _, _.
  split; [now apply acquire_n_first|].
  split; [now apply release_each_all|].
  split; [exact Hnone|].
  split; [reflexivity|]. split; [reflexivity|]. split; [reflexivity|].
  split; [split; reflexivity|]. split; [split; reflexivity|].
  split.
  - intros [|i] Hi.
    + exists d. split; [reflexivity|].
      now apply at_most_one_before.
    + exists (held d T a (Z.of_nat (S i))).
      split; [now apply acquire_n_first|].
      now apply at_most_one_held.
  - intros j Hj. destruct (decide (j = S n)) as [->|Hne].
    + exists (released d T a).
      split; [now apply release_each_all|].
      now apply at_most_one_released.
    + exists (held d T a (Z.of_nat (S n - j))). split.
      * replace (Z.of_nat (S n)) with (Z.of_nat (S n - j) + Z.of_nat j) by lia.
        apply release_each_held; (assumption || lia).
      * now apply at_most_one_held.
Qed.

(** C4, refuted as stated: on a device just constructed on transport 7,
    one [get_at_handler] for transport 7 followed by the release of the
    handle returned leaves the pool with its entry for transport 7, and no
    handler is constructed or destroyed. *)
Lemma acquire_release_default_transport :
  let d := SampleDevice.fresh_device in
  exists (d1 d2 : Device) (a : addr),
    AT_CellularDevice_new 7%positive = Some d
    /\ device_ok d
    /\ acquire_n 1 (Some 7%positive) d = Some ([Some a], d1)
    /\ release_each [Some a] d1 = Some (tt, d2)
    /\ pooled_for d2 7%positive (_atHandlers d2) = Some a
    /\ journal d2 = journal d
    /\ d2 = d.
Proof.
  eexists _, _, _.
  split; [vm_compute; reflexivity|].
  split; [apply (bool_decide_unpack _); vm_compute; exact I|].
  split; [vm_compute; reflexivity|].
  split; [vm_compute; reflexivity|].
  repeat split; vm_compute; reflexivity.
Qed.

Lemma acquire_release_n_witness :
  let d := SampleDevice.fresh_device in
  device_ok d
  /\ (1 <= 3)%nat
  /\ pooled_for d (transport_of d (Some 9%positive)) (_atHandlers d) = None
  /\ exists (a : addr) (d1 d2 : Device),
       acquire_n 3 (Some 9%positive) d = Some (replicate 3 (Some a), d1)
       /\ release_each (replicate 3 (Some a)) d1 = Some (tt, d2)
       /\ _atHandlers d2 = _atHandlers d
       /\ objects d2 = objects d.
Proof.
  intros d.
  assert (Hok : device_ok d) by (apply (bool_decide_unpack _); vm_compute; exact I).
  assert (Hnone : pooled_for d (transport_of d (Some 9%positive)) (_atHandlers d) = None)
    by (vm_compute; reflexivity).
  split; [exact Hok|]. split; [lia|]. split; [exact Hnone|].
  destruct (acquire_release_n d (Some 9%positive) 3 Hok) as
    (a & d1 & d2 & h1 & h0 & Hacq & Hrel & _ & Hpool & Hobjs & _);
    [lia | exact Hnone |].
  exists a, d1, d2. repeat split; assumption.
Defined.

(** ** Opening and closing a subsystem *)

Lemma slot_of_set_slot (k : subsystem) (p : option addr) (d : Device) :
  slot_of k (set_slot k p d) = p.
Proof. destruct k; reflexivity. Qed.

Lemma slot_of_set_ref_count (k k' : subsystem) (n : Z) (d : Device) :
  slot_of k (set_ref_count k' n d) = slot_of k d.
Proof. destruct k; reflexivity. Qed.

Lemma ref_count_of_set_ref_count (k : subsystem) (n : Z) (d : Device) :
  ref_count_of k (set_ref_count k n d) = n.
Proof. destruct k; reflexivity. Qed.

Lemma set_ref_count_twice (k : subsystem) (n m : Z) (d : Device) :
  set_ref_count k n (set_ref_count k m d) = set_ref_count k n d.
Proof. destruct k; reflexivity. Qed.

Lemma opened_slot (d1 : Device) (k : subsystem) (s at_handler : addr) (count : Z) :
  slot_of k (opened d1 k s at_handler count) = Some s.
Proof. unfold opened. now rewrite slot_of_set_ref_count, slot_of_set_slot. Qed.

Lemma opened_ref_count (d1 : Device) (k : subsystem) (s at_handler : addr) (count : Z) :
  ref_count_of k (opened d1 k s at_handler count) = count.
Proof. unfold opened. now rewrite ref_count_of_set_ref_count. Qed.

Lemma opened_recount (d1 : Device) (k : subsystem) (s at_handler : addr) (c c' : Z) :
  set_ref_count k c' (opened d1 k s at_handler c) = opened d1 k s at_handler c'.
Proof. unfold opened. apply set_ref_count_twice. Qed.

(** An [open] on an occupied slot only counts. *)
Lemma open_subsystem_again (d : Device) (k : subsystem) (fh : option FileHandle)
      (s : addr) :
  slot_of k d = Some s ->
  open_subsystem k fh d
  = Some (Some s, set_ref_count k (ref_count_of k d + 1) d).
Proof.
  intros Hslot. unfold open_subsystem. run_device.
  rewrite Hslot. run_device. rewrite Hslot. run_device.
  now rewrite slot_of_set_ref_count, Hslot.
Qed.

(** An [open] on an empty slot builds the subsystem on the handler
    [get_at_handler] returns. *)
Lemma open_subsystem_first (d d1 : Device) (k : subsystem) (fh : option FileHandle)
      (at_handler : addr) :
  slot_of k d = None ->
  get_at_handler fh d = Some (Some at_handler, d1) ->
  open_subsystem k fh d
  = Some (Some (fresh (dom (objects d1))),
          opened d1 k (fresh (dom (objects d1))) at_handler (ref_count_of k d1 + 1)).
Proof.
  intros Hslot Hget. unfold open_subsystem. run_device.
  rewrite Hslot. run_device. rewrite Hget. run_device.
  rewrite slot_of_set_slot. run_device.
  rewrite slot_of_set_ref_count, slot_of_set_slot.
  unfold opened. reflexivity.
Qed.

Lemma open_each_opened (d1 : Device) (k : subsystem) (s at_handler : addr)
      (fhs : list (option FileHandle)) (count : Z) :
  open_each k fhs (opened d1 k s at_handler count)
  = Some (replicate (List.length fhs) (Some s),
          opened d1 k s at_handler (count + Z.of_nat (List.length fhs))).
Proof.
  revert count. induction fhs as [|fh fhs IH]; intros count.
  - cbn. now rewrite Z.add_0_r.
  - cbn [open_each List.length replicate]. run_device.
    rewrite (open_subsystem_again _ k fh s (opened_slot _ _ _ _ _)).
    rewrite opened_ref_count, opened_recount, IH.
    do 3 f_equal. lia.
Qed.

(** A [close] that leaves opens outstanding only counts. *)
Lemma close_subsystem_shared (d1 : Device) (k : subsystem) (s at_handler : addr)
      (count : Z) :
  count <> 1 ->
  close_subsystem k (opened d1 k s at_handler count)
  = Some (tt, opened d1 k s at_handler (count - 1)).
Proof.
  intros Hcount. unfold close_subsystem. run_device.
  rewrite opened_slot. run_device.
  rewrite opened_ref_count, opened_recount, opened_ref_count.
  destruct (Z.eqb_spec (count - 1) 0); [lia | reflexivity].
Qed.

(** The last [close] deletes the subsystem, clears the slot and
    releases the handler. *)
Lemma close_subsystem_last (d1 : Device) (k : subsystem) (s at_handler : addr) :
  objects d1 !! s = None ->
  close_subsystem k (opened d1 k s at_handler 1)
  = release_at_handler (Some at_handler) (closing d1 k s at_handler).
Proof.
  intros Hfresh. unfold close_subsystem. run_device.
  rewrite opened_slot. run_device.
  rewrite opened_ref_count, opened_recount, opened_ref_count.
  change (1 - 1 =? 0) with true. run_device.
  unfold opened at 1. cbn [objects set_ref_count set_slot set_memory].
  rewrite lookup_insert_eq. 
  unfold opened at 1. cbn [objects set_ref_count set_slot set_memory].
  rewrite lookup_insert_eq.
  f_equal. unfold opened, closing.
  cbn [objects journal set_ref_count set_slot set_memory].
  rewrite delete_insert_id by exact Hfresh. rewrite <- app_assoc.
  destruct k; reflexivity.
Qed.

Lemma close_n_opened (d1 : Device) (k : subsystem) (s at_handler : addr)
      (n : nat) (count : Z) :
  1 <= count ->
  close_n k n (opened d1 k s at_handler (count + Z.of_nat n))
  = Some (tt, opened d1 k s at_handler count).
Proof.
  intros Hcount. induction n as [|n IH].
  - cbn. now rewrite Z.add_0_r.
  - cbn [close_n]. run_device.
    rewrite close_subsystem_shared by lia.
    replace (count + Z.of_nat (S n) - 1) with (count + Z.of_nat n) by lia.
    now rewrite IH.
Qed.

(** [K] opens from an empty slot, then [K] closes. *)
Lemma open_each_close_n (d d1 d2 : Device) (k : subsystem) (fh : option FileHandle)
      (at_handler : addr) (rest : list (option FileHandle)) :
  slot_of k d = None ->
  ref_count_of k d1 = 0 ->
  get_at_handler fh d = Some (Some at_handler, d1) ->
  let s := fresh (dom (objects d1)) in
  let K := S (List.length rest) in
  release_at_handler (Some at_handler) (closing d1 k s at_handler) = Some (tt, d2) ->
  open_each k (fh :: rest) d
  = Some (replicate K (Some s), opened d1 k s at_handler (Z.of_nat K))
  /\ close_n k K (opened d1 k s at_handler (Z.of_nat K)) = Some (tt, d2).
Proof.
  intros Hslot Hcount Hget s K Hrelease. subst K. split.
  - cbn [open_each replicate]. run_device.
    rewrite (open_subsystem_first d d1 k fh at_handler Hslot Hget).
    fold s. rewrite Hcount, open_each_opened.
    do 3 f_equal. lia.
  - replace (S (List.length rest)) with (List.length rest + 1)%nat at 1 by lia.
    assert (Hsplit : forall n m w,
               close_n k (n + m) w
               = match close_n k n w with
                 | Some (_, w') => close_n k m w'
                 | None => None
                 end).
    { induction n as [|n IHn]; intros m w; [reflexivity|].
      cbn [close_n Nat.add]. run_device.
      destruct (close_subsystem k w) as [[[] w']|]; [apply IHn | reflexivity]. }
    rewrite Hsplit.
    replace (Z.of_nat (S (List.length rest))) with (1 + Z.of_nat (List.length rest)) by lia.
    rewrite close_n_opened by lia.
    cbn [close_n]. run_device.
    rewrite close_subsystem_last by (apply not_elem_of_dom, is_fresh).
    fold s. now rewrite Hrelease.
Qed.

Lemma dec_inc_ref_count (h : Handle.t) :
  Handle.dec_ref_count (Handle.inc_ref_count h) = h.
Proof.
  destruct h as [fh c t dbg]. unfold Handle.dec_ref_count, Handle.inc_ref_count.
  cbn. f_equal. lia.
Qed.

Lemma device_ok_ref_count_pos (d : Device) (a : addr) (h : Handle.t) :
  device_ok d -> a ∈ _atHandlers d -> handler_at d a = Some h ->
  1 <= Handle.ref_count h.
Proof.
  intros (_ & Hhandlers & _) Hin Ha.
  rewrite Forall_forall in Hhandlers. specialize (Hhandlers a Hin).
  unfold handler_ok in Hhandlers. rewrite Ha in Hhandlers. tauto.
Qed.

Lemma device_ok_empty_slot (d : Device) (k : subsystem) :
  device_ok d -> slot_of k d = None -> ref_count_of k d = 0.
Proof.
  intros (_ & _ & _ & Hslots & _) Hslot.
  rewrite Forall_forall in Hslots.
  assert (Hk : k ∈ all_subsystems) by (destruct k; unfold all_subsystems; set_solver).
  specialize (Hslots k Hk). unfold slot_ok in Hslots. now rewrite Hslot in Hslots.
Qed.

Lemma closing_empty_slot (d : Device) (k : subsystem) (j : list heap_event) :
  slot_of k d = None -> ref_count_of k d = 0 ->
  set_ref_count k 0 (set_slot k None (set_memory (objects d) j d))
  = set_memory (objects d) j d.
Proof.
  intros Hslot Hcount. destruct d, k; cbn in *; subst; reflexivity.
Qed.

(** C5.  For every K >= 1, K opens of a subsystem from its empty slot
    return the same instance at every call, built on the handler of the
    first call's transport: the later opens ignore their transport
    argument and do not bind the subsystem again; after K closes the slot
    is null, its counter zero, and the pool and the heap, hence the
    reference count of the bound handler, are as before the first open. *)
Theorem open_close_k (d : Device) (k : subsystem) (fh : option FileHandle) :
  device_ok d ->
  slot_of k d = None ->
  exists (s at_handler : addr),
  forall rest : list (option FileHandle),
    let K := S (List.length rest) in
    exists d1 d2 : Device,
      open_each k (fh :: rest) d = Some (replicate K (Some s), d1)
      /\ slot_of k d1 = Some s
      /\ objects d1 !! s = Some (ObjSubsystem k at_handler)
      /\ (exists h, handler_at d1 at_handler = Some h
                    /\ Handle.file_handle h = transport_of d fh)
      /\ ref_count_of k d1 = Z.of_nat K
      /\ close_n k K d1 = Some (tt, d2)
      /\ slot_of k d2 = None
      /\ ref_count_of k d2 = 0
      /\ objects d2 = objects d
      /\ _atHandlers d2 = _atHandlers d
      /\ handler_at d2 at_handler = handler_at d at_handler.
Proof.
  intros Hok Hslot.
  pose proof (device_ok_pool_live d Hok) as Hlive.
  pose proof (device_ok_empty_slot d k Hok Hslot) as Hcount.
  destruct (pooled_for d (transport_of d fh) (_atHandlers d)) as [a|] eqn:Hpool.
  - (* the transport has a handler: it is shared *)
    destruct (pooled_for_Some d _ _ a Hpool) as (Hin & h & Ha & Hfh).
    pose proof (device_ok_ref_count_pos d a h Hok Hin Ha) as Hpos.
    pose proof (get_at_handler_found d fh a h Hlive Hpool Ha) as Hget.
    set (d1 := set_memory (<[a := ObjATHandler (Handle.inc_ref_count h)]> (objects d))
                          (journal d) d) in *.
    set (s := fresh (dom (objects d1))).
    assert (Hfresh : objects d1 !! s = None) by (apply not_elem_of_dom, is_fresh).
    assert (Hsa : s <> a).
    { intros ->. unfold d1 in Hfresh. cbn in Hfresh.
      now rewrite lookup_insert_eq in Hfresh. }
    exists s, a. intros rest K.
    set (d2 := set_memory (objects d)
                 (journal d ++ [Constructed s (ObjSubsystem k a);
                                Destroyed s (ObjSubsystem k a)]) d).
    assert (Hrelease : release_at_handler (Some a) (closing d1 k s a) = Some (tt, d2)).
    { rewrite (release_at_handler_shared _ a (Handle.inc_ref_count h)).
      - f_equal. f_equal. unfold closing, d1, d2. cbn.
        rewrite insert_insert_eq, dec_inc_ref_count.
        rewrite insert_id by (now apply handler_at_Some).
        apply (closing_empty_slot d k _ Hslot Hcount).
      - unfold closing, d1, handler_at. cbn. now rewrite lookup_insert_eq.
      - cbn. lia. }
    destruct (open_each_close_n d d1 d2 k fh a rest Hslot Hcount Hget Hrelease)
      as [Hopen Hclose].
    exists (opened d1 k s a (Z.of_nat K)), d2.
    split; [exact Hopen|].
    split; [apply opened_slot|].
    split; [unfold opened; cbn; apply lookup_insert_eq|].
    split.
    { exists (Handle.inc_ref_count h). split; [|exact Hfh].
      unfold opened, d1, handler_at. cbn.
      rewrite lookup_insert_ne by exact Hsa. now rewrite lookup_insert_eq. }
    split; [apply opened_ref_count|].
    split; [exact Hclose|].
    unfold d2. repeat split; try reflexivity; assumption.
  - (* the transport has no handler: one is built, and destroyed at the end *)
    pose proof (get_at_handler_new d fh Hlive Hpool) as Hget. cbv zeta in Hget.
    set (a := fresh (dom (objects d))) in *.
    set (T := transport_of d fh) in *.
    set (d1 := set_atHandlers (a :: _atHandlers d)
                 (set_memory (<[a := ObjATHandler (new_handler d T)]> (objects d))
                    (journal d ++ [Constructed a (ObjATHandler
                                                    (Handle.make T (_default_timeout d)))])
                    d)) in *.
    set (s := fresh (dom (objects d1))).
    assert (Hafresh : objects d !! a = None) by (apply not_elem_of_dom, is_fresh).
    assert (Hfresh : objects d1 !! s = None) by (apply not_elem_of_dom, is_fresh).
    assert (Hsa : s <> a).
    { intros Heq. rewrite Heq in Hfresh. unfold d1 in Hfresh. cbn in Hfresh.
      now rewrite lookup_insert_eq in Hfresh. }
    exists s, a. intros rest K.
    set (d2 := set_memory (objects d)
                 (journal d
                  ++ [Constructed a (ObjATHandler (Handle.make T (_default_timeout d)));
                      Constructed s (ObjSubsystem k a);
                      Destroyed s (ObjSubsystem k a);
                      Destroyed a (ObjATHandler
                                     (Handle.dec_ref_count (new_handler d T)))]) d).
    assert (Hrelease : release_at_handler (Some a) (closing d1 k s a) = Some (tt, d2)).
    { rewrite (release_at_handler_last _ a (new_handler d T)).
      - f_equal. f_equal. unfold closing, d1, d2. cbn.
        rewrite decide_True by reflexivity.
        rewrite delete_insert_id by exact Hafresh.
        rewrite <- !app_assoc. cbn [app].
        apply (closing_empty_slot d k _ Hslot Hcount).
      - unfold pool_live, closing, d1. cbn.
        constructor.
        + unfold handler_at. cbn. rewrite lookup_insert_eq. eauto.
        + eapply Forall_impl; [exact Hlive|]. intros x [hx Hx].
          unfold handler_at in *. cbn.
          destruct (decide (a = x)) as [<-|Hne].
          * rewrite lookup_insert_eq. eauto.
          * rewrite lookup_insert_ne by exact Hne. eauto.
      - cbn. now left.
      - unfold closing, d1, handler_at. cbn. now rewrite lookup_insert_eq.
      - reflexivity. }
    assert (Hcount1 : ref_count_of k d1 = 0) by (rewrite <- Hcount; destruct k; reflexivity).
    destruct (open_each_close_n d d1 d2 k fh a rest Hslot Hcount1 Hget Hrelease)
      as [Hopen Hclose].
    exists (opened d1 k s a (Z.of_nat K)), d2.
    split; [exact Hopen|].
    split; [apply opened_slot|].
    split; [unfold opened; cbn; apply lookup_insert_eq|].
    split.
    { exists (new_handler d T). split; [|reflexivity].
      unfold opened, d1, handler_at. cbn.
      rewrite lookup_insert_ne by exact Hsa. now rewrite lookup_insert_eq. }
    split; [apply opened_ref_count|].
    split; [exact Hclose|].
    unfold d2. repeat split; try reflexivity; assumption.
Qed.

Lemma open_close_k_witness :
  let d := SampleDevice.fresh_device in
  device_ok d
  /\ slot_of Network d = None
  /\ exists (s : addr) (d1 d2 : Device),
       open_each Network [Some 9%positive; None; Some 7%positive] d
       = Some ([Some s; Some s; Some s], d1)
       /\ close_n Network 3 d1 = Some (tt, d2)
       /\ slot_of Network d2 = None
       /\ objects d2 = objects d.
Proof.
  intros d.
  assert (Hok : device_ok d) by (apply (bool_decide_unpack _); vm_compute; exact I).
  split; [exact Hok|]. split; [reflexivity|].
  destruct (open_close_k d Network (Some 9%positive) Hok eq_refl) as (s & at_handler & H).
  destruct (H [None; Some 7%positive])
    as (d1 & d2 & Hopen & _ & _ & _ & _ & Hclose & Hslot & _ & Hobjs & _).
  exists s, d1, d2. repeat split; assumption.
Defined.

(** ** The destructor *)

Lemma remove_first_elem (a x : addr) (l : list addr) :
  x ∈ remove_first a l -> x ∈ l.
Proof.
  induction l as [|y l IH]; cbn; [tauto|].
  destruct (decide (y = a)); intros Hin; [now right|].
  apply elem_of_cons in Hin as [->|Hin]; [now left | right; auto].
Qed.

Lemma remove_first_other (a x : addr) (l : list addr) :
  x ∈ l -> x <> a -> x ∈ remove_first a l.
Proof.
  induction l as [|y l IH]; cbn; intros Hin Hne; [assumption|].
  apply elem_of_cons in Hin as [->|Hin].
  - rewrite decide_False by assumption. now left.
  - destruct (decide (y = a)); [assumption | right; auto].
Qed.

Lemma remove_first_NoDup (a : addr) (l : list addr) :
  NoDup l -> NoDup (remove_first a l) /\ a ∉ remove_first a l.
Proof.
  induction 1 as [|y l Hy Hnd [IH1 IH2]]; cbn.
  - split; [constructor | apply not_elem_of_nil].
  - destruct (decide (y = a)) as [->|Hne]; [now split|].
    split.
    + constructor; [|assumption]. intros Hin. apply Hy. eapply remove_first_elem, Hin.
    + intros Hin. apply elem_of_cons in Hin as [->|Hin]; [congruence | auto].
Qed.

Lemma bound_slot_pair (d : Device) (k k' : subsystem) (a : addr) :
  k <> k' -> bound_slot d k a = true -> bound_slot d k' a = true ->
  2 <= slot_users d a.
Proof.
  intros Hne Hk Hk'. unfold slot_users.
  destruct k, k'; try congruence; rewrite Hk, Hk';
    repeat match goal with
      | |- context [Z.b2z (bound_slot d ?x a)] => destruct (bound_slot d x a)
      end; cbn; lia.
Qed.

Lemma slot_users_nonneg (d : Device) (a : addr) : 0 <= slot_users d a.
Proof.
  unfold slot_users.
  destruct (bound_slot d Network a), (bound_slot d SMS a),
    (bound_slot d Power a), (bound_slot d Information a); cbn; lia.
Qed.

(** The subsystem count of a handler once the slot [k] has been
    cleared, the other slots being bound as before. *)
Lemma slot_users_cleared (d d' : Device) (k : subsystem) (a : addr) :
  bound_slot d' k a = false ->
  (forall k', k' <> k -> bound_slot d' k' a = bound_slot d k' a) ->
  slot_users d' a = slot_users d a - Z.b2z (bound_slot d k a).
Proof.
  intros Hk Hother. unfold slot_users.
  destruct k;
    repeat match goal with
      | |- context [bound_slot d' ?k' a] =>
          first [rewrite Hk | rewrite (Hother k') by discriminate]
      end; cbn; lia.
Qed.

Lemma device_ok_tearing (d : Device) : device_ok d -> tearing (forced d).
Proof.
  intros (Hnd & Hhandlers & _ & Hslots & Hcnd & Hcontexts & Howned & _).
  repeat split; try assumption.
  - eapply Forall_impl; [exact Hhandlers|]. intros a Ha.
    unfold handler_ok in Ha. unfold handler_tearing.
    change (handler_at (forced d) a) with (handler_at d a).
    destruct (handler_at d a) as [h|]; [|contradiction].
    change (slot_users (forced d) a) with (slot_users d a).
    destruct Ha as [_ Ha]. unfold users in Ha.
    assert (0 <= context_users d a) by (unfold context_users; lia).
    destruct (decide (_at d = Some a)); lia.
  - eapply Forall_impl; [exact Hslots|]. intros k Hk.
    unfold slot_ok in Hk. unfold slot_tearing.
    replace (slot_of k (forced d)) with (slot_of k d) by (destruct k; reflexivity).
    destruct (slot_of k d) as [s|]; [|exact I].
    change (objects (forced d)) with (objects d).
    destruct (objects d !! s) as [[| |]|]; try contradiction. tauto.
  - eapply Forall_impl; [exact Hcontexts|]. intros c Hc.
    unfold context_ok in Hc. unfold context_live.
    change (objects (forced d)) with (objects d).
    destruct (objects d !! c) as [[| |]|]; try contradiction. exact I.
Qed.

Lemma slot_tearing_of (d : Device) (k' : subsystem) : tearing d -> slot_tearing d k'.
Proof.
  intros (_ & _ & Hslots & _). rewrite Forall_forall in Hslots.
  apply Hslots. destruct k'; unfold all_subsystems; set_solver.
Qed.

Section CloseStep.

Variables (d : Device) (k : subsystem) (s at_handler : addr) (h : Handle.t).

Hypothesis Ht : tearing d.
Hypothesis Hslot : slot_of k d = Some s.
Hypothesis Hs : objects d !! s = Some (ObjSubsystem k at_handler).
Hypothesis Hat : handler_at d at_handler = Some h.


Lemma bound_handler_pooled : at_handler ∈ _atHandlers d.
Proof.
  pose proof (slot_tearing_of d k Ht) as Hk. unfold slot_tearing in Hk.
  rewrite Hslot, Hs in Hk. tauto.
Qed.

Lemma subsystem_not_handler : s <> at_handler.
Proof.
  intros ->. apply handler_at_Some in Hat. congruence.
Qed.

Lemma bound_slot_closed : bound_slot d k at_handler = true.
Proof.
  unfold bound_slot, handler_of. rewrite Hslot, Hs.
  now apply bool_decide_eq_true_2.
Qed.

(** A slot other than [k] points neither to [s] nor to the handler. *)
Lemma other_slot_apart (k' : subsystem) (s' : addr) :
  k' <> k -> slot_of k' d = Some s' -> s' <> s /\ s' <> at_handler.
Proof.
  intros Hne Hslot'. pose proof (slot_tearing_of d k' Ht) as Hk'.
  unfold slot_tearing in Hk'. rewrite Hslot' in Hk'.
  destruct (objects d !! s') as [[| k'' at'|]|] eqn:Hs'; try contradiction.
  destruct Hk' as [-> _]. split.
  - intros ->. congruence.
  - intros ->. apply handler_at_Some in Hat. congruence.
Qed.

Variable d' : Device.
Variable deleted : bool.

Hypothesis Hpool' :
  _atHandlers d' = if deleted then remove_first at_handler (_atHandlers d)
                   else _atHandlers d.
Hypothesis Hsame :
  forall x, x <> s -> x <> at_handler -> objects d' !! x = objects d !! x.
Hypothesis Hs' : objects d' !! s = None.
Hypothesis Hat' :
  objects d' !! at_handler
  = if deleted then None else Some (ObjATHandler (Handle.dec_ref_count h)).
Hypothesis Hlast : deleted = true -> Handle.ref_count h = 1.
Hypothesis Hslot' : slot_of k d' = None.
Hypothesis Hslots' : forall k', k' <> k -> slot_of k' d' = slot_of k' d.
Hypothesis Hcontexts' : _context_list d' = _context_list d.

Lemma bound_slot_after_closed (x : addr) : bound_slot d' k x = false.
Proof. unfold bound_slot. now rewrite Hslot'. Qed.

Lemma bound_slot_after_other (k' : subsystem) (x : addr) :
  k' <> k -> bound_slot d' k' x = bound_slot d k' x.
Proof.
  intros Hne. unfold bound_slot. rewrite (Hslots' k' Hne).
  destruct (slot_of k' d) as [s'|] eqn:Hk'; [|reflexivity].
  destruct (other_slot_apart k' s' Hne Hk') as [Hne1 Hne2].
  unfold handler_of. now rewrite (Hsame s' Hne1 Hne2).
Qed.

Lemma slot_users_after (x : addr) :
  slot_users d' x = slot_users d x - Z.b2z (bound_slot d k x).
Proof.
  apply slot_users_cleared.
  - apply bound_slot_after_closed.
  - intros k' Hne. now apply bound_slot_after_other.
Qed.

Lemma pool_after_elem (x : addr) : x ∈ _atHandlers d' -> x ∈ _atHandlers d.
Proof.
  rewrite Hpool'. destruct deleted; [apply remove_first_elem | trivial].
Qed.

Lemma pool_after_other (x : addr) :
  x ∈ _atHandlers d -> x <> at_handler -> x ∈ _atHandlers d'.
Proof.
  rewrite Hpool'. intros Hin Hne.
  destruct deleted; [now apply remove_first_other | assumption].
Qed.

Lemma tearing_after_close : tearing d'.
Proof.
  destruct Ht as (Hnd & Hhandlers & Hslots & Hcnd & Hcontexts & Howned).
  rewrite Forall_forall in Hhandlers, Hcontexts.
  unfold tearing. rewrite Hcontexts'.
  split; [|split; [|split; [|split; [exact Hcnd|split]]]].
  - rewrite Hpool'. destruct deleted; [now apply remove_first_NoDup | exact Hnd].
  - apply Forall_forall. intros x Hx'.
    pose proof (pool_after_elem x Hx') as Hx.
    pose proof (Hhandlers x Hx) as Hok. unfold handler_tearing in *.
    rewrite slot_users_after.
    destruct (decide (x = at_handler)) as [->|Hne].
    + destruct deleted.
      * rewrite Hpool' in Hx'.
        now apply (proj2 (remove_first_NoDup at_handler _ Hnd)) in Hx'.
      * unfold handler_at. rewrite Hat'. rewrite Hat in Hok.
        rewrite bound_slot_closed. cbn. lia.
    + destruct (handler_at d x) as [hx|] eqn:Hhx; [|contradiction].
      assert (Hxs : x <> s).
      { intros ->. apply handler_at_Some in Hhx. congruence. }
      unfold handler_at in *. rewrite (Hsame x Hxs Hne).
      destruct (objects d !! x) as [[| |]|]; try discriminate.
      injection Hhx as ->.
      destruct (bound_slot d k x); cbn; lia.
  - apply Forall_forall. intros k' _. unfold slot_tearing.
    destruct (decide (k' = k)) as [->|Hne]; [now rewrite Hslot'|].
    rewrite (Hslots' k' Hne).
    pose proof (slot_tearing_of d k' Ht) as Hk'. unfold slot_tearing in Hk'.
    destruct (slot_of k' d) as [s'|] eqn:Hslotk'; [|exact I].
    destruct (other_slot_apart k' s' Hne Hslotk') as [Hne1 Hne2].
    rewrite (Hsame s' Hne1 Hne2).
    destruct (objects d !! s') as [[| k'' at'|]|] eqn:Hobj; try contradiction.
    destruct Hk' as [-> Hin]. split; [reflexivity|].
    rewrite Hpool'. destruct deleted; [|exact Hin].
    apply remove_first_other; [exact Hin|].
    intros ->.
    assert (Hb : bound_slot d k' at_handler = true).
    { unfold bound_slot, handler_of. rewrite Hslotk', Hobj.
      now apply bool_decide_eq_true_2. }
    pose proof (bound_slot_pair d k k' at_handler (not_eq_sym Hne)
                  bound_slot_closed Hb) as Htwo.
    pose proof (Hhandlers at_handler bound_handler_pooled) as Hok.
    unfold handler_tearing in Hok. rewrite Hat in Hok.
    specialize (Hlast eq_refl). lia.
  - apply Forall_forall. intros c Hc.
    pose proof (Hcontexts c Hc) as Hlive. unfold context_live in *.
    destruct (objects d !! c) as [[| |]|] eqn:Hobj; try contradiction.
    rewrite Hsame, Hobj; [exact I | |].
    + intros ->. congruence.
    + intros ->. apply handler_at_Some in Hat. congruence.
  - intros x o Ho.
    assert (Hxs : x <> s) by (intros ->; congruence).
    destruct (decide (x = at_handler)) as [->|Hne].
    + rewrite Hat' in Ho. destruct deleted; [discriminate|].
      injection Ho as <-. cbn. rewrite Hpool'. exact bound_handler_pooled.
    + rewrite (Hsame x Hxs Hne) in Ho.
      pose proof (Howned x o Ho) as Hown. destruct o as [hx|k'' at''|at'' apn]; cbn in *.
      * now apply pool_after_other.
      * destruct (decide (k'' = k)) as [->|Hk''].
        -- rewrite Hslot in Hown. congruence.
        -- now rewrite Hslots'.
      * now rewrite Hcontexts'.
Qed.

End CloseStep.

Lemma slot_of_set_slot_other (k k' : subsystem) (p : option addr) (d : Device) :
  k' <> k -> slot_of k' (set_slot k p d) = slot_of k' d.
Proof. intros Hne. destruct k, k'; try reflexivity; congruence. Qed.

Lemma ref_count_of_set_ref_count_other (k k' : subsystem) (n : Z) (d : Device) :
  k' <> k -> ref_count_of k' (set_ref_count k n d) = ref_count_of k' d.
Proof. intros Hne. destruct k, k'; try reflexivity; congruence. Qed.

Lemma ref_count_of_set_slot (k k' : subsystem) (p : option addr) (d : Device) :
  ref_count_of k' (set_slot k p d) = ref_count_of k' d.
Proof. destruct k'; reflexivity. Qed.

(** The last [close] of a subsystem, on any device: the object is
    deleted, the slot cleared, and the handler released. *)
Lemma close_subsystem_release (d : Device) (k : subsystem) (s at_handler : addr)
      (k0 : subsystem) :
  slot_of k d = Some s ->
  ref_count_of k d = 1 ->
  objects d !! s = Some (ObjSubsystem k0 at_handler) ->
  close_subsystem k d
  = release_at_handler (Some at_handler)
      (slot_cleared d k s (ObjSubsystem k0 at_handler)).
Proof.
  intros Hslot Hcount Hs. unfold close_subsystem. run_device.
  rewrite Hslot. run_device. rewrite Hcount, ref_count_of_set_ref_count.
  change (1 - 1 =? 0) with true. run_device.
  rewrite Hs. run_device. rewrite Hs. reflexivity.
Qed.

(** One [close] of the destructor keeps the device in order and
    leaves the slot null. *)
Lemma close_subsystem_tearing (d : Device) (k : subsystem) :
  tearing d ->
  ref_count_of k d = 1 ->
  exists d' : Device,
    close_subsystem k d = Some (tt, d')
    /\ tearing d'
    /\ slot_of k d' = None
    /\ (forall k', k' <> k ->
          slot_of k' d' = slot_of k' d /\ ref_count_of k' d' = ref_count_of k' d).
Proof.
  intros Ht Hcount.
  destruct (slot_of k d) as [s|] eqn:Hslot.
  2:{ exists d. unfold close_subsystem. run_device. rewrite Hslot.
      split; [reflexivity|]. split; [exact Ht|]. split; [reflexivity|]. auto. }
  pose proof (slot_tearing_of d k Ht) as Hk. unfold slot_tearing in Hk.
  rewrite Hslot in Hk.
  destruct (objects d !! s) as [[| k0 at_handler|]|] eqn:Hs; try contradiction.
  destruct Hk as [-> Hin].
  assert (Hhandler : handler_tearing d at_handler).
  { destruct Ht as (_ & Hhandlers & _). rewrite Forall_forall in Hhandlers. auto. }
  unfold handler_tearing in Hhandler.
  destruct (handler_at d at_handler) as [h|] eqn:Hat; [|contradiction].
  pose proof (subsystem_not_handler d k s at_handler h Hslot Hs Hat) as Hsa.
  rewrite (close_subsystem_release d k s at_handler k Hslot Hcount Hs).
  set (dm := slot_cleared d k s (ObjSubsystem k at_handler)).
  assert (Hatm : handler_at dm at_handler = Some h).
  { unfold dm, slot_cleared, handler_at. cbn.
    rewrite lookup_delete_ne by exact Hsa. now apply handler_at_Some in Hat as ->. }
  assert (Hslots : forall k', k' <> k -> slot_of k' dm = slot_of k' d
                                         /\ ref_count_of k' dm = ref_count_of k' d).
  { intros k' Hne. unfold dm, slot_cleared. split.
    - now rewrite slot_of_set_slot_other.
    - rewrite ref_count_of_set_slot.
      change (ref_count_of k' (set_ref_count k 0 d) = ref_count_of k' d).
      now apply ref_count_of_set_ref_count_other. }
  destruct (decide (Handle.ref_count h = 1)) as [Hone|Hmany].
  - (* the handler goes with its last reference *)
    assert (Hlive : pool_live dm).
    { destruct Ht as (_ & Hhandlers & _). unfold pool_live.
      change (_atHandlers dm) with (_atHandlers d).
      eapply Forall_impl; [exact Hhandlers|]. intros x Hx.
      unfold handler_tearing in Hx.
      destruct (handler_at d x) as [hx|] eqn:Hhx; [|contradiction].
      exists hx. unfold dm, slot_cleared, handler_at. cbn.
      rewrite lookup_delete_ne; [now apply handler_at_Some in Hhx as ->|].
      intros ->. apply handler_at_Some in Hhx. congruence. }
    rewrite (release_at_handler_last dm at_handler h Hlive Hin Hatm Hone).
    eexists. split; [reflexivity|].
    split; [|split; [apply slot_of_set_slot | exact Hslots]].
    apply (tearing_after_close d k s at_handler h Ht Hslot Hs Hat _ true).
    + reflexivity.
    + intros x Hxs Hxa. cbn. now rewrite !lookup_delete_ne by congruence.
    + cbn. rewrite lookup_delete_ne by congruence. apply lookup_delete_eq.
    + cbn. apply lookup_delete_eq.
    + intros _. exact Hone.
    + apply slot_of_set_slot.
    + intros k' Hne. now apply Hslots.
    + reflexivity.
  - (* the handler stays, with one reference less *)
    rewrite (release_at_handler_shared dm at_handler h Hatm Hmany).
    eexists. split; [reflexivity|].
    split; [|split; [apply slot_of_set_slot | exact Hslots]].
    apply (tearing_after_close d k s at_handler h Ht Hslot Hs Hat _ false).
    + reflexivity.
    + intros x Hxs Hxa. cbn.
      rewrite lookup_insert_ne by congruence. now rewrite lookup_delete_ne by congruence.
    + cbn. rewrite lookup_insert_ne by congruence. apply lookup_delete_eq.
    + cbn. apply lookup_insert_eq.
    + discriminate.
    + apply slot_of_set_slot.
    + intros k' Hne. now apply Hslots.
    + reflexivity.
Qed.

(** The two loops of the destructor free the nodes of their list. *)
Lemma delete_context_list_frees (l : list addr) (d : Device) :
  NoDup l ->
  Forall (context_live d) l ->
  exists (m : gmap addr object) (j : list heap_event),
    delete_context_list l d = Some (tt, set_memory m j d)
    /\ forall x, m !! x = if decide (x ∈ l) then None else objects d !! x.
Proof.
  intros Hnd. revert d. induction Hnd as [|c l Hc Hnd IH]; intros d Hlive.
  - exists (objects d), (journal d). split.
    + cbn. run_device. f_equal. f_equal. now destruct d.
    + intros x. rewrite decide_False by apply not_elem_of_nil. reflexivity.
  - apply Forall_cons in Hlive as [Hclive Hlive].
    unfold context_live in Hclive.
    destruct (objects d !! c) as [[| |at_handler apn]|] eqn:Hobj; try contradiction.
    set (d1 := set_memory (delete c (objects d))
                 (journal d ++ [Destroyed c (ObjContext at_handler apn)]) d).
    destruct (IH d1) as (m & j & Hrun & Hm).
    { rewrite Forall_forall in Hlive. apply Forall_forall. intros x Hx.
      specialize (Hlive x Hx). unfold context_live in *. unfold d1. cbn.
      rewrite lookup_delete_ne; [exact Hlive|]. intros ->. contradiction. }
    exists m, j. split.
    + cbn [delete_context_list]. run_device. rewrite Hobj. run_device.
      rewrite Hobj. fold d1. exact Hrun.
    + intros x. rewrite Hm. unfold d1. cbn.
      destruct (decide (x = c)) as [->|Hne].
      * rewrite lookup_delete_eq. rewrite (decide_True (P := c ∈ c :: l)) by (now left).
        now destruct (decide (c ∈ l)).
      * rewrite lookup_delete_ne by congruence.
        destruct (decide (x ∈ l)) as [Hin|Hnin].
        -- rewrite decide_True by (now right). reflexivity.
        -- rewrite decide_False; [reflexivity|].
           intros Hin. apply elem_of_cons in Hin as [->|Hin]; contradiction.
Qed.

Lemma delete_at_handlers_frees (l : list addr) (d : Device) :
  NoDup l ->
  Forall (fun a => is_Some (handler_at d a)) l ->
  exists (m : gmap addr object) (j : list heap_event),
    delete_at_handlers l d = Some (tt, set_memory m j d)
    /\ forall x, m !! x = if decide (x ∈ l) then None else objects d !! x.
Proof.
  intros Hnd. revert d. induction Hnd as [|a l Ha Hnd IH]; intros d Hlive.
  - exists (objects d), (journal d). split.
    + cbn. run_device. f_equal. f_equal. now destruct d.
    + intros x. rewrite decide_False by apply not_elem_of_nil. reflexivity.
  - apply Forall_cons in Hlive as [[h Hh] Hlive].
    apply handler_at_Some in Hh as Hobj.
    set (d1 := set_memory (delete a (objects d))
                 (journal d ++ [Destroyed a (ObjATHandler h)]) d).
    destruct (IH d1) as (m & j & Hrun & Hm).
    { rewrite Forall_forall in Hlive. apply Forall_forall. intros x Hx.
      destruct (Hlive x Hx) as [hx Hhx]. exists hx.
      unfold d1, handler_at in *. cbn.
      rewrite lookup_delete_ne; [exact Hhx|]. intros ->. contradiction. }
    exists m, j. split.
    + cbn [delete_at_handlers]. run_device. rewrite Hobj. run_device.
      rewrite Hobj. fold d1. exact Hrun.
    + intros x. rewrite Hm. unfold d1. cbn.
      destruct (decide (x = a)) as [->|Hne].
      * rewrite lookup_delete_eq. rewrite (decide_True (P := a ∈ a :: l)) by (now left).
        now destruct (decide (a ∈ l)).
      * rewrite lookup_delete_ne by congruence.
        destruct (decide (x ∈ l)) as [Hin|Hnin].
        -- rewrite decide_True by (now right). reflexivity.
        -- rewrite decide_False; [reflexivity|].
           intros Hin. apply elem_of_cons in Hin as [->|Hin]; contradiction.
Qed.

(** The destructor on a device in good order. *)
Lemma destructor_leaves_nothing (d : Device) :
  device_ok d ->
  exists j : list heap_event, AT_CellularDevice_delete d = Some (∅, j).
Proof.
  intros Hok. pose proof (device_ok_tearing d Hok) as Ht0.
  destruct (close_subsystem_tearing (forced d) Network Ht0 eq_refl)
    as (d1 & Hc1 & Ht1 & Hn1 & Ho1).
  destruct (close_subsystem_tearing d1 SMS Ht1) as (d2 & Hc2 & Ht2 & Hn2 & Ho2).
  { now rewrite (proj2 (Ho1 SMS ltac:(discriminate))). }
  destruct (close_subsystem_tearing d2 Power Ht2) as (d3 & Hc3 & Ht3 & Hn3 & Ho3).
  { rewrite (proj2 (Ho2 Power ltac:(discriminate))).
    now rewrite (proj2 (Ho1 Power ltac:(discriminate))). }
  destruct (close_subsystem_tearing d3 Information Ht3) as (d4 & Hc4 & Ht4 & Hn4 & Ho4).
  { rewrite (proj2 (Ho3 Information ltac:(discriminate))).
    rewrite (proj2 (Ho2 Information ltac:(discriminate))).
    now rewrite (proj2 (Ho1 Information ltac:(discriminate))). }
  assert (Hslots : forall k, slot_of k d4 = None).
  { intros [].
    - rewrite (proj1 (Ho4 Network ltac:(discriminate))).
      rewrite (proj1 (Ho3 Network ltac:(discriminate))).
      now rewrite (proj1 (Ho2 Network ltac:(discriminate))).
    - rewrite (proj1 (Ho4 SMS ltac:(discriminate))).
      now rewrite (proj1 (Ho3 SMS ltac:(discriminate))).
    - now rewrite (proj1 (Ho4 Power ltac:(discriminate))).
    - exact Hn4. }
  destruct Ht4 as (Hnd & Hhandlers & _ & Hcnd & Hcontexts & Howned).
  destruct (delete_context_list_frees (_context_list d4) d4 Hcnd Hcontexts)
    as (m5 & j5 & Hrun5 & Hm5).
  set (d5 := set_memory m5 j5 d4) in *.
  destruct (delete_at_handlers_frees (_atHandlers d4) d5 Hnd) as (m6 & j6 & Hrun6 & Hm6).
  { rewrite Forall_forall in Hhandlers. apply Forall_forall. intros x Hx.
    specialize (Hhandlers x Hx). unfold handler_tearing in Hhandlers.
    destruct (handler_at d4 x) as [hx|] eqn:Hhx; [|contradiction].
    exists hx. unfold d5, handler_at. cbn. rewrite Hm5.
    apply handler_at_Some in Hhx.
    rewrite decide_False; [now rewrite Hhx|].
    intros Hin. rewrite Forall_forall in Hcontexts.
    specialize (Hcontexts x Hin). unfold context_live in Hcontexts.
    now rewrite Hhx in Hcontexts. }
  exists j6. unfold AT_CellularDevice_delete. run_device.
  change (set_ref_count Information 1
            (set_ref_count Power 1 (set_ref_count SMS 1 (set_ref_count Network 1 d))))
    with (forced d).
  unfold close_network, close_sms, close_power, close_information.
  rewrite Hc1, Hc2, Hc3, Hc4, Hrun5.
  change (_atHandlers d5) with (_atHandlers d4).
  rewrite Hrun6. cbn.
  f_equal. f_equal. apply map_empty. intros x. rewrite Hm6.
  destruct (decide (x ∈ _atHandlers d4)) as [Hin|Hnin]; [reflexivity|].
  unfold d5. cbn. rewrite Hm5.
  destruct (decide (x ∈ _context_list d4)) as [Hcin|Hcnin]; [reflexivity|].
  destruct (objects d4 !! x) as [o|] eqn:Hobj; [|reflexivity].
  pose proof (Howned x o Hobj) as Hown.
  destruct o as [hx|k at_handler|at_handler apn]; cbn in Hown.
  - contradiction.
  - rewrite Hslots in Hown. discriminate.
  - contradiction.
Qed.


(** ** The invariant is kept by the operations *)

Lemma device_ok_handler (d : Device) (x : addr) :
  device_ok d -> x ∈ _atHandlers d ->
  exists h, handler_at d x = Some h
            /\ 1 <= Handle.ref_count h /\ users d x <= Handle.ref_count h.
Proof.
  intros (_ & Hhandlers & _) Hin. rewrite Forall_forall in Hhandlers.
  specialize (Hhandlers x Hin). unfold handler_ok in Hhandlers.
  destruct (handler_at d x) as [h|]; [eauto | contradiction].
Qed.

Lemma device_ok_slot (d : Device) (k : subsystem) : device_ok d -> slot_ok d k.
Proof.
  intros (_ & _ & _ & Hslots & _). rewrite Forall_forall in Hslots.
  apply Hslots. destruct k; unfold all_subsystems; set_solver.
Qed.

Lemma device_ok_context (d : Device) (c : addr) :
  device_ok d -> c ∈ _context_list d -> context_ok d c.
Proof.
  intros (_ & _ & _ & _ & _ & Hcontexts & _) Hin.
  rewrite Forall_forall in Hcontexts. auto.
Qed.

Lemma device_ok_at (d : Device) : device_ok d -> at_ok d.
Proof. intros (_ & _ & _ & _ & _ & _ & _ & Hat). exact Hat. Qed.

Lemma device_ok_intro (d : Device) :
  NoDup (_atHandlers d) ->
  (forall x, x ∈ _atHandlers d -> handler_ok d x) ->
  NoDup (omap (fun a => Handle.file_handle <$> handler_at d a) (_atHandlers d)) ->
  (forall k, slot_ok d k) ->
  NoDup (_context_list d) ->
  (forall c, c ∈ _context_list d -> context_ok d c) ->
  (forall x o, objects d !! x = Some o -> owned d x o) ->
  at_ok d ->
  device_ok d.
Proof.
  intros H1 H2 H3 H4 H5 H6 H7 H8. unfold device_ok.
  repeat split; try assumption.
  - now apply Forall_forall.
  - apply Forall_forall. intros k _. apply H4.
  - now apply Forall_forall.
Qed.

(** The references counted in [users] depend on the slots, the context
    list, [_at] and the handlers the subsystems and contexts name. *)
Lemma slot_users_same (d d' : Device) (a : addr) :
  (forall k, bound_slot d' k a = bound_slot d k a) ->
  slot_users d' a = slot_users d a.
Proof. intros H. unfold slot_users. now rewrite !H. Qed.

Lemma context_users_same (d d' : Device) (a : addr) :
  _context_list d' = _context_list d ->
  (forall c, c ∈ _context_list d -> handler_of d' c = handler_of d c) ->
  context_users d' a = context_users d a.
Proof.
  intros Hlist Hsame. unfold context_users. rewrite Hlist. f_equal. f_equal.
  revert Hsame. generalize (_context_list d). intros l Hsame.
  induction l as [|c l IH]; [reflexivity|].
  rewrite !filter_cons. rewrite (Hsame c) by (now left).
  rewrite IH by (intros c' Hc'; apply Hsame; now right). reflexivity.
Qed.

Lemma bound_slot_same (d d' : Device) (k : subsystem) (a : addr) :
  slot_of k d' = slot_of k d ->
  (forall s, slot_of k d = Some s -> handler_of d' s = handler_of d s) ->
  bound_slot d' k a = bound_slot d k a.
Proof.
  intros Hslot Hsame. unfold bound_slot. rewrite Hslot.
  destruct (slot_of k d) as [s|]; [|reflexivity]. now rewrite (Hsame s).
Qed.

(** A state that differs only by objects that are handlers both before
    and after (or absent) has the same references. *)
Lemma users_same_refs (d d' : Device) (a : addr) :
  (forall k, slot_of k d' = slot_of k d) ->
  _context_list d' = _context_list d ->
  _at d' = _at d ->
  (forall p, handler_of d' p = handler_of d p) ->
  users d' a = users d a.
Proof.
  intros Hslots Hlist Hat Hsame. unfold users. rewrite Hat.
  rewrite (slot_users_same d d' a), (context_users_same d d' a); auto.
  intros k. apply bound_slot_same; auto.
Qed.


Lemma omap_pointwise {A B : Type} (f g : A -> option B) (l : list A) :
  (forall x, x ∈ l -> f x = g x) -> omap f l = omap g l.
Proof.
  induction l as [|x l IH]; intros H; [reflexivity|].
  cbn. rewrite (H x) by (now left).
  rewrite IH by (intros y Hy; apply H; now right). reflexivity.
Qed.

Lemma device_ok_owned (d : Device) (x : addr) (o : object) :
  device_ok d -> objects d !! x = Some o -> owned d x o.
Proof. intros (_ & _ & _ & _ & _ & _ & Howned & _). apply Howned. Qed.

Lemma handler_pooled (d : Device) (a : addr) (h : Handle.t) :
  device_ok d -> handler_at d a = Some h -> a ∈ _atHandlers d.
Proof.
  intros Hok Ha. apply handler_at_Some in Ha.
  exact (device_ok_owned d a _ Hok Ha).
Qed.

(** Changing the count of a live handler. *)
Lemma handler_update_ok (d : Device) (a : addr) (h h' : Handle.t)
      (j : list heap_event) :
  device_ok d ->
  handler_at d a = Some h ->
  Handle.file_handle h' = Handle.file_handle h ->
  1 <= Handle.ref_count h' ->
  users d a <= Handle.ref_count h' ->
  let d' := set_memory (<[a := ObjATHandler h']> (objects d)) j d in
  device_ok d' /\ forall x, users d' x = users d x.
Proof.
  intros Hok Ha Hfh Hpos Husers d'.
  pose proof (handler_pooled d a h Hok Ha) as Hin.
  apply handler_at_Some in Ha as Hobj.
  assert (Hrefs : forall p, handler_of d' p = handler_of d p).
  { intros p. unfold d', handler_of. cbn. rewrite lookup_insert.
    destruct (decide (a = p)) as [<-|]; [now rewrite Hobj | reflexivity]. }
  assert (Husers' : forall x, users d' x = users d x).
  { intros x. apply users_same_refs; auto. }
  assert (Hother : forall x, x <> a -> objects d' !! x = objects d !! x).
  { intros x Hne. unfold d'. cbn. now rewrite lookup_insert_ne. }
  split; [|exact Husers'].
  destruct Hok as (Hnd & Hhandlers & Hfhs & Hslots & Hcnd & Hcontexts & Howned & Hatok).
  rewrite Forall_forall in Hhandlers. rewrite Forall_forall in Hslots.
  rewrite Forall_forall in Hcontexts.
  apply device_ok_intro.
  - exact Hnd.
  - intros x Hx. unfold handler_ok. rewrite Husers'.
    unfold d'. rewrite handler_at_insert.
    destruct (decide (a = x)) as [<-|Hne]; [split; assumption|].
    exact (Hhandlers x Hx).
  - replace (omap (fun x => Handle.file_handle <$> handler_at d' x) (_atHandlers d'))
      with (omap (fun x => Handle.file_handle <$> handler_at d x) (_atHandlers d));
      [exact Hfhs|].
    apply omap_pointwise. intros x _. unfold d'. rewrite handler_at_insert.
    destruct (decide (a = x)) as [<-|Hne]; [|reflexivity].
    rewrite Ha. cbn. now rewrite Hfh.
  - intros k. assert (Hk : slot_ok d k).
    { apply Hslots. destruct k; unfold all_subsystems; set_solver. }
    unfold slot_ok in *.
    change (slot_of k d') with (slot_of k d).
    change (ref_count_of k d') with (ref_count_of k d).
    change (_atHandlers d') with (_atHandlers d).
    destruct (slot_of k d) as [s|]; [|exact Hk].
    destruct (decide (s = a)) as [->|Hne]; [now rewrite Hobj in Hk|].
    now rewrite (Hother s Hne).
  - exact Hcnd.
  - intros c Hc. specialize (Hcontexts c Hc). unfold context_ok in *.
    change (_atHandlers d') with (_atHandlers d).
    destruct (decide (c = a)) as [->|Hne]; [now rewrite Hobj in Hcontexts|].
    now rewrite (Hother c Hne).
  - intros x o Ho. destruct (decide (x = a)) as [->|Hne].
    + unfold d' in Ho. cbn in Ho. rewrite lookup_insert_eq in Ho.
      injection Ho as <-. exact Hin.
    + rewrite (Hother x Hne) in Ho. exact (Howned x o Ho).
  - exact Hatok.
Qed.

Lemma filter_none {A : Type} (P : A -> Prop) `{forall x, Decision (P x)} (l : list A) :
  (forall x, x ∈ l -> ~ P x) -> filter P l = [].
Proof.
  induction l as [|x l IH]; intros Hnone; [reflexivity|].
  rewrite filter_cons_False by (apply Hnone; now left).
  apply IH. intros y Hy. apply Hnone. now right.
Qed.

(** A handler that nothing refers to. *)
Lemma users_unreferenced (d : Device) (a : addr) :
  device_ok d -> a ∉ _atHandlers d -> users d a = 0.
Proof.
  intros Hok Hnotin. unfold users.
  assert (Hslots : forall k, bound_slot d k a = false).
  { intros k. pose proof (device_ok_slot d k Hok) as Hk.
    unfold slot_ok in Hk. unfold bound_slot, handler_of.
    destruct (slot_of k d) as [s|]; [|reflexivity].
    destruct (objects d !! s) as [[| k' at_handler|]|]; try contradiction.
    destruct Hk as (_ & Hin & _). apply bool_decide_eq_false_2.
    intros [= ->]. contradiction. }
  assert (Hctx : context_users d a = 0).
  { unfold context_users.
    replace (filter (fun c => handler_of d c = Some a) (_context_list d)) with (@nil addr);
      [reflexivity|].
    symmetry. apply filter_none. intros c Hc.
    pose proof (device_ok_context d c Hok Hc) as Hcok.
    unfold context_ok in Hcok. unfold handler_of.
    destruct (objects d !! c) as [[| |at_handler apn]|]; try contradiction.
    intros [= ->]. contradiction. }
  unfold slot_users. rewrite !Hslots, Hctx.
  pose proof (device_ok_at d Hok) as Hat. unfold at_ok in Hat.
  destruct (decide (_at d = Some a)) as [Heq|]; [|reflexivity].
  rewrite Heq in Hat. contradiction.
Qed.

(** A new handler, pushed on the pool. *)
Lemma handler_new_ok (d : Device) (T : FileHandle) (H : Handle.t)
      (j : list heap_event) :
  device_ok d ->
  pooled_for d T (_atHandlers d) = None ->
  Handle.file_handle H = T ->
  Handle.ref_count H = 1 ->
  let a := fresh (dom (objects d)) in
  let d' := set_atHandlers (a :: _atHandlers d)
              (set_memory (<[a := ObjATHandler H]> (objects d)) j d) in
  device_ok d' /\ users d' a = 0.
Proof.
  intros Hok Hnone Hfh Hcount a d'.
  assert (Hfresh : objects d !! a = None) by (apply not_elem_of_dom, is_fresh).
  assert (Hnotin : a ∉ _atHandlers d).
  { intros Hin. destruct (device_ok_handler d a Hok Hin) as (h & Hh & _).
    apply handler_at_Some in Hh. congruence. }
  assert (Hrefs : forall p, handler_of d' p = handler_of d p).
  { intros p. unfold d', handler_of. cbn. rewrite lookup_insert.
    destruct (decide (a = p)) as [<-|]; [now rewrite Hfresh | reflexivity]. }
  assert (Husers' : forall x, users d' x = users d x).
  { intros x. apply users_same_refs; auto. }
  assert (Hother : forall x, x <> a -> objects d' !! x = objects d !! x).
  { intros x Hne. unfold d'. cbn. now rewrite lookup_insert_ne. }
  assert (Hhandler' : forall x, x <> a -> handler_at d' x = handler_at d x).
  { intros x Hne. unfold handler_at. now rewrite Hother. }
  assert (Ha' : handler_at d' a = Some H).
  { unfold d', handler_at. cbn. now rewrite lookup_insert_eq. }
  split; [|rewrite Husers'; now apply users_unreferenced].
  pose proof Hok as (Hnd & Hhandlers & Hfhs & Hslots & Hcnd & Hcontexts & Howned & Hatok).
  rewrite Forall_forall in Hhandlers. rewrite Forall_forall in Hcontexts.
  apply device_ok_intro.
  - cbn. now constructor.
  - intros x Hx. unfold handler_ok. rewrite Husers'.
    destruct (decide (x = a)) as [->|Hne].
    + rewrite Ha', (users_unreferenced d a Hok Hnotin). lia.
    + rewrite (Hhandler' x Hne). apply (Hhandlers x).
      cbn in Hx. apply elem_of_cons in Hx as [->|Hx]; [contradiction | exact Hx].
  - cbn [d' _atHandlers set_atHandlers omap list_omap]. fold d'.
    rewrite Ha'. cbn.
    replace (omap (fun x => Handle.file_handle <$> handler_at d' x) (_atHandlers d))
      with (omap (fun x => Handle.file_handle <$> handler_at d x) (_atHandlers d)).
    + constructor; [|exact Hfhs].
      rewrite list_elem_of_omap. intros (x & Hx & Hxfh).
      destruct (handler_at d x) as [hx|] eqn:Hhx; [|discriminate].
      injection Hxfh as Hxfh.
      apply (proj1 (pooled_for_None d T (_atHandlers d)) Hnone x hx Hx Hhx).
      congruence.
    + apply omap_pointwise. intros x Hx. rewrite Hhandler'; [reflexivity|].
      intros ->. contradiction.
  - intros k. pose proof (device_ok_slot d k Hok) as Hk. unfold slot_ok in *.
    change (slot_of k d') with (slot_of k d).
    change (ref_count_of k d') with (ref_count_of k d).
    destruct (slot_of k d) as [s|]; [|exact Hk].
    destruct (decide (s = a)) as [->|Hne]; [now rewrite Hfresh in Hk|].
    rewrite (Hother s Hne).
    destruct (objects d !! s) as [[| k' at_handler|]|]; try contradiction.
    destruct Hk as (Hk1 & Hk2 & Hk3). repeat split; try assumption.
    cbn. now right.
  - exact Hcnd.
  - intros c Hc. specialize (Hcontexts c Hc). unfold context_ok in *.
    destruct (decide (c = a)) as [->|Hne]; [now rewrite Hfresh in Hcontexts|].
    rewrite (Hother c Hne).
    destruct (objects d !! c) as [[| |at_handler apn]|]; try contradiction.
    cbn. now right.
  - intros x o Ho. destruct (decide (x = a)) as [->|Hne].
    + unfold d' in Ho. cbn in Ho. rewrite lookup_insert_eq in Ho.
      injection Ho as <-. cbn. now left.
    + rewrite (Hother x Hne) in Ho. pose proof (Howned x o Ho) as Hown.
      destruct o; cbn in *; [now right | exact Hown | exact Hown].
  - unfold at_ok in *. change (_at d') with (_at d).
    destruct (_at d); [cbn; now right | exact I].
Qed.

(** [get_at_handler] keeps the invariant and leaves one reference of
    the handle it returns to its caller. *)
Lemma get_at_handler_ok (d : Device) (fh : option FileHandle) :
  device_ok d ->
  exists (a : addr) (d' : Device) (h' : Handle.t),
    get_at_handler fh d = Some (Some a, d')
    /\ device_ok d'
    /\ handler_at d' a = Some h'
    /\ Handle.file_handle h' = transport_of d fh
    /\ users d' a < Handle.ref_count h'
    /\ (forall k, slot_of k d' = slot_of k d /\ ref_count_of k d' = ref_count_of k d)
    /\ _context_list d' = _context_list d
    /\ _at d' = _at d
    /\ _fh d' = _fh d.
Proof.
  intros Hok. pose proof (device_ok_pool_live d Hok) as Hlive.
  destruct (pooled_for d (transport_of d fh) (_atHandlers d)) as [a|] eqn:Hpool.
  - destruct (pooled_for_Some d _ _ a Hpool) as (Hin & h & Ha & Hfh).
    destruct (device_ok_handler d a Hok Hin) as (h0 & Ha0 & Hpos & Husers).
    rewrite Ha in Ha0. injection Ha0 as <-.
    destruct (handler_update_ok d a h (Handle.inc_ref_count h) (journal d) Hok Ha)
      as [Hok' Husers']; [reflexivity | cbn; lia | cbn; lia |].
    eexists a, _, (Handle.inc_ref_count h).
    split; [exact (get_at_handler_found d fh a h Hlive Hpool Ha)|].
    split; [exact Hok'|].
    split; [rewrite handler_at_insert; now rewrite decide_True|].
    split; [exact Hfh|].
    split; [rewrite Husers'; cbn; lia|].
    repeat split; try reflexivity; now destruct k.
  - pose proof (get_at_handler_new d fh Hlive Hpool) as Hget. cbv zeta in Hget.
    destruct (handler_new_ok d (transport_of d fh) (new_handler d (transport_of d fh))
                (journal d ++ [Constructed (fresh (dom (objects d)))
                                 (ObjATHandler (Handle.make (transport_of d fh)
                                                  (_default_timeout d)))])
                Hok Hpool eq_refl eq_refl) as [Hok' Husers'].
    eexists _, _, (new_handler d (transport_of d fh)).
    split; [exact Hget|].
    split; [exact Hok'|].
    split; [unfold handler_at; cbn; now rewrite lookup_insert_eq|].
    split; [reflexivity|].
    split; [rewrite Husers'; cbn; lia|].
    repeat split; try reflexivity; now destruct k.
Qed.

Lemma context_users_nonneg (d : Device) (a : addr) : 0 <= context_users d a.
Proof. unfold context_users. lia. Qed.

(** A new subsystem built on a handler that has a reference to
    spare. *)
Lemma subsystem_new_ok (d1 : Device) (k : subsystem) (at_handler : addr)
      (h : Handle.t) (n : Z) :
  device_ok d1 ->
  slot_of k d1 = None ->
  handler_at d1 at_handler = Some h ->
  users d1 at_handler < Handle.ref_count h ->
  1 <= n ->
  device_ok (opened d1 k (fresh (dom (objects d1))) at_handler n).
Proof.
  intros Hok Hslot Hat Hslack Hn.
  set (s := fresh (dom (objects d1))).
  set (d' := opened d1 k s at_handler n).
  assert (Hfresh : objects d1 !! s = None) by (apply not_elem_of_dom, is_fresh).
  assert (Hs' : objects d' !! s = Some (ObjSubsystem k at_handler)).
  { unfold d', opened. cbn. apply lookup_insert_eq. }
  assert (Hother : forall x, x <> s -> objects d' !! x = objects d1 !! x).
  { intros x Hne. unfold d', opened. cbn. now rewrite lookup_insert_ne. }
  assert (Hhandler' : forall x, handler_at d' x = handler_at d1 x).
  { intros x. unfold handler_at. destruct (decide (x = s)) as [->|Hne].
    - now rewrite Hs', Hfresh.
    - now rewrite Hother. }
  assert (Hslot' : slot_of k d' = Some s) by apply opened_slot.
  assert (Hslots' : forall k', k' <> k -> slot_of k' d' = slot_of k' d1).
  { intros k' Hne. unfold d', opened.
    rewrite slot_of_set_ref_count. now rewrite slot_of_set_slot_other. }
  assert (Hcounts' : forall k', k' <> k -> ref_count_of k' d' = ref_count_of k' d1).
  { intros k' Hne. unfold d', opened.
    rewrite ref_count_of_set_ref_count_other by assumption.
    now rewrite ref_count_of_set_slot. }
  assert (Hlive_slot : forall k' s', slot_of k' d1 = Some s' -> s' <> s).
  { intros k' s' Hk' ->. pose proof (device_ok_slot d1 k' Hok) as Hsk.
    unfold slot_ok in Hsk. now rewrite Hk', Hfresh in Hsk. }
  assert (Hlive_ctx : forall c, c ∈ _context_list d1 -> c <> s).
  { intros c Hc ->. pose proof (device_ok_context d1 s Hok Hc) as Hcok.
    unfold context_ok in Hcok. now rewrite Hfresh in Hcok. }
  assert (Hbound : forall x k', k' <> k -> bound_slot d1 k' x = bound_slot d' k' x).
  { intros x k' Hne. symmetry. apply bound_slot_same; [now apply Hslots'|].
    intros s' Hk'. unfold handler_of. rewrite Hother; [reflexivity|].
    now apply (Hlive_slot k'). }
  assert (Hbound_k : forall x, bound_slot d1 k x = false).
  { intros x. unfold bound_slot. now rewrite Hslot. }
  assert (Hbound_k' : forall x,
             Z.b2z (bound_slot d' k x) = if decide (x = at_handler) then 1 else 0).
  { intros x. unfold bound_slot, handler_of. rewrite Hslot', Hs'.
    destruct (decide (x = at_handler)) as [->|Hne].
    - now rewrite bool_decide_eq_true_2.
    - rewrite bool_decide_eq_false_2; [reflexivity | congruence]. }
  assert (Husers : forall x,
             users d' x = users d1 x + if decide (x = at_handler) then 1 else 0).
  { intros x. unfold users.
    pose proof (slot_users_cleared d' d1 k x (Hbound_k x) (Hbound x)) as Hsu.
    rewrite Hbound_k' in Hsu.
    rewrite (context_users_same d1 d' x); [| reflexivity |].
    - change (_at d') with (_at d1). lia.
    - intros c Hc. unfold handler_of. rewrite Hother; [reflexivity|].
      now apply Hlive_ctx. }
  pose proof Hok as (Hnd & Hhandlers & Hfhs & Hslots & Hcnd & Hcontexts & Howned & Hatok).
  rewrite Forall_forall in Hhandlers. rewrite Forall_forall in Hcontexts.
  apply device_ok_intro.
  - exact Hnd.
  - intros x Hx. unfold handler_ok. rewrite Hhandler', Husers.
    pose proof (Hhandlers x Hx) as Hxok. unfold handler_ok in Hxok.
    destruct (decide (x = at_handler)) as [->|Hne].
    + rewrite Hat in *. lia.
    + destruct (handler_at d1 x); [lia | contradiction].
  - replace (omap (fun x => Handle.file_handle <$> handler_at d' x) (_atHandlers d'))
      with (omap (fun x => Handle.file_handle <$> handler_at d1 x) (_atHandlers d1));
      [exact Hfhs|].
    apply omap_pointwise. intros x _. now rewrite Hhandler'.
  - intros k'. unfold slot_ok. destruct (decide (k' = k)) as [->|Hne].
    + rewrite Hslot', Hs'. unfold d'. rewrite opened_ref_count.
      repeat split; [|exact Hn]. exact (handler_pooled d1 at_handler h Hok Hat).
    + rewrite (Hslots' k' Hne), (Hcounts' k' Hne).
      pose proof (device_ok_slot d1 k' Hok) as Hk'. unfold slot_ok in Hk'.
      destruct (slot_of k' d1) as [s'|] eqn:Hsk'; [|exact Hk'].
      rewrite Hother by (now apply (Hlive_slot k')). exact Hk'.
  - exact Hcnd.
  - intros c Hc. pose proof (Hcontexts c Hc) as Hcok. unfold context_ok in *.
    rewrite Hother by (now apply Hlive_ctx). exact Hcok.
  - intros x o Ho. destruct (decide (x = s)) as [->|Hne].
    + rewrite Hs' in Ho. injection Ho as <-. exact Hslot'.
    + rewrite (Hother x Hne) in Ho. pose proof (Howned x o Ho) as Hown.
      destruct o as [hx|k'' at''|at'' apn]; cbn in *; try exact Hown.
      destruct (decide (k'' = k)) as [->|Hk'']; [congruence|].
      now rewrite Hslots'.
  - exact Hatok.
Qed.

(** Counting one more or one less open of an open subsystem. *)
Lemma recount_ok (d : Device) (k : subsystem) (s : addr) (n : Z) :
  device_ok d -> slot_of k d = Some s -> 1 <= n ->
  device_ok (set_ref_count k n d).
Proof.
  intros Hok Hslot Hn.
  pose proof Hok as (Hnd & Hhandlers & Hfhs & Hslots & Hcnd & Hcontexts & Howned & Hatok).
  apply device_ok_intro.
  - exact Hnd.
  - intros x Hx. rewrite Forall_forall in Hhandlers.
    pose proof (Hhandlers x Hx) as Hxok. unfold handler_ok in *.
    change (handler_at (set_ref_count k n d) x) with (handler_at d x).
    replace (users (set_ref_count k n d) x) with (users d x); [exact Hxok|].
    symmetry. apply users_same_refs; auto using slot_of_set_ref_count.
  - exact Hfhs.
  - intros k'. pose proof (device_ok_slot d k' Hok) as Hk'. unfold slot_ok in *.
    rewrite slot_of_set_ref_count.
    change (objects (set_ref_count k n d)) with (objects d).
    change (_atHandlers (set_ref_count k n d)) with (_atHandlers d).
    destruct (decide (k' = k)) as [->|Hne].
    + rewrite ref_count_of_set_ref_count. rewrite Hslot in *.
      destruct (objects d !! s) as [[| |]|]; try contradiction. tauto.
    + now rewrite ref_count_of_set_ref_count_other.
  - exact Hcnd.
  - intros c Hc. rewrite Forall_forall in Hcontexts. exact (Hcontexts c Hc).
  - intros x o Ho. pose proof (Howned x o Ho) as Hown.
    destruct o; exact Hown.
  - exact Hatok.
Qed.

(** [open] keeps the invariant. *)
Lemma open_subsystem_ok (d : Device) (k : subsystem) (fh : option FileHandle) :
  device_ok d ->
  exists (s : addr) (d' : Device),
    open_subsystem k fh d = Some (Some s, d') /\ device_ok d'.
Proof.
  intros Hok. destruct (slot_of k d) as [s|] eqn:Hslot.
  - exists s, (set_ref_count k (ref_count_of k d + 1) d).
    split; [now apply open_subsystem_again|].
    apply (recount_ok d k s); [assumption | assumption |].
    pose proof (device_ok_slot d k Hok) as Hk. unfold slot_ok in Hk.
    rewrite Hslot in Hk. destruct (objects d !! s) as [[| |]|]; try contradiction. lia.
  - destruct (get_at_handler_ok d fh Hok)
      as (a & d1 & h & Hget & Hok1 & Ha & _ & Hslack & Hslots & _).
    pose proof (device_ok_empty_slot d k Hok Hslot) as Hcount.
    destruct (Hslots k) as [Hslot1 Hcount1].
    eexists _, _. split.
    + exact (open_subsystem_first d d1 k fh a Hslot Hget).
    + apply (subsystem_new_ok d1 k a h); try assumption; [congruence | lia].
Qed.

(** The subsystem object deleted and its slot cleared: its handler has
    a reference to give back. *)
Lemma subsystem_delete_ok (d : Device) (k : subsystem) (s at_handler : addr) :
  device_ok d ->
  slot_of k d = Some s ->
  objects d !! s = Some (ObjSubsystem k at_handler) ->
  let dm := slot_cleared d k s (ObjSubsystem k at_handler) in
  device_ok dm
  /\ exists h, handler_at dm at_handler = Some h
               /\ users dm at_handler < Handle.ref_count h.
Proof.
  intros Hok Hslot Hs dm.
  pose proof (device_ok_slot d k Hok) as Hk. unfold slot_ok in Hk.
  rewrite Hslot, Hs in Hk. destruct Hk as (_ & Hin & _).
  destruct (device_ok_handler d at_handler Hok Hin) as (h & Hat & Hpos & Husers).
  assert (Hs' : objects dm !! s = None).
  { unfold dm, slot_cleared. cbn. apply lookup_delete_eq. }
  assert (Hother : forall x, x <> s -> objects dm !! x = objects d !! x).
  { intros x Hne. unfold dm, slot_cleared. cbn. now rewrite lookup_delete_ne. }
  assert (Hhandler' : forall x, handler_at dm x = handler_at d x).
  { intros x. unfold handler_at. destruct (decide (x = s)) as [->|Hne].
    - now rewrite Hs', Hs.
    - now rewrite Hother. }
  assert (Hslot' : slot_of k dm = None) by apply slot_of_set_slot.
  assert (Hslots' : forall k', k' <> k -> slot_of k' dm = slot_of k' d).
  { intros k' Hne. unfold dm, slot_cleared. now rewrite slot_of_set_slot_other. }
  assert (Hcount' : ref_count_of k dm = 0).
  { unfold dm, slot_cleared. rewrite ref_count_of_set_slot.
    change (ref_count_of k (set_ref_count k 0 d) = 0). apply ref_count_of_set_ref_count. }
  assert (Hcounts' : forall k', k' <> k -> ref_count_of k' dm = ref_count_of k' d).
  { intros k' Hne. unfold dm, slot_cleared. rewrite ref_count_of_set_slot.
    change (ref_count_of k' (set_ref_count k 0 d) = ref_count_of k' d).
    now apply ref_count_of_set_ref_count_other. }
  assert (Hslot_apart : forall k' s', k' <> k -> slot_of k' d = Some s' -> s' <> s).
  { intros k' s' Hne Hk' ->. pose proof (device_ok_slot d k' Hok) as Hsk.
    unfold slot_ok in Hsk. rewrite Hk', Hs in Hsk. destruct Hsk as [Heq _]. congruence. }
  assert (Hctx_apart : forall c, c ∈ _context_list d -> c <> s).
  { intros c Hc ->. pose proof (device_ok_context d s Hok Hc) as Hcok.
    unfold context_ok in Hcok. now rewrite Hs in Hcok. }
  assert (Husers' : forall x, users dm x = users d x - Z.b2z (bound_slot d k x)).
  { intros x. unfold users.
    rewrite (slot_users_cleared d dm k x).
    - rewrite (context_users_same d dm x); [change (_at dm) with (_at d); lia | reflexivity |].
      intros c Hc. unfold handler_of. rewrite Hother; [reflexivity|]. now apply Hctx_apart.
    - unfold bound_slot. now rewrite Hslot'.
    - intros k' Hne. apply bound_slot_same; [now apply Hslots'|].
      intros s' Hk'. unfold handler_of. rewrite Hother; [reflexivity|].
      now apply (Hslot_apart k'). }
  assert (Hbound : bound_slot d k at_handler = true).
  { unfold bound_slot, handler_of. rewrite Hslot, Hs. now apply bool_decide_eq_true_2. }
  split.
  2:{ exists h. split; [now rewrite Hhandler'|].
      rewrite Husers', Hbound. cbn. lia. }
  pose proof Hok as (Hnd & Hhandlers & Hfhs & Hslots & Hcnd & Hcontexts & Howned & Hatok).
  rewrite Forall_forall in Hhandlers. rewrite Forall_forall in Hcontexts.
  apply device_ok_intro.
  - exact Hnd.
  - intros x Hx. unfold handler_ok. rewrite Hhandler', Husers'.
    pose proof (Hhandlers x Hx) as Hxok. unfold handler_ok in Hxok.
    destruct (handler_at d x); [|contradiction].
    destruct (bound_slot d k x); cbn; lia.
  - replace (omap (fun x => Handle.file_handle <$> handler_at dm x) (_atHandlers dm))
      with (omap (fun x => Handle.file_handle <$> handler_at d x) (_atHandlers d));
      [exact Hfhs|].
    apply omap_pointwise. intros x _. now rewrite Hhandler'.
  - intros k'. unfold slot_ok. destruct (decide (k' = k)) as [->|Hne].
    + now rewrite Hslot', Hcount'.
    + rewrite (Hslots' k' Hne), (Hcounts' k' Hne).
      pose proof (device_ok_slot d k' Hok) as Hk'. unfold slot_ok in Hk'.
      destruct (slot_of k' d) as [s'|] eqn:Hsk'; [|exact Hk'].
      rewrite Hother by (now apply (Hslot_apart k')). exact Hk'.
  - exact Hcnd.
  - intros c Hc. pose proof (Hcontexts c Hc) as Hcok. unfold context_ok in *.
    rewrite Hother by (now apply Hctx_apart). exact Hcok.
  - intros x o Ho. destruct (decide (x = s)) as [->|Hne]; [congruence|].
    rewrite (Hother x Hne) in Ho. pose proof (Howned x o Ho) as Hown.
    destruct o as [hx|k'' at''|at'' apn]; cbn in *; try exact Hown.
    destruct (decide (k'' = k)) as [->|Hk'']; [congruence|].
    now rewrite Hslots'.
  - exact Hatok.
Qed.

Lemma omap_remove_first_NoDup {B : Type} (f : addr -> option B) (a : addr)
      (l : list addr) :
  NoDup (omap f l) -> NoDup (omap f (remove_first a l)).
Proof.
  induction l as [|x l IH]; cbn; [trivial|].
  destruct (decide (x = a)) as [->|Hne].
  - destruct (f a); [apply NoDup_cons_1_2 | trivial].
  - cbn. destruct (f x) as [y|]; [|exact IH].
    intros Hnd. apply NoDup_cons in Hnd as [Hy Hnd].
    constructor; [|now apply IH].
    rewrite list_elem_of_omap in *. intros (z & Hz & Hfz). apply Hy.
    exists z. split; [|exact Hfz]. eapply remove_first_elem, Hz.
Qed.

Lemma context_users_bound (d : Device) (c a : addr) :
  c ∈ _context_list d -> handler_of d c = Some a -> 1 <= context_users d a.
Proof.
  intros Hc Hh. unfold context_users.
  assert (Hin : c ∈ filter (fun c' => handler_of d c' = Some a) (_context_list d))
    by (now apply list_elem_of_filter).
  destruct (filter _ _) as [|y l]; [now apply not_elem_of_nil in Hin|].
  cbn. lia.
Qed.

Lemma slot_users_bound (d : Device) (k : subsystem) (a : addr) :
  bound_slot d k a = true -> 1 <= slot_users d a.
Proof.
  intros Hk. unfold slot_users.
  destruct k; rewrite Hk;
    repeat match goal with
      | |- context [Z.b2z (bound_slot d ?x a)] => destruct (bound_slot d x a)
      end; cbn; lia.
Qed.

(** A handler nothing refers to, unlinked and deleted. *)
Lemma handler_delete_ok (d : Device) (a : addr) (h : Handle.t)
      (j : list heap_event) :
  device_ok d ->
  handler_at d a = Some h ->
  users d a = 0 ->
  device_ok (set_atHandlers (remove_first a (_atHandlers d))
               (set_memory (delete a (objects d)) j d)).
Proof.
  intros Hok Ha Hunused.
  set (d' := set_atHandlers (remove_first a (_atHandlers d))
               (set_memory (delete a (objects d)) j d)).
  apply handler_at_Some in Ha as Hobj.
  pose proof Hok as (Hnd & Hhandlers & Hfhs & Hslots & Hcnd & Hcontexts & Howned & Hatok).
  rewrite Forall_forall in Hhandlers. rewrite Forall_forall in Hcontexts.
  destruct (remove_first_NoDup a _ Hnd) as [Hnd' Hnotin'].
  pose proof (slot_users_nonneg d a) as Hsn.
  pose proof (context_users_nonneg d a) as Hcn.
  assert (Hsu : slot_users d a = 0 /\ context_users d a = 0 /\ _at d <> Some a).
  { unfold users in Hunused. destruct (decide (_at d = Some a)); [lia|].
    repeat split; [lia | lia | assumption]. }
  destruct Hsu as (Hsu & Hcu & Hatne).
  assert (Ha' : objects d' !! a = None).
  { unfold d'. cbn. apply lookup_delete_eq. }
  assert (Hother : forall x, x <> a -> objects d' !! x = objects d !! x).
  { intros x Hne. unfold d'. cbn. now rewrite lookup_delete_ne. }
  assert (Hrefs : forall p, handler_of d' p = handler_of d p).
  { intros p. unfold handler_of. destruct (decide (p = a)) as [->|Hne].
    - now rewrite Ha', Hobj.
    - now rewrite Hother. }
  assert (Husers' : forall x, users d' x = users d x).
  { intros x. apply users_same_refs; auto. }
  assert (Hpool' : forall x, x ∈ _atHandlers d -> x <> a -> x ∈ _atHandlers d').
  { intros x Hx Hne. unfold d'. cbn. now apply remove_first_other. }
  apply device_ok_intro.
  - exact Hnd'.
  - intros x Hx. unfold handler_ok. rewrite Husers'.
    assert (Hne : x <> a) by (intros ->; contradiction).
    unfold handler_at. rewrite (Hother x Hne).
    apply (Hhandlers x). eapply remove_first_elem, Hx.
  - replace (omap (fun x => Handle.file_handle <$> handler_at d' x) (_atHandlers d'))
      with (omap (fun x => Handle.file_handle <$> handler_at d x)
                 (remove_first a (_atHandlers d))).
    + now apply omap_remove_first_NoDup.
    + apply omap_pointwise. intros x Hx.
      assert (Hne : x <> a) by (intros ->; contradiction).
      unfold handler_at. now rewrite (Hother x Hne).
  - intros k. pose proof (device_ok_slot d k Hok) as Hk. unfold slot_ok in *.
    change (slot_of k d') with (slot_of k d).
    change (ref_count_of k d') with (ref_count_of k d).
    destruct (slot_of k d) as [s|] eqn:Hslot; [|exact Hk].
    destruct (decide (s = a)) as [->|Hne]; [now rewrite Hobj in Hk|].
    rewrite (Hother s Hne).
    destruct (objects d !! s) as [[| k' at_handler|]|] eqn:Hs; try contradiction.
    destruct Hk as (Hk1 & Hk2 & Hk3). repeat split; try assumption.
    apply Hpool'; [exact Hk2|]. intros ->.
    assert (Hb : bound_slot d k a = true).
    { unfold bound_slot, handler_of. rewrite Hslot, Hs. now apply bool_decide_eq_true_2. }
    pose proof (slot_users_bound d k a Hb). lia.
  - exact Hcnd.
  - intros c Hc. pose proof (Hcontexts c Hc) as Hcok. unfold context_ok in *.
    destruct (decide (c = a)) as [->|Hne]; [now rewrite Hobj in Hcok|].
    rewrite (Hother c Hne).
    destruct (objects d !! c) as [[| |at_handler apn]|] eqn:Hcobj; try contradiction.
    apply Hpool'; [exact Hcok|]. intros ->.
    assert (Hb : handler_of d c = Some a) by (unfold handler_of; now rewrite Hcobj).
    pose proof (context_users_bound d c a Hc Hb). lia.
  - intros x o Ho. destruct (decide (x = a)) as [->|Hne]; [congruence|].
    rewrite (Hother x Hne) in Ho. pose proof (Howned x o Ho) as Hown.
    destruct o as [hx|k'' at''|at'' apn]; cbn in *; try exact Hown.
    now apply Hpool'.
  - unfold at_ok in *. change (_at d') with (_at d).
    destruct (_at d) as [a0|]; [|exact I].
    apply Hpool'; [exact Hatok | congruence].
Qed.

Lemma users_nonneg (d : Device) (a : addr) : 0 <= users d a.
Proof.
  unfold users. pose proof (slot_users_nonneg d a).
  pose proof (context_users_nonneg d a).
  destruct (decide (_at d = Some a)); lia.
Qed.

(** [release_at_handler] keeps the invariant when the handle has a
    reference to give back. *)
Lemma release_at_handler_ok (d : Device) (a : addr) (h : Handle.t) :
  device_ok d ->
  handler_at d a = Some h ->
  users d a < Handle.ref_count h ->
  exists d' : Device,
    release_at_handler (Some a) d = Some (tt, d')
    /\ device_ok d'
    /\ (forall k, slot_of k d' = slot_of k d /\ ref_count_of k d' = ref_count_of k d)
    /\ _context_list d' = _context_list d.
Proof.
  intros Hok Ha Hslack.
  pose proof (handler_pooled d a h Hok Ha) as Hin.
  destruct (device_ok_handler d a Hok Hin) as (h0 & Ha0 & Hpos & _).
  rewrite Ha in Ha0. injection Ha0 as <-.
  destruct (decide (Handle.ref_count h = 1)) as [Hone|Hmany].
  - eexists. split.
    + exact (release_at_handler_last d a h (device_ok_pool_live d Hok) Hin Ha Hone).
    + split; [|repeat split; try reflexivity; now destruct k].
      apply (handler_delete_ok d a h); [assumption | assumption |].
      pose proof (users_nonneg d a). lia.
  - eexists. split.
    + exact (release_at_handler_shared d a h Ha Hmany).
    + split; [|repeat split; try reflexivity; now destruct k].
      apply (handler_update_ok d a h (Handle.dec_ref_count h)); try assumption;
        [reflexivity | cbn; lia | cbn; lia].
Qed.

Lemma close_subsystem_count (d : Device) (k : subsystem) (s : addr) :
  slot_of k d = Some s ->
  ref_count_of k d <> 1 ->
  close_subsystem k d = Some (tt, set_ref_count k (ref_count_of k d - 1) d).
Proof.
  intros Hslot Hcount. unfold close_subsystem. run_device.
  rewrite Hslot. run_device. rewrite ref_count_of_set_ref_count.
  destruct (Z.eqb_spec (ref_count_of k d - 1) 0); [lia | reflexivity].
Qed.

(** [close] keeps the invariant. *)
Lemma close_subsystem_ok (d : Device) (k : subsystem) :
  device_ok d ->
  exists d' : Device, close_subsystem k d = Some (tt, d') /\ device_ok d'.
Proof.
  intros Hok. destruct (slot_of k d) as [s|] eqn:Hslot.
  2:{ exists d. split; [|exact Hok].
      unfold close_subsystem. run_device. now rewrite Hslot. }
  pose proof (device_ok_slot d k Hok) as Hk. unfold slot_ok in Hk.
  rewrite Hslot in Hk.
  destruct (objects d !! s) as [[| k0 at_handler|]|] eqn:Hs; try contradiction.
  destruct Hk as (-> & Hin & Hpos).
  destruct (decide (ref_count_of k d = 1)) as [Hone|Hmany].
  - rewrite (close_subsystem_release d k s at_handler k Hslot Hone Hs).
    destruct (subsystem_delete_ok d k s at_handler Hok Hslot Hs)
      as (Hokm & h & Hat & Hslack).
    destruct (release_at_handler_ok _ at_handler h Hokm Hat Hslack) as (d' & Hrel & Hok' & _).
    exists d'. split; assumption.
  - exists (set_ref_count k (ref_count_of k d - 1) d).
    split; [now apply (close_subsystem_count d k s)|].
    apply (recount_ok d k s); [assumption | assumption | lia].
Qed.

Lemma walk_context_list_live (d : Device) (l : list addr) :
  (forall c, c ∈ l -> context_ok d c) ->
  walk_context_list l d = Some (tt, d).
Proof.
  induction l as [|c l IH]; intros Hlive; [reflexivity|].
  cbn [walk_context_list]. run_device.
  pose proof (Hlive c ltac:(now left)) as Hc. unfold context_ok in Hc.
  destruct (objects d !! c) as [[| |at_handler apn]|]; try contradiction.
  apply IH. intros c' Hc'. apply Hlive. now right.
Qed.

(** What [create_context] does to a device in good order. *)
Lemma create_context_run (d d1 : Device) (fh : option FileHandle)
      (apn : option string) (at_handler : addr) :
  (forall c, c ∈ _context_list d1 -> context_ok d1 c) ->
  get_at_handler fh d = Some (Some at_handler, d1) ->
  let c := fresh (dom (objects d1)) in
  create_context fh apn d
  = Some (Some c,
          set_context_list (_context_list d1 ++ [c])
            (set_memory (<[c := ObjContext at_handler apn]> (objects d1))
               (journal d1 ++ [Constructed c (ObjContext at_handler apn)]) d1)).
Proof.
  intros Hlive Hget c. unfold create_context. run_device. rewrite Hget. run_device.
  fold c. destruct (_context_list d1) as [|c0 l] eqn:Hlist; [reflexivity|].
  run_device.
  rewrite walk_context_list_live.
  - reflexivity.
  - intros c' Hc'. specialize (Hlive c' Hc'). unfold context_ok in *.
    cbn [objects _atHandlers set_memory].
    assert (Hne : c' <> c).
    { intros ->. assert (Hfresh : objects d1 !! c = None) by (apply not_elem_of_dom, is_fresh).
      now rewrite Hfresh in Hlive. }
    now rewrite lookup_insert_ne by congruence.
Qed.

(** A new context built on a handler that has a reference to spare. *)
Lemma context_new_ok (d1 : Device) (at_handler : addr) (h : Handle.t)
      (apn : option string) (j : list heap_event) :
  device_ok d1 ->
  handler_at d1 at_handler = Some h ->
  users d1 at_handler < Handle.ref_count h ->
  let c := fresh (dom (objects d1)) in
  device_ok (set_context_list (_context_list d1 ++ [c])
               (set_memory (<[c := ObjContext at_handler apn]> (objects d1)) j d1)).
Proof.
  intros Hok Hat Hslack c.
  set (d' := set_context_list (_context_list d1 ++ [c])
               (set_memory (<[c := ObjContext at_handler apn]> (objects d1)) j d1)).
  assert (Hfresh : objects d1 !! c = None) by (apply not_elem_of_dom, is_fresh).
  assert (Hc' : objects d' !! c = Some (ObjContext at_handler apn)).
  { unfold d'. cbn. apply lookup_insert_eq. }
  assert (Hother : forall x, x <> c -> objects d' !! x = objects d1 !! x).
  { intros x Hne. unfold d'. cbn. now rewrite lookup_insert_ne. }
  assert (Hhandler' : forall x, handler_at d' x = handler_at d1 x).
  { intros x. unfold handler_at. destruct (decide (x = c)) as [->|Hne].
    - now rewrite Hc', Hfresh.
    - now rewrite Hother. }
  assert (Hlive_slot : forall k' s', slot_of k' d1 = Some s' -> s' <> c).
  { intros k' s' Hk' ->. pose proof (device_ok_slot d1 k' Hok) as Hsk.
    unfold slot_ok in Hsk. now rewrite Hk', Hfresh in Hsk. }
  assert (Hlive_ctx : forall x, x ∈ _context_list d1 -> x <> c).
  { intros x Hx ->. pose proof (device_ok_context d1 c Hok Hx) as Hcok.
    unfold context_ok in Hcok. now rewrite Hfresh in Hcok. }
  assert (Husers : forall x,
             users d' x = users d1 x + if decide (x = at_handler) then 1 else 0).
  { intros x. unfold users. change (_at d') with (_at d1).
    rewrite (slot_users_same d1 d' x).
    2:{ intros k. apply bound_slot_same; [reflexivity|].
        intros s Hs. unfold handler_of. rewrite Hother; [reflexivity|].
        now apply (Hlive_slot k). }
    assert (Hcu : context_users d' x
                  = context_users d1 x + if decide (x = at_handler) then 1 else 0).
    { unfold context_users. cbn [d' _context_list set_context_list]. fold d'.
      rewrite filter_app, length_app, Nat2Z.inj_add.
      f_equal.
      - f_equal. f_equal.
        assert (Hext : forall l : list addr, (forall y, y ∈ l -> y <> c) ->
                   filter (fun y => handler_of d' y = Some x) l
                   = filter (fun y => handler_of d1 y = Some x) l).
        { induction l as [|y l IH]; intros Hl; [reflexivity|].
          assert (Hy : handler_of d' y = handler_of d1 y).
          { unfold handler_of. rewrite (Hother y); [reflexivity|]. apply Hl. now left. }
          rewrite !filter_cons, Hy.
          rewrite IH by (intros z Hz; apply Hl; now right). reflexivity. }
        now apply Hext.
      - rewrite filter_cons, filter_nil. unfold handler_of. rewrite Hc'.
        destruct (decide (x = at_handler)) as [->|Hne].
        + now rewrite decide_True.
        + rewrite decide_False; [reflexivity | congruence]. }
    rewrite Hcu. lia. }
  pose proof Hok as (Hnd & Hhandlers & Hfhs & Hslots & Hcnd & Hcontexts & Howned & Hatok).
  rewrite Forall_forall in Hhandlers. rewrite Forall_forall in Hcontexts.
  apply device_ok_intro.
  - exact Hnd.
  - intros x Hx. unfold handler_ok. rewrite Hhandler', Husers.
    pose proof (Hhandlers x Hx) as Hxok. unfold handler_ok in Hxok.
    destruct (decide (x = at_handler)) as [->|Hne].
    + rewrite Hat in *. lia.
    + destruct (handler_at d1 x); [lia | contradiction].
  - replace (omap (fun x => Handle.file_handle <$> handler_at d' x) (_atHandlers d'))
      with (omap (fun x => Handle.file_handle <$> handler_at d1 x) (_atHandlers d1));
      [exact Hfhs|].
    apply omap_pointwise. intros x _. now rewrite Hhandler'.
  - intros k. pose proof (device_ok_slot d1 k Hok) as Hk. unfold slot_ok in *.
    change (slot_of k d') with (slot_of k d1).
    change (ref_count_of k d') with (ref_count_of k d1).
    destruct (slot_of k d1) as [s|] eqn:Hsk; [|exact Hk].
    rewrite Hother by (now apply (Hlive_slot k)). exact Hk.
  - cbn. apply NoDup_app. split; [exact Hcnd|]. split.
    + intros x Hx Hxc. apply list_elem_of_singleton in Hxc. now apply (Hlive_ctx x).
    + apply NoDup_singleton.
  - intros x Hx. cbn in Hx. apply elem_of_app in Hx as [Hx|Hx].
    + pose proof (Hcontexts x Hx) as Hcok. unfold context_ok in *.
      rewrite Hother by (now apply Hlive_ctx). exact Hcok.
    + apply list_elem_of_singleton in Hx as ->. unfold context_ok. rewrite Hc'.
      exact (handler_pooled d1 at_handler h Hok Hat).
  - intros x o Ho. destruct (decide (x = c)) as [->|Hne].
    + rewrite Hc' in Ho. injection Ho as <-. cbn. apply elem_of_app. right.
      now apply list_elem_of_singleton.
    + rewrite (Hother x Hne) in Ho. pose proof (Howned x o Ho) as Hown.
      destruct o as [hx|k'' at''|at'' apn']; cbn in *; try exact Hown.
      apply elem_of_app. now left.
  - exact Hatok.
Qed.

(** [create_context] keeps the invariant. *)
Lemma create_context_ok (d : Device) (fh : option FileHandle) (apn : option string) :
  device_ok d ->
  exists (c : addr) (d' : Device),
    create_context fh apn d = Some (Some c, d') /\ device_ok d'.
Proof.
  intros Hok.
  destruct (get_at_handler_ok d fh Hok)
    as (a & d1 & h & Hget & Hok1 & Ha & _ & Hslack & _).
  eexists _, _. split.
  - apply (create_context_run d d1 fh apn a); [|exact Hget].
    intros c Hc. now apply device_ok_context.
  - now apply (context_new_ok d1 a h).
Qed.

(** The constructor builds a device in good order. *)
Lemma AT_CellularDevice_new_ok (fh : FileHandle) :
  exists d : Device, AT_CellularDevice_new fh = Some d /\ device_ok d.
Proof.
  assert (Hok0 : device_ok (initial_members fh)).
  { apply device_ok_intro; cbn; try constructor.
    - intros x Hx. now apply not_elem_of_nil in Hx.
    - intros k. now destruct k.
    - intros c Hc. now apply not_elem_of_nil in Hc.
    - intros x o Ho. now rewrite lookup_empty in Ho. }
  destruct (get_at_handler_ok (initial_members fh) (Some fh) Hok0)
    as (a & d1 & h & Hget & Hok1 & Ha & _ & Hslack & Hslots & Hctx & Hat & _).
  exists (set_at (Some a) d1). split.
  { unfold AT_CellularDevice_new. now rewrite Hget. }
  assert (Hat1 : _at d1 = None) by (rewrite Hat; reflexivity).
  assert (Husers : forall x,
             users (set_at (Some a) d1) x
             = users d1 x + if decide (x = a) then 1 else 0).
  { intros x. unfold users. cbn [_at set_at]. rewrite Hat1.
    rewrite (slot_users_same d1 (set_at (Some a) d1) x) by reflexivity.
    rewrite (context_users_same d1 (set_at (Some a) d1) x) by reflexivity.
    rewrite (decide_False (P := None = Some x)) by discriminate.
    destruct (decide (x = a)) as [->|Hne].
    - rewrite decide_True by reflexivity. lia.
    - rewrite decide_False; [lia | congruence]. }
  pose proof Hok1 as (Hnd & Hhandlers & Hfhs & Hslots1 & Hcnd & Hcontexts & Howned & Hatok).
  rewrite Forall_forall in Hhandlers. rewrite Forall_forall in Hcontexts.
  apply device_ok_intro.
  - exact Hnd.
  - intros x Hx. unfold handler_ok. rewrite Husers.
    change (handler_at (set_at (Some a) d1) x) with (handler_at d1 x).
    pose proof (Hhandlers x Hx) as Hxok. unfold handler_ok in Hxok.
    destruct (decide (x = a)) as [->|Hne].
    + rewrite Ha in *. lia.
    + destruct (handler_at d1 x); [lia | contradiction].
  - exact Hfhs.
  - intros k. exact (device_ok_slot d1 k Hok1).
  - exact Hcnd.
  - intros c Hc. exact (Hcontexts c Hc).
  - intros x o Ho. exact (Howned x o Ho).
  - unfold at_ok. cbn. exact (handler_pooled d1 a h Hok1 Ha).
Qed.

(** Every call keeps the invariant, and none is undefined. *)
Lemma perform_ok (d : Device) (c : device_call) :
  device_ok d ->
  exists d' : Device, perform c d = Some (tt, d') /\ device_ok d'.
Proof.
  intros Hok. destruct c as [k fh|k|fh apn|fh]; cbn [perform]; run_device.
  - destruct (open_subsystem_ok d k fh Hok) as (s & d' & Hrun & Hok').
    exists d'. now rewrite Hrun.
  - exact (close_subsystem_ok d k Hok).
  - destruct (create_context_ok d fh apn Hok) as (c & d' & Hrun & Hok').
    exists d'. now rewrite Hrun.
  - destruct (get_at_handler_ok d fh Hok) as (a & d' & h & Hrun & Hok' & _).
    exists d'. now rewrite Hrun.
Qed.

Lemma perform_all_ok (d : Device) (cs : list device_call) :
  device_ok d ->
  exists d' : Device, perform_all cs d = Some (tt, d') /\ device_ok d'.
Proof.
  revert d. induction cs as [|c cs IH]; intros d Hok.
  - exists d. now split.
  - destruct (perform_ok d c Hok) as (d1 & Hrun1 & Hok1).
    destruct (IH d1 Hok1) as (d' & Hrun & Hok').
    exists d'. split; [|exact Hok'].
    cbn [perform_all]. run_device. now rewrite Hrun1.
Qed.

(** C9.  Destroying a device whose subsystems and contexts were never
    closed frees every resource: whatever the opens, closes, context
    creations and handle acquisitions made on a device since its
    construction, the destructor runs without touching a dead object and
    leaves an empty heap, so that no handler remains (the pool has
    length 0) and no subsystem or context either; it does so by forcing
    the four counters to 1 before the closes and by walking the context
    list and the pool. *)
Theorem destructor_frees_everything (fh : FileHandle) (calls : list device_call) :
  exists (d0 d : Device) (j : list heap_event),
    AT_CellularDevice_new fh = Some d0
    /\ perform_all calls d0 = Some (tt, d)
    /\ AT_CellularDevice_delete d = Some (∅, j).
Proof.
  destruct (AT_CellularDevice_new_ok fh) as (d0 & Hnew & Hok0).
  destruct (perform_all_ok d0 calls Hok0) as (d & Hrun & Hok).
  destruct (destructor_leaves_nothing d Hok) as (j & Hdelete).
  exists d0, d, j. repeat split; assumption.
Qed.

(** The device of the sample, three subsystem opens and a context
    outstanding, is freed whole. *)
Lemma destructor_frees_busy_device :
  let d := SampleDevice.busy_device in
  device_ok d
  /\ (_network d <> None /\ _network_ref_count d = 2
      /\ _sms d <> None /\ _context_list d <> [] /\ size (objects d) = 5%nat)
  /\ exists j : list heap_event, AT_CellularDevice_delete d = Some (∅, j).
Proof.
  intros d.
  assert (Hok : device_ok d) by (apply (bool_decide_unpack _); vm_compute; exact I).
  split; [exact Hok|]. split.
  - repeat split; vm_compute; (discriminate || reflexivity).
  - exact (destructor_leaves_nothing d Hok).
Qed.


(** * Further properties of the member functions *)

(** ** The readiness probe and the lock *)

Section Probe.

Import ATHandler.

(** One run of [is_ready]: the operations issued and the code
    returned. *)
Lemma is_ready_run (w : io) :
  let w1 := after (Lock :: probe) w in
  let out := is_ready w in
  calls (snd out)
  = calls w ++ Lock :: probe ++ ClearError :: probe ++ [UnlockReturnError]
  /\ fst out = last_error (after probe (cleared w1))
  /\ trace_out (snd out) = trace_out w.
Proof.
  destruct w as [m cs e tr]. intros w1 out. subst w1 out.
  unfold cleared, probe. run_engine.
  rewrite <- !app_assoc. cbn [app]. repeat split; reflexivity.
Qed.

(** X1.  [is_ready] sends the probe AT twice under one lock, with
    [clear_error] in between, and returns the status of the second probe
    alone: the code is what the modem makes of the second exchange starting
    from a cleared error, so that neither an error recorded before the call
    nor the outcome of the first probe shows in it. *)
Theorem is_ready_second_probe (m : Modem) (cs : list call) (e : nsapi_error_t)
        (tr : list trace_msg) :
  let w := {| modem := m; calls := cs; last_error := e; trace_out := tr |} in
  let history := cs ++ Lock :: probe ++ [ClearError] in
  let out := is_ready w in
  calls (snd out)
  = cs ++ Lock :: probe ++ ClearError :: probe ++ [UnlockReturnError]
  /\ fst out
     = error_after m (history ++ probe)
         (error_after m (history ++ [CmdStart "AT"]) NSAPI_ERROR_OK)
  /\ (forall (e' : nsapi_error_t) (tr' : list trace_msg),
        fst (is_ready {| modem := m; calls := cs; last_error := e';
                         trace_out := tr' |})
        = fst out)
  /\ trace_out (snd out) = tr.
Proof.
  intros w history out.
  assert (Hcode : forall e' tr',
             fst (is_ready {| modem := m; calls := cs; last_error := e';
                              trace_out := tr' |})
             = error_after m (history ++ probe)
                 (error_after m (history ++ [CmdStart "AT"]) NSAPI_ERROR_OK)).
  { intros e' tr'. subst history. unfold probe. run_engine.
    rewrite <- !app_assoc. reflexivity. }
  destruct (is_ready_run w) as (Hcalls & _ & Htrace).
  split; [exact Hcalls|].
  split; [exact (Hcode e tr)|].
  split; [|exact Htrace].
  intros e' tr'. subst out w. now rewrite !Hcode.
Qed.

(** With a modem that fails the first command it is sent, whatever
    the code [err], one probe reports the failure and [is_ready] reports
    success. *)
Lemma is_ready_after_data_mode (err : nsapi_error_t) :
  let w := init (Sample.modem_waking err) in
  last_error (after (Lock :: probe) w) = err
  /\ fst (is_ready w) = NSAPI_ERROR_OK.
Proof. split; reflexivity. Qed.

(** The operations a call of [set_power_save_mode] issues, in both of
    its branches. *)
Lemma set_power_save_mode_calls (periodic_time active_time : Z) (w : io) :
  exists cs : list call,
    calls (snd (set_power_save_mode periodic_time active_time w)) = calls w ++ cs
    /\ lock_after false cs = Some false.
Proof.
  destruct (decide (periodic_time = 0 /\ active_time = 0)) as [[-> ->]|Hnz].
  - exists (disable_exchange ++ [UnlockReturnError]).
    split; [apply set_power_save_mode_disable | reflexivity].
  - assert (Hor : periodic_time <> 0 \/ active_time <> 0) by lia.
    destruct (set_power_save_mode_not_both_zero periodic_time active_time w Hor)
      as (_ & Hcalls & _).
    eexists. split; [exact Hcalls | reflexivity].
Qed.

(** X2.  Each of the four device-wide operations brackets what it
    sends: the operations it issues on the engine begin with [lock], none
    is issued while the lock is not held, the lock is never taken twice,
    and it is released when the call returns, on every path (the early
    returns of [set_pin] included). *)
Theorem operations_bracketed (trace_enable : bool) (sim_pin : option string)
        (periodic_time active_time : Z) (w : io) :
  (exists cs : list call,
      calls (snd (get_sim_state trace_enable w)) = calls w ++ cs
      /\ lock_after false cs = Some false)
  /\ (exists cs : list call,
         calls (snd (set_pin trace_enable sim_pin w)) = calls w ++ cs
         /\ lock_after false cs = Some false)
  /\ (exists cs : list call,
         calls (snd (is_ready w)) = calls w ++ cs
         /\ lock_after false cs = Some false)
  /\ (exists cs : list call,
         calls (snd (set_power_save_mode periodic_time active_time w)) = calls w ++ cs
         /\ lock_after false cs = Some false).
Proof.
  destruct (get_sim_state_run trace_enable w) as (_ & _ & Hquery).
  split; [|split; [|split]].
  - eexists. split; [exact Hquery | reflexivity].
  - pose proof (set_pin_after_query trace_enable sim_pin w) as Hpin.
    cbv zeta in Hpin.
    destruct ((fst (fst (get_sim_state trace_enable w)) =? NSAPI_ERROR_OK)
              && bool_decide (snd (fst (get_sim_state trace_enable w)) = SimStateReady)).
    + rewrite Hpin. eexists. split; [exact Hquery | reflexivity].
    + destruct sim_pin as [pin|].
      * destruct Hpin as [_ Hcalls]. rewrite Hcalls, Hquery.
        exists (sim_query_exchange ++ [GetLastError; Unlock]
                ++ pin_exchange pin ++ [UnlockReturnError]).
        split; [now rewrite <- !app_assoc | reflexivity].
      * rewrite Hpin. eexists. split; [exact Hquery | reflexivity].
  - destruct (is_ready_run w) as (Hcalls & _).
    eexists. split; [exact Hcalls | reflexivity].
  - apply set_power_save_mode_calls.
Qed.

End Probe.

(** ** The durations the fields stand for *)

Section Decoding.

Import PSM.

Lemma covering_periodic_unit_reach (t : Z) :
  let u := covering_periodic_unit t in
  (u <> T3_320h /\ t <= 31 * timer3_seconds u)
  \/ (u = T3_320h /\ 31 * timer3_seconds T3_10h < t).
Proof.
  unfold covering_periodic_unit, timer3_order.
  cbn [List.find timer3_seconds].
  repeat (match goal with
          | |- context [ ?a <=? ?b ] => destruct (Z.leb_spec a b)
          end; [cbn [default from_option id timer3_seconds]; left; split;
                  [discriminate | lia] |]).
  cbn [default from_option id timer3_seconds]. right. split; [reflexivity | lia].
Qed.

Lemma covering_active_unit_reach (t : Z) :
  let u := covering_active_unit t in
  (u <> T2_decihour /\ t <= 31 * timer2_seconds u)
  \/ (u = T2_decihour /\ 31 * timer2_seconds T2_1min < t).
Proof.
  unfold covering_active_unit.
  cbn [List.find timer2_seconds].
  repeat (match goal with
          | |- context [ ?a <=? ?b ] => destruct (Z.leb_spec a b)
          end; [cbn [default from_option id timer2_seconds]; left; split;
                  [discriminate | lia] |]).
  cbn [default from_option id timer2_seconds]. right. split; [reflexivity | lia].
Qed.

Lemma timer3_value_field (u : timer3_unit) (m : Z) :
  0 <= m <= 31 ->
  timer3_value (timer3_tag u +:+ uint_to_binary_str m 5) = Some (timer3_seconds u * m).
Proof.
  intros Hm. unfold timer3_value.
  now rewrite timer3_of_tag_field, magnitude_of_field3.
Qed.

Lemma timer2_of_tag_field (u : timer2_unit) (m : Z) :
  timer2_of_tag (tag_of (timer2_tag u +:+ uint_to_binary_str m 5)) = Some u.
Proof. destruct u; reflexivity. Qed.

Lemma timer2_value_field (u : timer2_unit) (m : Z) :
  0 <= m <= 31 ->
  timer2_value (timer2_tag u +:+ uint_to_binary_str m 5) = Some (timer2_seconds u * m).
Proof.
  intros Hm. unfold timer2_value.
  now rewrite timer2_of_tag_field, magnitude_of_field2.
Qed.

(** A quotient rounded down and capped at 31 steps. *)
Lemma capped_steps (t s : Z) :
  0 <= t -> 0 < s ->
  s * Z.min (t / s) 31 = Z.min (t - t mod s) (31 * s)
  /\ 0 <= t - t mod s <= t
  /\ t - (t - t mod s) < s.
Proof.
  intros Ht Hs.
  pose proof (Z.div_mod t s ltac:(lia)) as Hdm.
  pose proof (Z.mod_pos_bound t s Hs) as Hmod.
  assert (Hq : 0 <= t / s) by (apply Z.div_pos; lia).
  repeat split; try lia.
  destruct (Z.min_spec (t / s) 31) as [[Hlt ->]|[Hge ->]]; nia.
Qed.

(** X3.  The periodic field never stands for more than the duration
    asked for ("timeout is not longer than requested"): read back with
    the table of the source, the field [pt] of a duration [t >= 0] gives
    [t] rounded down to a multiple of the unit chosen, capped at 31 units;
    it falls short of [t] by less than one unit as long as [t] is below
    32 times 320 hours, and it is [t] itself when [t] is a multiple of
    the unit. *)
Theorem periodic_field_not_longer (t : Z) :
  0 <= t ->
  let u := covering_periodic_unit t in
  let s := timer3_seconds u in
  exists v : Z,
    timer3_value (pt t) = Some v
    /\ v = Z.min (t - t mod s) (31 * s)
    /\ 0 <= v <= t
    /\ (t < 32 * timer3_seconds T3_320h -> t - v < s)
    /\ (t mod s = 0 -> t <= 31 * s -> v = t).
Proof.
  intros Ht u s.
  assert (Hs : 0 < s) by (subst s; destruct u; cbn; lia).
  pose proof (periodic_magnitude_range t Ht) as Hrange. fold u in Hrange.
  destruct (capped_steps t s Ht Hs) as (Hcap & Hdown & Hshort).
  assert (Hm : s * periodic_magnitude t u = Z.min (t - t mod s) (31 * s)).
  { destruct (covering_periodic_unit_reach t) as [[Hu Hreach]|[Hu Hfar]];
      fold u in Hu, Hreach || fold u in Hu.
    - assert (Hmag : periodic_magnitude t u = t / s)
        by (subst s; destruct u; try reflexivity; now destruct Hu).
      rewrite Hmag. fold s in Hreach.
      pose proof (Z.div_mod t s ltac:(lia)) as Hdm. lia.
    - subst s. rewrite Hu. cbn [periodic_magnitude]. rewrite <- Hu. exact Hcap. }
  exists (s * periodic_magnitude t u).
  split; [rewrite (pt_field t Ht); now apply timer3_value_field|].
  split; [exact Hm|]. rewrite Hm.
  split; [lia|]. split.
  - intros Hbelow.
    destruct (covering_periodic_unit_reach t) as [[Hu Hreach]|[Hu Hfar]];
      fold u in Hu, Hreach || fold u in Hu.
    + fold s in Hreach. lia.
    + assert (Hsecs : s = timer3_seconds T3_320h) by (subst s; now rewrite Hu).
      change (timer3_seconds T3_320h) with 1152000 in Hbelow, Hsecs.
      assert (t / s < 32) by (apply Z.div_lt_upper_bound; lia).
      pose proof (Z.div_mod t s ltac:(lia)) as Hdm.
      pose proof (Z.mod_pos_bound t s Hs) as Hmod. lia.
  - intros Hmul Hreach. lia.
Qed.

Lemma periodic_field_not_longer_witness :
  exists v : Z,
    timer3_value (pt 1000000) = Some v
    /\ v = 972000
    /\ 0 <= v <= 1000000
    /\ 1000000 - v < timer3_seconds T3_10h.
Proof.
  destruct (periodic_field_not_longer 1000000) as (v & Hv & Heq & Hle & Hshort & _);
    [lia|].
  exists v. split; [exact Hv|]. split; [exact Heq|]. split; [exact Hle|].
  apply Hshort. vm_compute. reflexivity.
Defined.

(** X4.  The active field never stands for more than the duration
    asked for either: it gives [t] rounded down to a multiple of the unit
    chosen (2 seconds, 1 minute or 6 minutes), capped at 31 units, the
    tag bit the code puts into [active_timer] in the one-minute unit
    being dropped by the five-bit conversion. *)
Theorem active_field_not_longer (t : Z) :
  0 <= t ->
  let u := covering_active_unit t in
  let s := timer2_seconds u in
  exists v : Z,
    timer2_value (at_ t) = Some v
    /\ v = Z.min (t - t mod s) (31 * s)
    /\ 0 <= v <= t
    /\ (t < 32 * timer2_seconds T2_decihour -> t - v < s)
    /\ (t mod s = 0 -> t <= 31 * s -> v = t).
Proof.
  intros Ht u s.
  assert (Hs : 0 < s) by (subst s; destruct u; cbn; lia).
  pose proof (active_magnitude_range t Ht) as Hrange. fold u in Hrange.
  destruct (capped_steps t s Ht Hs) as (Hcap & Hdown & Hshort).
  assert (Hm : s * active_magnitude t u = Z.min (t - t mod s) (31 * s)).
  { destruct (covering_active_unit_reach t) as [[Hu Hreach]|[Hu Hfar]];
      fold u in Hu, Hreach || fold u in Hu.
    - assert (Hmag : active_magnitude t u = t / s)
        by (subst s; destruct u; try reflexivity; now destruct Hu).
      rewrite Hmag. fold s in Hreach.
      pose proof (Z.div_mod t s ltac:(lia)) as Hdm. lia.
    - subst s. rewrite Hu. cbn [active_magnitude]. rewrite <- Hu. exact Hcap. }
  exists (s * active_magnitude t u).
  split; [rewrite (at_field t Ht); now apply timer2_value_field|].
  split; [exact Hm|]. rewrite Hm.
  split; [lia|]. split.
  - intros Hbelow.
    destruct (covering_active_unit_reach t) as [[Hu Hreach]|[Hu Hfar]];
      fold u in Hu, Hreach || fold u in Hu.
    + fold s in Hreach. lia.
    + assert (Hsecs : s = timer2_seconds T2_decihour) by (subst s; now rewrite Hu).
      change (timer2_seconds T2_decihour) with 360 in Hbelow, Hsecs.
      assert (t / s < 32) by (apply Z.div_lt_upper_bound; lia).
      pose proof (Z.div_mod t s ltac:(lia)) as Hdm.
      pose proof (Z.mod_pos_bound t s Hs) as Hmod. lia.
  - intros Hmul Hreach. lia.
Qed.

Lemma active_field_not_longer_witness :
  exists v : Z,
    timer2_value (at_ 90) = Some v /\ v = 60 /\ 0 <= v <= 90.
Proof.
  destruct (active_field_not_longer 90) as (v & Hv & Heq & Hle & _); [lia|].
  exists v. split; [exact Hv|]. split; [exact Heq | exact Hle].
Defined.

(** The five low bits of a number are those of its remainder by 32. *)
Lemma low_five_bits (v : Z) :
  uint_to_binary_str v 5 = uint_to_binary_str (v mod 32) 5.
Proof.
  apply uint_to_binary_str_low_bits.
  change (2 ^ Z.of_nat 5) with 32. now rewrite Z.mod_mod by lia.
Qed.

Lemma pt_small (t : Z) :
  t <= 62 -> pt t = timer3_tag T3_2s +:+ uint_to_binary_str (C.div t 2 mod 32) 5.
Proof.
  intros Ht. unfold pt, periodic_select.
  change (2 * ie_value_max) with 62.
  destruct (Z.leb_spec t 62) as [_|Hgt]; [|lia].
  change PSMTimerBits with 5%nat.
  rewrite bits_of_uint32, (low_five_bits (C.div t 2)).
  now rewrite (write_at_3_bits "0" "1" "1" "00000").
Qed.

Lemma at_small (t : Z) :
  t <= 62 -> at_ t = timer2_tag T2_2s +:+ uint_to_binary_str (C.div t 2 mod 32) 5.
Proof.
  intros Ht. unfold at_, active_select.
  change (2 * ie_value_max) with 62.
  destruct (Z.leb_spec t 62) as [_|Hgt]; [|lia].
  change PSMTimerBits with 5%nat.
  rewrite bits_of_uint32, (low_five_bits (C.div t 2)).
  now rewrite (write_at_3_bits "0" "0" "0" "00000").
Qed.

(** X5.  A negative duration is not rejected: it passes the first
    guard of either timer and is sent in the 2-second unit, the magnitude
    being the five low bits of [t / 2] truncated towards zero, as a
    32-bit number; the field then stands for a duration between 0 and 62
    seconds.  The enable request is sent as for any other duration. *)
Theorem negative_duration_sent (t : Z) :
  C.INT_MIN <= t < 0 ->
  let m := C.div t 2 mod 32 in
  0 <= m <= 31
  /\ pt t = "011" +:+ uint_to_binary_str m 5
  /\ at_ t = "000" +:+ uint_to_binary_str m 5
  /\ timer3_value (pt t) = Some (2 * m)
  /\ timer2_value (at_ t) = Some (2 * m)
  /\ forall (active_time : Z) (w : ATHandler.io),
       ATHandler.calls (snd (set_power_save_mode t active_time w))
       = ATHandler.calls w ++ enable_exchange (pt t) (at_ active_time)
           ++ [ATHandler.GetLastError; ATHandler.UnlockReturnError].
Proof.
  intros [_ Hneg] m.
  assert (Hm : 0 <= m <= 31) by (subst m; pose proof (Z.mod_pos_bound (C.div t 2) 32); lia).
  assert (Hpt : pt t = timer3_tag T3_2s +:+ uint_to_binary_str m 5)
    by (apply pt_small; lia).
  assert (Hat : at_ t = timer2_tag T2_2s +:+ uint_to_binary_str m 5)
    by (apply at_small; lia).
  split; [exact Hm|]. split; [exact Hpt|]. split; [exact Hat|].
  split; [rewrite Hpt; now apply timer3_value_field|].
  split; [rewrite Hat; now apply timer2_value_field|].
  intros active_time w.
  destruct (set_power_save_mode_not_both_zero t active_time w) as (_ & Hcalls & _);
    [left; lia | exact Hcalls].
Qed.

Lemma negative_duration_sent_witness :
  pt (-2) = "01111111" /\ timer3_value (pt (-2)) = Some 62
  /\ at_ (-2) = "00011111" /\ timer2_value (at_ (-2)) = Some 62.
Proof.
  destruct (negative_duration_sent (-2)) as (_ & Hpt & Hat & Hv3 & Hv2 & _);
    [unfold C.INT_MIN; lia|].
  split; [exact Hpt|]. split; [exact Hv3|]. split; [exact Hat | exact Hv2].
Defined.

End Decoding.

(** ** What the calls leave of the handlers *)

Lemma same_settings_refl (d : Device) : same_settings d d.
Proof. repeat split. Qed.

Lemma same_settings_trans (d d1 d' : Device) :
  same_settings d d1 -> same_settings d1 d' -> same_settings d d'.
Proof.
  intros (H1 & H2 & H3 & H4) (H1' & H2' & H3' & H4').
  repeat split; congruence.
Qed.

Lemma handlers_kept_same (d d' : Device) :
  same_settings d d' ->
  (forall a, handler_at d' a = handler_at d a) ->
  handlers_kept d d'.
Proof.
  intros Hsame Hat. split; [exact Hsame|].
  intros a h' Ha. rewrite <- Hat, Ha. repeat split.
Qed.

Lemma handlers_kept_pre (d d1 d' : Device) :
  same_settings d d1 ->
  (forall a, handler_at d1 a = handler_at d a) ->
  handlers_kept d1 d' -> handlers_kept d d'.
Proof.
  intros Hsame Hat [Hsame' Hkept].
  split; [exact (same_settings_trans d d1 d' Hsame Hsame')|].
  intros a h' Ha. specialize (Hkept a h' Ha). rewrite Hat in Hkept.
  destruct Hsame as (_ & _ & <- & <-). exact Hkept.
Qed.

Lemma handlers_kept_post (d d1 d' : Device) :
  handlers_kept d d1 ->
  same_settings d1 d' ->
  (forall a, handler_at d' a = handler_at d1 a) ->
  handlers_kept d d'.
Proof.
  intros [Hsame Hkept] Hsame' Hat.
  split; [exact (same_settings_trans d d1 d' Hsame Hsame')|].
  intros a h' Ha. rewrite Hat in Ha. exact (Hkept a h' Ha).
Qed.

Lemma handler_at_fresh (d : Device) : handler_at d (fresh (dom (objects d))) = None.
Proof.
  unfold handler_at.
  now rewrite (proj1 (not_elem_of_dom (objects d) _) (is_fresh (dom (objects d)))).
Qed.

(** [get_at_handler] touches the handler it returns and no other
    object. *)
Lemma get_at_handler_kept (d d' : Device) (fh : option FileHandle) (a : addr) :
  pool_live d ->
  get_at_handler fh d = Some (Some a, d') ->
  handlers_kept d d'
  /\ (forall x, x <> a -> objects d' !! x = objects d !! x)
  /\ (forall x o, objects d !! x = Some o ->
        (forall h0, o <> ObjATHandler h0) -> x <> a).
Proof.
  intros Hlive Hget.
  destruct (pooled_for d (transport_of d fh) (_atHandlers d)) as [a0|] eqn:Hpool.
  - destruct (pooled_for_Some d _ _ a0 Hpool) as (Hin & h & Ha & Hfh).
    rewrite (get_at_handler_found d fh a0 h Hlive Hpool Ha) in Hget.
    injection Hget as <- <-.
    split; [|split].
    + split; [repeat split|].
      intros x h'. rewrite handler_at_insert.
      destruct (decide (a0 = x)) as [<-|Hne].
      * intros [= <-]. rewrite Ha. repeat split.
      * intros Hx. rewrite Hx. repeat split.
    + intros x Hx. cbn. now rewrite lookup_insert_ne.
    + intros x o Hx Ho ->. unfold handler_at in Ha. rewrite Hx in Ha.
      destruct o as [h0| |]; [now destruct (Ho h0) | discriminate | discriminate].
  - pose proof (get_at_handler_new d fh Hlive Hpool) as Hnew. cbv zeta in Hnew.
    rewrite Hnew in Hget. injection Hget as <- <-.
    split; [|split].
    + split; [repeat split|].
      intros x h'. unfold handler_at at 1. cbn.
      destruct (decide (fresh (dom (objects d)) = x)) as [<-|Hne].
      * rewrite lookup_insert_eq. intros [= <-].
        rewrite handler_at_fresh. split; [reflexivity|].
        unfold new_handler. cbn. reflexivity.
      * rewrite lookup_insert_ne by exact Hne.
        intros Hx. change (handler_at d x = Some h') in Hx.
        rewrite Hx. repeat split.
    + intros x Hx. cbn. now rewrite lookup_insert_ne.
    + intros x o Hx Ho ->.
      pose proof (is_fresh (dom (objects d))) as Hfresh.
      apply not_elem_of_dom in Hfresh. now rewrite Hfresh in Hx.
Qed.

(** [release_at_handler] touches the handler it is given and no other
    object. *)
Lemma release_at_handler_kept (d d' : Device) (a : addr) (h : Handle.t) :
  pool_live d ->
  a ∈ _atHandlers d ->
  handler_at d a = Some h ->
  release_at_handler (Some a) d = Some (tt, d') ->
  handlers_kept d d'
  /\ (forall x, x <> a -> objects d' !! x = objects d !! x).
Proof.
  intros Hlive Hin Ha Hrel.
  destruct (decide (Handle.ref_count h = 1)) as [Hone|Hmany].
  - rewrite (release_at_handler_last d a h Hlive Hin Ha Hone) in Hrel.
    injection Hrel as <-. split.
    + split; [repeat split|].
      intros x h'. unfold handler_at at 1. cbn.
      destruct (decide (a = x)) as [<-|Hne].
      * now rewrite lookup_delete_eq.
      * rewrite lookup_delete_ne by exact Hne.
        intros Hx. change (handler_at d x = Some h') in Hx.
        rewrite Hx. repeat split.
    + intros x Hx. cbn. now rewrite lookup_delete_ne.
  - rewrite (release_at_handler_shared d a h Ha Hmany) in Hrel.
    injection Hrel as <-. split.
    + split; [repeat split|].
      intros x h'. rewrite handler_at_insert.
      destruct (decide (a = x)) as [<-|Hne].
      * intros [= <-]. rewrite Ha. repeat split.
      * intros Hx. rewrite Hx. repeat split.
    + intros x Hx. cbn. now rewrite lookup_insert_ne.
Qed.


Lemma handler_at_new_object (d d' : Device) (s : addr) (o : object) :
  objects d' = <[s := o]> (objects d) ->
  handler_at d s = None ->
  (forall h, o <> ObjATHandler h) ->
  forall a, handler_at d' a = handler_at d a.
Proof.
  intros Heq Hs Ho a. unfold handler_at at 1. rewrite Heq.
  destruct (decide (s = a)) as [<-|Hne].
  - rewrite lookup_insert_eq, Hs. destruct o as [h| |]; [now destruct (Ho h) | |];
      reflexivity.
  - now rewrite lookup_insert_ne.
Qed.

Lemma handler_at_deleted (d d' : Device) (s : addr) :
  objects d' = delete s (objects d) ->
  handler_at d s = None ->
  forall a, handler_at d' a = handler_at d a.
Proof.
  intros Heq Hs a. unfold handler_at at 1. rewrite Heq.
  destruct (decide (s = a)) as [<-|Hne].
  - now rewrite lookup_delete_eq, Hs.
  - now rewrite lookup_delete_ne.
Qed.


(** [open] on a device in good order: the invariant and the handlers
    are kept. *)
Lemma open_subsystem_full (d : Device) (k : subsystem) (fh : option FileHandle) :
  device_ok d ->
  exists (s : addr) (d' : Device),
    open_subsystem k fh d = Some (Some s, d')
    /\ device_ok d' /\ handlers_kept d d'.
Proof.
  intros Hok. destruct (slot_of k d) as [s|] eqn:Hslot.
  - exists s, (set_ref_count k (ref_count_of k d + 1) d).
    split; [now apply open_subsystem_again|]. split.
    + apply (recount_ok d k s); [assumption | assumption |].
      pose proof (device_ok_slot d k Hok) as Hk. unfold slot_ok in Hk.
      rewrite Hslot in Hk. destruct (objects d !! s) as [[| |]|]; try contradiction. lia.
    + apply handlers_kept_same; [repeat split | reflexivity].
  - destruct (get_at_handler_ok d fh Hok)
      as (a & d1 & h & Hget & Hok1 & Ha & _ & Hslack & Hslots & _).
    pose proof (device_ok_empty_slot d k Hok Hslot) as Hcount.
    destruct (Hslots k) as [Hslot1 Hcount1].
    destruct (get_at_handler_kept d d1 fh a (device_ok_pool_live d Hok) Hget)
      as (Hkept & _).
    eexists _, _. split; [exact (open_subsystem_first d d1 k fh a Hslot Hget)|].
    split.
    + apply (subsystem_new_ok d1 k a h); try assumption; [congruence | lia].
    + apply (handlers_kept_post d d1); [exact Hkept | repeat split |].
      apply (handler_at_new_object d1 _ (fresh (dom (objects d1)))
               (ObjSubsystem k a)); [reflexivity | apply handler_at_fresh |].
      intros h0. discriminate.
Qed.

(** [close] on a device in good order. *)
Lemma close_subsystem_full (d : Device) (k : subsystem) :
  device_ok d ->
  exists d' : Device,
    close_subsystem k d = Some (tt, d')
    /\ device_ok d' /\ handlers_kept d d'.
Proof.
  intros Hok. destruct (slot_of k d) as [s|] eqn:Hslot.
  2:{ exists d. split; [|split; [exact Hok|]].
      - unfold close_subsystem. run_device. now rewrite Hslot.
      - apply handlers_kept_same; [apply same_settings_refl | reflexivity]. }
  pose proof (device_ok_slot d k Hok) as Hk. unfold slot_ok in Hk.
  rewrite Hslot in Hk.
  destruct (objects d !! s) as [[| k0 at_handler|]|] eqn:Hs; try contradiction.
  destruct Hk as (-> & Hin & Hpos).
  destruct (decide (ref_count_of k d = 1)) as [Hone|Hmany].
  - rewrite (close_subsystem_release d k s at_handler k Hslot Hone Hs).
    destruct (subsystem_delete_ok d k s at_handler Hok Hslot Hs)
      as (Hokm & h & Hat & Hslack).
    destruct (release_at_handler_ok _ at_handler h Hokm Hat Hslack)
      as (d' & Hrel & Hok' & _).
    exists d'. split; [exact Hrel|]. split; [exact Hok'|].
    assert (Hsame : forall a, handler_at (slot_cleared d k s (ObjSubsystem k at_handler)) a
                              = handler_at d a).
    { apply (handler_at_deleted d _ s); [reflexivity|].
      unfold handler_at. now rewrite Hs. }
    apply (handlers_kept_pre d (slot_cleared d k s (ObjSubsystem k at_handler)));
      [repeat split | exact Hsame |].
    apply (release_at_handler_kept _ d' at_handler h); try assumption.
    + now apply device_ok_pool_live.
  - exists (set_ref_count k (ref_count_of k d - 1) d).
    split; [now apply (close_subsystem_count d k s)|]. split.
    + apply (recount_ok d k s); [assumption | assumption | lia].
    + apply handlers_kept_same; [repeat split | reflexivity].
Qed.

(** [create_context] on a device in good order: the context is added
    at the end of the list. *)
Lemma create_context_full (d : Device) (fh : option FileHandle) (apn : option string) :
  device_ok d ->
  exists (c at_handler : addr) (d' : Device) (h : Handle.t),
    create_context fh apn d = Some (Some c, d')
    /\ device_ok d' /\ handlers_kept d d'
    /\ _context_list d' = _context_list d ++ [c]
    /\ objects d !! c = None
    /\ objects d' !! c = Some (ObjContext at_handler apn)
    /\ handler_at d' at_handler = Some h
    /\ Handle.file_handle h = transport_of d fh
    /\ (forall x o, objects d !! x = Some o ->
          (forall h0, o <> ObjATHandler h0) -> objects d' !! x = Some o)
    /\ (forall x, is_Some (objects d !! x) -> is_Some (objects d' !! x)).
Proof.
  intros Hok.
  destruct (get_at_handler_ok d fh Hok)
    as (a & d1 & h & Hget & Hok1 & Ha & Hfh & Hslack & _ & Hctx & _).
  destruct (get_at_handler_kept d d1 fh a (device_ok_pool_live d Hok) Hget)
    as (Hkept & Hothers & Hlive_obj).
  set (c := fresh (dom (objects d1))).
  assert (Hc1 : objects d1 !! c = None) by (apply not_elem_of_dom, is_fresh).
  assert (Hca : c <> a).
  { intros ->. unfold handler_at in Ha. now rewrite Hc1 in Ha. }
  exists c, a. eexists _, h. split.
  - apply (create_context_run d d1 fh apn a); [|exact Hget].
    intros c' Hc'. now apply device_ok_context.
  - split; [now apply (context_new_ok d1 a h)|].
    split.
    { apply (handlers_kept_post d d1); [exact Hkept | repeat split |].
      apply (handler_at_new_object d1 _ c (ObjContext a apn));
        [reflexivity | apply handler_at_fresh |].
      intros h0. discriminate. }
    split; [cbn; now rewrite Hctx|].
    split; [now rewrite <- (Hothers c Hca)|].
    split; [cbn; now rewrite lookup_insert_eq|].
    split.
    { unfold handler_at. cbn. rewrite lookup_insert_ne by exact Hca.
      exact Ha. }
    split; [exact Hfh|].
    split.
    { intros x o Hx Ho. cbn.
      pose proof (Hlive_obj x o Hx Ho) as Hxa.
      assert (Hxc : x <> c).
      { intros ->. rewrite <- (Hothers c Hca) in Hx. now rewrite Hc1 in Hx. }
      rewrite lookup_insert_ne by (intros Heq; now apply Hxc).
      now rewrite (Hothers x Hxa). }
    intros x Hx. cbn.
    destruct (decide (c = x)) as [<-|Hxc]; [rewrite lookup_insert_eq; eauto|].
    rewrite lookup_insert_ne by exact Hxc.
    destruct (decide (x = a)) as [->|Hxa].
    + apply handler_at_Some in Ha. rewrite Ha. eauto.
    + now rewrite (Hothers x Hxa).
Qed.

(** ** The references a handler has to spare *)

(** A change of the heap at a handler, or at an address that holds
    none, leaves the references of the device as they were. *)
Lemma users_handler_change (d d' : Device) (a : addr) :
  (forall x, x <> a -> objects d' !! x = objects d !! x) ->
  handler_of d a = None -> handler_of d' a = None ->
  (forall k, slot_of k d' = slot_of k d) ->
  _context_list d' = _context_list d ->
  _at d' = _at d ->
  forall x, users d' x = users d x.
Proof.
  intros Hother Ha Ha' Hslots Hlist Hat x.
  apply users_same_refs; try assumption.
  intros p. destruct (decide (p = a)) as [->|Hne]; [congruence|].
  unfold handler_of. now rewrite Hother.
Qed.

Lemma handler_of_handler (d : Device) (a : addr) (h : Handle.t) :
  handler_at d a = Some h -> handler_of d a = None.
Proof.
  intros Ha. apply handler_at_Some in Ha. unfold handler_of. now rewrite Ha.
Qed.

Lemma handler_of_dead (d : Device) (a : addr) :
  objects d !! a = None -> handler_of d a = None.
Proof. intros Ha. unfold handler_of. now rewrite Ha. Qed.

Lemma spare_same (d d' : Device) (x : addr) :
  handler_at d' x = handler_at d x -> users d' x = users d x ->
  spare d' x = spare d x.
Proof. intros Hat Husers. unfold spare. now rewrite Hat, Husers. Qed.

Lemma spare_nonneg (d : Device) (a : addr) : device_ok d -> 0 <= spare d a.
Proof.
  intros Hok. unfold spare. destruct (handler_at d a) as [h|] eqn:Ha; [|lia].
  destruct (device_ok_handler d a Hok (handler_pooled d a h Hok Ha)) as (h' & Ha' & _ & Hle).
  rewrite Ha in Ha'. injection Ha' as <-. lia.
Qed.

(** [get_at_handler] gives the handler it returns one more
    reference to spare. *)
Lemma get_at_handler_spare (d d' : Device) (fh : option FileHandle) (a : addr) :
  device_ok d ->
  get_at_handler fh d = Some (Some a, d') ->
  spare d' a = spare d a + 1
  /\ forall x, x <> a -> spare d' x = spare d x.
Proof.
  intros Hok Hget. pose proof (device_ok_pool_live d Hok) as Hlive.
  destruct (pooled_for d (transport_of d fh) (_atHandlers d)) as [a0|] eqn:Hpool.
  - destruct (pooled_for_Some d _ _ a0 Hpool) as (Hin & h & Ha & Hfh).
    rewrite (get_at_handler_found d fh a0 h Hlive Hpool Ha) in Hget.
    injection Hget as <- <-.
    set (d' := set_memory (<[a0 := ObjATHandler (Handle.inc_ref_count h)]> (objects d))
                 (journal d) d).
    assert (Husers : forall x, users d' x = users d x).
    { apply (users_handler_change d d' a0); try reflexivity.
      - intros x Hx. unfold d'. cbn. now rewrite lookup_insert_ne.
      - exact (handler_of_handler d a0 h Ha).
      - apply (handler_of_handler d' a0 (Handle.inc_ref_count h)).
        unfold d'. rewrite handler_at_insert. now rewrite decide_True. }
    split.
    + unfold spare. unfold d' at 1. rewrite handler_at_insert, decide_True by reflexivity.
      rewrite Ha, Husers. cbn. lia.
    + intros x Hx. apply spare_same; [|apply Husers].
      unfold d'. rewrite handler_at_insert. now rewrite decide_False.
  - pose proof (get_at_handler_new d fh Hlive Hpool) as Hnew. cbv zeta in Hnew.
    rewrite Hnew in Hget. injection Hget as <- <-.
    set (a := fresh (dom (objects d))).
    set (d' := set_atHandlers (a :: _atHandlers d)
                 (set_memory (<[a := ObjATHandler (new_handler d (transport_of d fh))]>
                                (objects d)) _ d)).
    assert (Hfresh : objects d !! a = None) by (apply not_elem_of_dom, is_fresh).
    assert (Husers : forall x, users d' x = users d x).
    { apply (users_handler_change d d' a); try reflexivity.
      - intros x Hx. unfold d'. cbn. now rewrite lookup_insert_ne.
      - exact (handler_of_dead d a Hfresh).
      - unfold handler_of, d'. cbn. now rewrite lookup_insert_eq. }
    assert (Hnotin : a ∉ _atHandlers d).
    { intros Hin. destruct (device_ok_handler d a Hok Hin) as (h & Ha & _).
      apply handler_at_Some in Ha. congruence. }
    split.
    + unfold spare. rewrite Husers, (users_unreferenced d a Hok Hnotin).
      unfold handler_at at 2. rewrite Hfresh.
      unfold handler_at, d'. cbn. rewrite lookup_insert_eq. cbn. lia.
    + intros x Hx. apply spare_same; [|apply Husers].
      unfold handler_at, d'. cbn. now rewrite lookup_insert_ne.
Qed.

(** [release_at_handler] takes one spare reference from the handler
    it is given. *)
Lemma release_at_handler_spare (d d' : Device) (a : addr) (h : Handle.t) :
  device_ok d ->
  handler_at d a = Some h ->
  users d a < Handle.ref_count h ->
  release_at_handler (Some a) d = Some (tt, d') ->
  spare d' a = spare d a - 1
  /\ forall x, x <> a -> spare d' x = spare d x.
Proof.
  intros Hok Ha Hslack Hrel.
  pose proof (device_ok_pool_live d Hok) as Hlive.
  pose proof (handler_pooled d a h Hok Ha) as Hin.
  destruct (decide (Handle.ref_count h = 1)) as [Hone|Hmany].
  - rewrite (release_at_handler_last d a h Hlive Hin Ha Hone) in Hrel.
    injection Hrel as <-.
    set (d' := set_atHandlers (remove_first a (_atHandlers d))
                 (set_memory (delete a (objects d)) _ d)).
    assert (Husers : forall x, users d' x = users d x).
    { apply (users_handler_change d d' a); try reflexivity.
      - intros x Hx. unfold d'. cbn. now rewrite lookup_delete_ne.
      - exact (handler_of_handler d a h Ha).
      - unfold handler_of, d'. cbn. now rewrite lookup_delete_eq. }
    split.
    + unfold spare. rewrite Ha.
      unfold handler_at, d'. cbn. rewrite lookup_delete_eq.
      pose proof (users_nonneg d a). lia.
    + intros x Hx. apply spare_same; [|apply Husers].
      unfold handler_at, d'. cbn. now rewrite lookup_delete_ne.
  - rewrite (release_at_handler_shared d a h Ha Hmany) in Hrel.
    injection Hrel as <-.
    set (d' := set_memory (<[a := ObjATHandler (Handle.dec_ref_count h)]> (objects d))
                 (journal d) d).
    assert (Husers : forall x, users d' x = users d x).
    { apply (users_handler_change d d' a); try reflexivity.
      - intros x Hx. unfold d'. cbn. now rewrite lookup_insert_ne.
      - exact (handler_of_handler d a h Ha).
      - apply (handler_of_handler d' a (Handle.dec_ref_count h)).
        unfold d'. rewrite handler_at_insert. now rewrite decide_True. }
    split.
    + unfold spare. unfold d' at 1. rewrite handler_at_insert, decide_True by reflexivity.
      rewrite Ha, Husers. cbn. lia.
    + intros x Hx. apply spare_same; [|apply Husers].
      unfold d'. rewrite handler_at_insert. now rewrite decide_False.
Qed.

(** A subsystem built on [at_handler] takes one spare reference of
    it. *)
Lemma opened_users (d1 : Device) (k : subsystem) (at_handler : addr) (n : Z) :
  device_ok d1 ->
  slot_of k d1 = None ->
  let d' := opened d1 k (fresh (dom (objects d1))) at_handler n in
  (forall x, handler_at d' x = handler_at d1 x)
  /\ forall x, users d' x = users d1 x + if decide (x = at_handler) then 1 else 0.
Proof.
  intros Hok Hslot. set (s := fresh (dom (objects d1))). intros d'.
  assert (Hfresh : objects d1 !! s = None) by (apply not_elem_of_dom, is_fresh).
  assert (Hs' : objects d' !! s = Some (ObjSubsystem k at_handler)).
  { unfold d', opened. cbn. apply lookup_insert_eq. }
  assert (Hother : forall x, x <> s -> objects d' !! x = objects d1 !! x).
  { intros x Hne. unfold d', opened. cbn. now rewrite lookup_insert_ne. }
  assert (Hslot' : slot_of k d' = Some s) by apply opened_slot.
  assert (Hslots' : forall k', k' <> k -> slot_of k' d' = slot_of k' d1).
  { intros k' Hne. unfold d', opened.
    rewrite slot_of_set_ref_count. now rewrite slot_of_set_slot_other. }
  assert (Hlive_slot : forall k' s', slot_of k' d1 = Some s' -> s' <> s).
  { intros k' s' Hk' ->. pose proof (device_ok_slot d1 k' Hok) as Hsk.
    unfold slot_ok in Hsk. now rewrite Hk', Hfresh in Hsk. }
  assert (Hlive_ctx : forall c, c ∈ _context_list d1 -> c <> s).
  { intros c Hc ->. pose proof (device_ok_context d1 s Hok Hc) as Hcok.
    unfold context_ok in Hcok. now rewrite Hfresh in Hcok. }
  split.
  { intros x. unfold handler_at. destruct (decide (x = s)) as [->|Hne].
    - now rewrite Hs', Hfresh.
    - now rewrite Hother. }
  assert (Hbound : forall x k', k' <> k -> bound_slot d1 k' x = bound_slot d' k' x).
  { intros x k' Hne. symmetry. apply bound_slot_same; [now apply Hslots'|].
    intros s' Hk'. unfold handler_of. rewrite Hother; [reflexivity|].
    now apply (Hlive_slot k'). }
  assert (Hbound_k : forall x, bound_slot d1 k x = false).
  { intros x. unfold bound_slot. now rewrite Hslot. }
  assert (Hbound_k' : forall x,
             Z.b2z (bound_slot d' k x) = if decide (x = at_handler) then 1 else 0).
  { intros x. unfold bound_slot, handler_of. rewrite Hslot', Hs'.
    destruct (decide (x = at_handler)) as [->|Hne].
    - now rewrite bool_decide_eq_true_2.
    - rewrite bool_decide_eq_false_2; [reflexivity | congruence]. }
  intros x. unfold users.
  pose proof (slot_users_cleared d' d1 k x (Hbound_k x) (Hbound x)) as Hsu.
  rewrite Hbound_k' in Hsu.
  rewrite (context_users_same d1 d' x); [| reflexivity |].
  - change (_at d') with (_at d1). lia.
  - intros c Hc. unfold handler_of. rewrite Hother; [reflexivity|].
    now apply Hlive_ctx.
Qed.

(** A subsystem deleted gives its reference back to its handler. *)
Lemma slot_cleared_users (d : Device) (k : subsystem) (s at_handler : addr) :
  device_ok d ->
  slot_of k d = Some s ->
  objects d !! s = Some (ObjSubsystem k at_handler) ->
  let dm := slot_cleared d k s (ObjSubsystem k at_handler) in
  (forall x, handler_at dm x = handler_at d x)
  /\ forall x, users dm x = users d x - if decide (x = at_handler) then 1 else 0.
Proof.
  intros Hok Hslot Hs dm.
  assert (Hs' : objects dm !! s = None).
  { unfold dm, slot_cleared. cbn. apply lookup_delete_eq. }
  assert (Hother : forall x, x <> s -> objects dm !! x = objects d !! x).
  { intros x Hne. unfold dm, slot_cleared. cbn. now rewrite lookup_delete_ne. }
  assert (Hslot' : slot_of k dm = None) by apply slot_of_set_slot.
  assert (Hslots' : forall k', k' <> k -> slot_of k' dm = slot_of k' d).
  { intros k' Hne. unfold dm, slot_cleared. now rewrite slot_of_set_slot_other. }
  assert (Hslot_apart : forall k' s', k' <> k -> slot_of k' d = Some s' -> s' <> s).
  { intros k' s' Hne Hk' ->. pose proof (device_ok_slot d k' Hok) as Hsk.
    unfold slot_ok in Hsk. rewrite Hk', Hs in Hsk. destruct Hsk as [Heq _]. congruence. }
  assert (Hctx_apart : forall c, c ∈ _context_list d -> c <> s).
  { intros c Hc ->. pose proof (device_ok_context d s Hok Hc) as Hcok.
    unfold context_ok in Hcok. now rewrite Hs in Hcok. }
  split.
  { intros x. unfold handler_at. destruct (decide (x = s)) as [->|Hne].
    - now rewrite Hs', Hs.
    - now rewrite Hother. }
  intros x. unfold users.
  rewrite (slot_users_cleared d dm k x).
  - rewrite (context_users_same d dm x); [change (_at dm) with (_at d) | reflexivity |].
    + assert (Hb : Z.b2z (bound_slot d k x) = if decide (x = at_handler) then 1 else 0).
      { unfold bound_slot, handler_of. rewrite Hslot, Hs.
        destruct (decide (x = at_handler)) as [->|Hne].
        - now rewrite bool_decide_eq_true_2.
        - rewrite bool_decide_eq_false_2; [reflexivity | congruence]. }
      rewrite Hb. lia.
    + intros c Hc. unfold handler_of. rewrite Hother; [reflexivity|]. now apply Hctx_apart.
  - unfold bound_slot. now rewrite Hslot'.
  - intros k' Hne. apply bound_slot_same; [now apply Hslots'|].
    intros s' Hk'. unfold handler_of. rewrite Hother; [reflexivity|].
    now apply (Hslot_apart k').
Qed.

Lemma filter_pointwise {A : Type} (P Q : A -> Prop)
      `{forall x, Decision (P x)} `{forall x, Decision (Q x)} (l : list A) :
  (forall x, x ∈ l -> (P x <-> Q x)) -> filter P l = filter Q l.
Proof.
  induction l as [|x l IH]; intros Hagree; [reflexivity|].
  rewrite !filter_cons.
  rewrite IH by (intros y Hy; apply Hagree; now right).
  pose proof (Hagree x ltac:(now left)) as Hx.
  destruct (decide (P x)), (decide (Q x)); tauto.
Qed.

(** A context built on [at_handler] takes one spare reference of
    it. *)
Lemma context_new_users (d1 : Device) (at_handler : addr) (apn : option string)
      (j : list heap_event) :
  device_ok d1 ->
  let c := fresh (dom (objects d1)) in
  let d' := set_context_list (_context_list d1 ++ [c])
              (set_memory (<[c := ObjContext at_handler apn]> (objects d1)) j d1) in
  (forall x, handler_at d' x = handler_at d1 x)
  /\ forall x, users d' x = users d1 x + if decide (x = at_handler) then 1 else 0.
Proof.
  intros Hok c d'.
  assert (Hfresh : objects d1 !! c = None) by (apply not_elem_of_dom, is_fresh).
  assert (Hc' : objects d' !! c = Some (ObjContext at_handler apn)).
  { unfold d'. cbn. apply lookup_insert_eq. }
  assert (Hother : forall x, x <> c -> objects d' !! x = objects d1 !! x).
  { intros x Hne. unfold d'. cbn. now rewrite lookup_insert_ne. }
  assert (Hlive_slot : forall k' s', slot_of k' d1 = Some s' -> s' <> c).
  { intros k' s' Hk' ->. pose proof (device_ok_slot d1 k' Hok) as Hsk.
    unfold slot_ok in Hsk. now rewrite Hk', Hfresh in Hsk. }
  assert (Hlive_ctx : forall x, x ∈ _context_list d1 -> x <> c).
  { intros x Hx ->. pose proof (device_ok_context d1 c Hok Hx) as Hcok.
    unfold context_ok in Hcok. now rewrite Hfresh in Hcok. }
  split.
  { intros x. unfold handler_at. destruct (decide (x = c)) as [->|Hne].
    - now rewrite Hc', Hfresh.
    - now rewrite Hother. }
  intros x. unfold users. change (_at d') with (_at d1).
  rewrite (slot_users_same d1 d' x).
  2:{ intros k. apply bound_slot_same; [reflexivity|].
      intros s Hs. unfold handler_of. rewrite Hother; [reflexivity|].
      now apply (Hlive_slot k). }
  assert (Hcu : context_users d' x
                = context_users d1 x + if decide (x = at_handler) then 1 else 0).
  { unfold context_users. cbn [d' _context_list set_context_list]. fold d'.
    rewrite filter_app, length_app, Nat2Z.inj_add.
    f_equal.
    - f_equal. f_equal. apply filter_pointwise.
      intros y Hy. unfold handler_of. rewrite (Hother y); [reflexivity|].
      now apply Hlive_ctx.
    - rewrite filter_cons, filter_nil. unfold handler_of. rewrite Hc'.
      destruct (decide (x = at_handler)) as [->|Hne].
      + now rewrite decide_True.
      + rewrite decide_False; [reflexivity | congruence]. }
  rewrite Hcu. lia.
Qed.

(** [open], [close] and [create_context] leave to every handler the
    references it had to spare. *)
Lemma open_subsystem_spare (d d' : Device) (k : subsystem) (fh : option FileHandle)
      (r : option addr) :
  device_ok d ->
  open_subsystem k fh d = Some (r, d') ->
  forall x, spare d' x = spare d x.
Proof.
  intros Hok Hopen x. destruct (slot_of k d) as [s|] eqn:Hslot.
  - rewrite (open_subsystem_again d k fh s Hslot) in Hopen.
    injection Hopen as _ <-. reflexivity.
  - destruct (get_at_handler_ok d fh Hok)
      as (a & d1 & h & Hget & Hok1 & Ha & _ & _ & Hslots & _).
    rewrite (open_subsystem_first d d1 k fh a Hslot Hget) in Hopen.
    injection Hopen as _ <-.
    destruct (get_at_handler_spare d d1 fh a Hok Hget) as [Hspare_a Hspare].
    destruct (Hslots k) as [Hslot1 _]. rewrite Hslot in Hslot1.
    destruct (opened_users d1 k a (ref_count_of k d1 + 1) Hok1 Hslot1) as [Hat Husers].
    unfold spare at 1. rewrite Hat, Husers.
    destruct (decide (x = a)) as [->|Hne].
    + rewrite Ha. unfold spare at 1 in Hspare_a. rewrite Ha in Hspare_a. lia.
    + rewrite <- (Hspare x Hne). unfold spare.
      destruct (handler_at d1 x); lia.
Qed.

Lemma close_subsystem_empty (d : Device) (k : subsystem) :
  slot_of k d = None -> close_subsystem k d = Some (tt, d).
Proof. intros Hslot. unfold close_subsystem. run_device. now rewrite Hslot. Qed.

Lemma close_subsystem_spare (d d' : Device) (k : subsystem) :
  device_ok d ->
  close_subsystem k d = Some (tt, d') ->
  forall x, spare d' x = spare d x.
Proof.
  intros Hok Hclose x. destruct (slot_of k d) as [s|] eqn:Hslot.
  2:{ rewrite (close_subsystem_empty d k Hslot) in Hclose.
      now injection Hclose as <-. }
  pose proof (device_ok_slot d k Hok) as Hk. unfold slot_ok in Hk.
  rewrite Hslot in Hk.
  destruct (objects d !! s) as [[| k0 at_handler|]|] eqn:Hs; try contradiction.
  destruct Hk as (-> & Hin & Hpos).
  destruct (decide (ref_count_of k d = 1)) as [Hone|Hmany].
  - rewrite (close_subsystem_release d k s at_handler k Hslot Hone Hs) in Hclose.
    destruct (subsystem_delete_ok d k s at_handler Hok Hslot Hs)
      as (Hokm & h & Hat & Hslack).
    destruct (release_at_handler_spare _ d' at_handler h Hokm Hat Hslack Hclose)
      as [Hspare_a Hspare].
    destruct (slot_cleared_users d k s at_handler Hok Hslot Hs) as [Hatm Husers].
    destruct (decide (x = at_handler)) as [->|Hne].
    + rewrite Hspare_a. unfold spare. rewrite Hatm, Husers, decide_True by reflexivity.
      rewrite Hatm in Hat. rewrite Hat. lia.
    + rewrite (Hspare x Hne). unfold spare. rewrite Hatm, Husers, decide_False by exact Hne.
      destruct (handler_at d x); lia.
  - rewrite (close_subsystem_count d k s Hslot Hmany) in Hclose.
    injection Hclose as <-. reflexivity.
Qed.

Lemma create_context_spare (d d' : Device) (fh : option FileHandle)
      (apn : option string) (r : option addr) :
  device_ok d ->
  create_context fh apn d = Some (r, d') ->
  forall x, spare d' x = spare d x.
Proof.
  intros Hok Hcreate x.
  destruct (get_at_handler_ok d fh Hok) as (a & d1 & h & Hget & Hok1 & Ha & _).
  rewrite (create_context_run d d1 fh apn a) in Hcreate;
    [|intros c Hc; now apply device_ok_context | exact Hget].
  injection Hcreate as _ <-.
  destruct (get_at_handler_spare d d1 fh a Hok Hget) as [Hspare_a Hspare].
  destruct (context_new_users d1 a apn
              (journal d1 ++ [Constructed (fresh (dom (objects d1))) (ObjContext a apn)])
              Hok1) as [Hat Husers].
  unfold spare at 1. rewrite Hat, Husers.
  destruct (decide (x = a)) as [->|Hne].
  - rewrite Ha. unfold spare at 1 in Hspare_a. rewrite Ha in Hspare_a. lia.
  - rewrite <- (Hspare x Hne). unfold spare.
    destruct (handler_at d1 x); lia.
Qed.

(** ** Deleting a context *)

(** The loop of [delete_context] on a list of live contexts. *)
Lemma unlink_context_run (d : Device) (context : option addr) (l : list addr) :
  (forall c, c ∈ l -> context_ok d c) ->
  unlink_context context l d
  = Some (filter (fun x => context <> Some x) l, d).
Proof.
  induction l as [|c l IH]; intros Hlive; [reflexivity|].
  cbn [unlink_context]. run_device.
  pose proof (Hlive c ltac:(now left)) as Hc. unfold context_ok in Hc.
  destruct (objects d !! c) as [[| |at_handler apn]|]; try contradiction.
  rewrite IH by (intros c' Hc'; apply Hlive; now right).
  rewrite filter_cons.
  destruct (decide (context = Some c)) as [Heq|Hne].
  - rewrite decide_False by (intros Hne; now apply Hne). reflexivity.
  - rewrite decide_True by exact Hne. reflexivity.
Qed.

Lemma filter_all {A : Type} (P : A -> Prop) `{forall x, Decision (P x)} (l : list A) :
  (forall x, x ∈ l -> P x) -> filter P l = l.
Proof.
  induction l as [|x l IH]; intros HP; [reflexivity|].
  rewrite filter_cons, decide_True by (apply HP; now left).
  f_equal. apply IH. intros y Hy. apply HP. now right.
Qed.

Lemma set_context_list_same (d : Device) : set_context_list (_context_list d) d = d.
Proof. now destruct d. Qed.

(** A filter of a sublist counts no more than the filter of the
    list. *)
Lemma filter_length_sub {A : Type} (P P' Q : A -> Prop)
      `{forall x, Decision (P x)} `{forall x, Decision (P' x)}
      `{forall x, Decision (Q x)} (l : list A) :
  (forall x, x ∈ l -> Q x -> (P' x <-> P x)) ->
  (List.length (filter P' (filter Q l)) <= List.length (filter P l))%nat.
Proof.
  induction l as [|x l IH]; intros Hagree; [reflexivity|].
  assert (IH' : (List.length (filter P' (filter Q l)) <= List.length (filter P l))%nat).
  { apply IH. intros y Hy. apply Hagree. now right. }
  rewrite (filter_cons Q), (filter_cons P).
  destruct (decide (Q x)) as [HQ|HQ].
  - rewrite (filter_cons P').
    pose proof (Hagree x ltac:(now left) HQ) as Hx.
    destruct (decide (P' x)) as [HP'|HP'], (decide (P x)) as [HP|HP]; cbn; try lia.
    now destruct HP; apply Hx.
  - destruct (decide (P x)); cbn; lia.
Qed.

(** [delete_context] on a context of the list. *)
Lemma delete_context_run (d : Device) (c : addr) (o : object) :
  (forall c', c' ∈ _context_list d -> context_ok d c') ->
  c ∈ _context_list d ->
  objects d !! c = Some o ->
  delete_context (Some c) d
  = Some (tt,
          set_memory (delete c (objects d)) (journal d ++ [Destroyed c o])
            (set_context_list (filter (fun x => Some c <> Some x) (_context_list d)) d)).
Proof.
  intros Hlive Hin Hc. unfold delete_context. run_device.
  rewrite (unlink_context_run d (Some c) _ Hlive). run_device.
  pose proof (Hlive c Hin) as Hcok. unfold context_ok in Hcok.
  rewrite Hc in Hcok. destruct o as [| |at_handler apn]; try contradiction.
  run_device. rewrite Hc. run_device. now rewrite Hc.
Qed.

Lemma delete_context_null (d : Device) :
  (forall c', c' ∈ _context_list d -> context_ok d c') ->
  delete_context None d = Some (tt, d).
Proof.
  intros Hlive. unfold delete_context. run_device.
  rewrite (unlink_context_run d None _ Hlive). run_device.
  rewrite filter_all by (intros x _; discriminate).
  now rewrite set_context_list_same.
Qed.

(** The device without the context at [c]. *)
Lemma context_delete_ok (d : Device) (c : addr) (j : list heap_event) :
  device_ok d ->
  c ∈ _context_list d ->
  let d' := set_memory (delete c (objects d)) j
              (set_context_list (filter (fun x => Some c <> Some x) (_context_list d)) d) in
  device_ok d' /\ handlers_kept d d' /\ forall x, spare d x <= spare d' x.
Proof.
  intros Hok Hin d'.
  pose proof (device_ok_context d c Hok Hin) as Hcok. unfold context_ok in Hcok.
  destruct (objects d !! c) as [[| |at_handler apn]|] eqn:Hc; try contradiction.
  assert (Hother : forall x, x <> c -> objects d' !! x = objects d !! x).
  { intros x Hne. unfold d'. cbn. now rewrite lookup_delete_ne. }
  assert (Hhandler' : forall x, handler_at d' x = handler_at d x).
  { apply (handler_at_deleted d d' c); [reflexivity|].
    unfold handler_at. now rewrite Hc. }
  assert (Hlist' : forall x, x ∈ _context_list d' <-> x ∈ _context_list d /\ x <> c).
  { intros x. unfold d'. cbn. rewrite list_elem_of_filter. split.
    - intros [Hne Hx]. split; [exact Hx|]. intros ->. now apply Hne.
    - intros [Hx Hne]. split; [|exact Hx]. intros [= ->]. now apply Hne. }
  assert (Hslot_apart : forall k s, slot_of k d = Some s -> s <> c).
  { intros k s Hk ->. pose proof (device_ok_slot d k Hok) as Hsk.
    unfold slot_ok in Hsk. now rewrite Hk, Hc in Hsk. }
  assert (Husers' : forall x, users d' x <= users d x).
  { intros x. unfold users. change (_at d') with (_at d).
    rewrite (slot_users_same d d' x).
    - assert (context_users d' x <= context_users d x); [|lia].
      unfold context_users. apply inj_le.
      apply (filter_length_sub (fun c' => handler_of d c' = Some x)
               (fun c' => handler_of d' c' = Some x)
               (fun c' => Some c <> Some c')).
      intros c' _ Hne. unfold handler_of. rewrite Hother; [reflexivity|].
      intros ->. now apply Hne.
    - intros k. apply bound_slot_same; [reflexivity|].
      intros s Hk. unfold handler_of. rewrite Hother; [reflexivity|].
      now apply (Hslot_apart k). }
  split.
  2:{ split; [apply handlers_kept_same; [repeat split | exact Hhandler']|].
      intros x. unfold spare. rewrite Hhandler'.
      pose proof (Husers' x). destruct (handler_at d x); lia. }
  pose proof Hok as (Hnd & Hhandlers & Hfhs & Hslots & Hcnd & Hcontexts & Howned & Hatok).
  rewrite Forall_forall in Hhandlers. rewrite Forall_forall in Hcontexts.
  apply device_ok_intro.
  - exact Hnd.
  - intros x Hx. unfold handler_ok. rewrite Hhandler'.
    pose proof (Hhandlers x Hx) as Hxok. unfold handler_ok in Hxok.
    destruct (handler_at d x); [|contradiction].
    pose proof (Husers' x). lia.
  - replace (omap (fun x => Handle.file_handle <$> handler_at d' x) (_atHandlers d'))
      with (omap (fun x => Handle.file_handle <$> handler_at d x) (_atHandlers d));
      [exact Hfhs|].
    apply omap_pointwise. intros x _. now rewrite Hhandler'.
  - intros k. pose proof (device_ok_slot d k Hok) as Hk. unfold slot_ok in *.
    change (slot_of k d') with (slot_of k d).
    change (ref_count_of k d') with (ref_count_of k d).
    destruct (slot_of k d) as [s|] eqn:Hsk; [|exact Hk].
    rewrite Hother by (now apply (Hslot_apart k)). exact Hk.
  - unfold d'. cbn. now apply NoDup_filter.
  - intros x Hx. apply Hlist' in Hx as [Hx Hne].
    pose proof (Hcontexts x Hx) as Hxok. unfold context_ok in *.
    now rewrite Hother.
  - intros x o Hx. destruct (decide (x = c)) as [->|Hne].
    + unfold d' in Hx. cbn in Hx. now rewrite lookup_delete_eq in Hx.
    + rewrite Hother in Hx by exact Hne.
      pose proof (Howned x o Hx) as Hxo. destruct o as [h|k at_h|at_h apn']; cbn in *.
      * exact Hxo.
      * exact Hxo.
      * apply Hlist'. now split.
  - exact Hatok.
Qed.

(** ** The timeout and the debug flag *)

Section UpdateEach.

(** The loops of [set_timeout] and [modem_debug_on] apply a setter
    [g] to every handler of the list. *)
Variable g : Handle.t -> Handle.t.
Variable loop : list addr -> R unit.

Hypothesis loop_nil : forall d, loop [] d = Some (tt, d).
Hypothesis loop_cons :
  forall a l d h,
    handler_at d a = Some h ->
    loop (a :: l) d
    = loop l (set_memory (<[a := ObjATHandler (g h)]> (objects d)) (journal d) d).
Hypothesis g_file_handle : forall h, Handle.file_handle (g h) = Handle.file_handle h.
Hypothesis g_ref_count : forall h, Handle.ref_count (g h) = Handle.ref_count h.
Hypothesis g_twice : forall h, g (g h) = g h.

Lemma update_each_ok (l : list addr) (d : Device) :
  device_ok d ->
  (forall x, x ∈ l -> x ∈ _atHandlers d) ->
  exists m : gmap addr object,
    let d' := set_memory m (journal d) d in
    loop l d = Some (tt, d')
    /\ device_ok d'
    /\ (forall x, handler_at d' x
                  = (fun h => if decide (x ∈ l) then g h else h) <$> handler_at d x)
    /\ (forall x, handler_at d x = None -> m !! x = objects d !! x)
    /\ (forall x, users d' x = users d x).
Proof.
  revert d. induction l as [|a l IH]; intros d Hok Hpool.
  - exists (objects d). cbv zeta.
    assert (Hd : set_memory (objects d) (journal d) d = d) by now destruct d.
    rewrite Hd. split; [apply loop_nil|]. split; [exact Hok|]. split; [|split].
    + intros x. destruct (handler_at d x); cbn; [|reflexivity].
      rewrite decide_False; [reflexivity | apply not_elem_of_nil].
    + reflexivity.
    + reflexivity.
  - pose proof (Hpool a ltac:(now left)) as Hin.
    destruct (device_ok_handler d a Hok Hin) as (h & Ha & Hpos & Husers).
    set (d1 := set_memory (<[a := ObjATHandler (g h)]> (objects d)) (journal d) d).
    destruct (handler_update_ok d a h (g h) (journal d) Hok Ha)
      as [Hok1 Husers1]; [apply g_file_handle | rewrite g_ref_count; lia
                          | rewrite g_ref_count; lia |].
    fold d1 in Hok1, Husers1.
    destruct (IH d1 Hok1) as (m & Hrun & Hok' & Hat' & Hrest' & Husers').
    { intros x Hx. apply Hpool. now right. }
    exists m. cbv zeta in *.
    change (set_memory m (journal d1) d1) with (set_memory m (journal d) d) in *.
    split; [rewrite (loop_cons a l d h Ha); exact Hrun|].
    split; [exact Hok'|].
    split; [|split; [|intros x; now rewrite Husers', Husers1]].
    + intros x. rewrite Hat'. unfold d1. rewrite handler_at_insert.
      destruct (decide (a = x)) as [<-|Hne].
      * rewrite Ha. cbn. rewrite (decide_True (P := a ∈ a :: l)) by now left.
        destruct (decide (a ∈ l)); [now rewrite g_twice | reflexivity].
      * destruct (handler_at d x) as [hx|]; cbn; [|reflexivity].
        destruct (decide (x ∈ l)) as [Hx|Hx].
        -- rewrite decide_True by now right. reflexivity.
        -- rewrite decide_False; [reflexivity|].
           intros Hx'. apply elem_of_cons in Hx' as [->|Hx']; [now apply Hne | now apply Hx].
    + intros x Hx. assert (Hne : a <> x) by (intros ->; congruence).
      rewrite Hrest'.
      * unfold d1. cbn. now rewrite lookup_insert_ne.
      * unfold d1. rewrite handler_at_insert. now rewrite decide_False.
Qed.

End UpdateEach.

Lemma set_at_timeout_each_cons (timeout : Z) (a : addr) (l : list addr)
      (d : Device) (h : Handle.t) :
  handler_at d a = Some h ->
  set_at_timeout_each timeout (a :: l) d
  = set_at_timeout_each timeout l
      (set_memory (<[a := ObjATHandler (Handle.set_at_timeout timeout h)]> (objects d))
         (journal d) d).
Proof.
  intros Ha. apply handler_at_Some in Ha.
  cbn [set_at_timeout_each]. run_device. now rewrite Ha.
Qed.

Lemma set_debug_each_cons (on : bool) (a : addr) (l : list addr)
      (d : Device) (h : Handle.t) :
  handler_at d a = Some h ->
  set_debug_each on (a :: l) d
  = set_debug_each on l
      (set_memory (<[a := ObjATHandler (Handle.set_debug on h)]> (objects d))
         (journal d) d).
Proof.
  intros Ha. apply handler_at_Some in Ha.
  cbn [set_debug_each]. run_device. now rewrite Ha.
Qed.

(** The invariant does not read the two defaults. *)
Lemma device_ok_set_default_timeout (d : Device) (timeout : Z) :
  device_ok d -> device_ok (set_default_timeout timeout d).
Proof. intros Hok. exact Hok. Qed.

Lemma device_ok_set_modem_debug_on (d : Device) (on : bool) :
  device_ok d -> device_ok (set_modem_debug_on on d).
Proof. intros Hok. exact Hok. Qed.

(** What [set_timeout] does to a device in good order. *)
Lemma set_timeout_full (d : Device) (timeout : Z) :
  device_ok d ->
  exists m : gmap addr object,
    let d' := set_memory m (journal d) (set_default_timeout timeout d) in
    set_timeout timeout d = Some (tt, d')
    /\ device_ok d'
    /\ (forall x, handler_at d' x = Handle.set_at_timeout timeout <$> handler_at d x)
    /\ (forall x, handler_at d x = None -> m !! x = objects d !! x)
    /\ (forall x, spare d' x = spare d x).
Proof.
  intros Hok.
  destruct (update_each_ok (Handle.set_at_timeout timeout) (set_at_timeout_each timeout)
              (fun _ => eq_refl) (set_at_timeout_each_cons timeout)
              (fun _ => eq_refl) (fun _ => eq_refl) (fun _ => eq_refl)
              (_atHandlers d) (set_default_timeout timeout d)
              (device_ok_set_default_timeout d timeout Hok) (fun _ Hx => Hx))
    as (m & Hrun & Hok' & Hat & Hrest & Husers).
  assert (Hat' : forall x,
             handler_at (set_memory m (journal d) (set_default_timeout timeout d)) x
             = Handle.set_at_timeout timeout <$> handler_at d x).
  { intros x. cbv zeta in Hat. rewrite Hat.
    change (handler_at (set_default_timeout timeout d) x) with (handler_at d x).
    destruct (handler_at d x) as [h|] eqn:Hx; cbn; [|reflexivity].
    rewrite decide_True; [reflexivity|]. exact (handler_pooled d x h Hok Hx). }
  exists m. cbv zeta in *. split; [exact Hrun|]. split; [exact Hok'|].
  split; [exact Hat'|]. split; [exact Hrest|].
  intros x. unfold spare. rewrite Hat', Husers.
  change (users (set_default_timeout timeout d) x) with (users d x).
  destruct (handler_at d x); reflexivity.
Qed.

(** What [modem_debug_on] does to a device in good order. *)
Lemma modem_debug_on_full (d : Device) (on : bool) :
  device_ok d ->
  exists m : gmap addr object,
    let d' := set_memory m (journal d) (set_modem_debug_on on d) in
    modem_debug_on on d = Some (tt, d')
    /\ device_ok d'
    /\ (forall x, handler_at d' x = Handle.set_debug on <$> handler_at d x)
    /\ (forall x, handler_at d x = None -> m !! x = objects d !! x)
    /\ (forall x, spare d' x = spare d x).
Proof.
  intros Hok.
  destruct (update_each_ok (Handle.set_debug on) (set_debug_each on)
              (fun _ => eq_refl) (set_debug_each_cons on)
              (fun _ => eq_refl) (fun _ => eq_refl) (fun _ => eq_refl)
              (_atHandlers d) (set_modem_debug_on on d)
              (device_ok_set_modem_debug_on d on Hok) (fun _ Hx => Hx))
    as (m & Hrun & Hok' & Hat & Hrest & Husers).
  assert (Hat' : forall x,
             handler_at (set_memory m (journal d) (set_modem_debug_on on d)) x
             = Handle.set_debug on <$> handler_at d x).
  { intros x. cbv zeta in Hat. rewrite Hat.
    change (handler_at (set_modem_debug_on on d) x) with (handler_at d x).
    destruct (handler_at d x) as [h|] eqn:Hx; cbn; [|reflexivity].
    rewrite decide_True; [reflexivity|]. exact (handler_pooled d x h Hok Hx). }
  exists m. cbv zeta in *. split; [exact Hrun|]. split; [exact Hok'|].
  split; [exact Hat'|]. split; [exact Hrest|].
  intros x. unfold spare. rewrite Hat', Husers.
  change (users (set_modem_debug_on on d) x) with (users d x).
  destruct (handler_at d x); reflexivity.
Qed.

(** ** Sequences of member calls *)

Lemma settled_kept (d d' : Device) :
  device_settled d -> device_ok d' -> handlers_kept d d' -> device_settled d'.
Proof.
  intros (Hok & Hown & Hset) Hok' [(Hfh & Hat & Htimeout & Hdebug) Hkept].
  split; [exact Hok'|]. split.
  - unfold own_handler_ok in *. rewrite Hat, Hfh.
    destruct (_at d) as [a|] eqn:Hself; [|contradiction].
    destruct (handler_at d a) as [h|] eqn:Ha; [|contradiction].
    pose proof (device_ok_at d' Hok') as Hpooled. unfold at_ok in Hpooled.
    rewrite Hat in Hpooled.
    destruct (device_ok_handler d' a Hok' Hpooled) as (h' & Ha' & _).
    rewrite Ha'. specialize (Hkept a h' Ha'). rewrite Ha in Hkept.
    destruct Hkept as (-> & _). exact Hown.
  - intros a h' Ha'. rewrite Htimeout, Hdebug.
    specialize (Hkept a h' Ha').
    destruct (handler_at d a) as [h|] eqn:Ha; [|exact Hkept].
    destruct Hkept as (_ & -> & ->). exact (Hset a h Ha).
Qed.

Lemma handlers_kept_settings (d d' : Device) :
  handlers_kept d d' -> same_settings d d'.
Proof. now intros [Hsame _]. Qed.

Lemma init_module_settled (trace_enable : bool) (model : nsapi_error_t * string)
      (d : Device) :
  device_settled d ->
  exists (lines : list ATHandler.trace_msg) (d' : Device),
    init_module trace_enable model d = Some ((NSAPI_ERROR_OK, lines), d')
    /\ device_settled d' /\ same_settings d d'
    /\ forall x, spare d' x = spare d x.
Proof.
  intros Hd. destruct trace_enable.
  2:{ exists [], d. split; [reflexivity|]. split; [exact Hd|].
      split; [apply same_settings_refl | reflexivity]. }
  pose proof Hd as (Hok & _).
  destruct (open_subsystem_full d Information None Hok) as (s & d1 & Hopen & Hok1 & Hkept1).
  pose proof (settled_kept d d1 Hd Hok1 Hkept1) as Hd1.
  destruct (close_subsystem_full d1 Information Hok1) as (d' & Hclose & Hok' & Hkept').
  pose proof (settled_kept d1 d' Hd1 Hok' Hkept') as Hd'.
  destruct model as [ret pbuf].
  exists (if ret =? NSAPI_ERROR_OK
          then [ATHandler.tr_info_msg ("Model " +:+ pbuf)] else []), d'.
  split; [|split; [exact Hd'|split]].
  - unfold init_module, open_information, close_information. run_device.
    rewrite Hopen. run_device. now rewrite Hclose.
  - apply (same_settings_trans d d1 d'); now apply handlers_kept_settings.
  - intros x. rewrite (close_subsystem_spare d1 d' Information Hok1 Hclose x).
    exact (open_subsystem_spare d d1 Information None (Some s) Hok Hopen x).
Qed.

Lemma set_timeout_settled (d : Device) (timeout : Z) :
  device_settled d ->
  exists d' : Device,
    set_timeout timeout d = Some (tt, d')
    /\ device_settled d'
    /\ _fh d' = _fh d /\ _at d' = _at d
    /\ _default_timeout d' = timeout
    /\ _modem_debug_on d' = _modem_debug_on d
    /\ forall x, spare d' x = spare d x.
Proof.
  intros (Hok & Hown & Hset).
  destruct (set_timeout_full d timeout Hok) as (m & Hrun & Hok' & Hat & _ & Hspare).
  cbv zeta in *. eexists. split; [exact Hrun|].
  split; [|repeat split; exact Hspare].
  split; [exact Hok'|]. split.
  - unfold own_handler_ok in *. cbn [_at _fh set_memory set_default_timeout].
    destruct (_at d) as [a|]; [|contradiction].
    rewrite Hat. destruct (handler_at d a) as [h|]; [|contradiction]. exact Hown.
  - intros a h'. rewrite Hat.
    destruct (handler_at d a) as [h|] eqn:Ha; [|discriminate].
    intros [= <-]. cbn. split; [reflexivity|]. now apply (Hset a h).
Qed.

Lemma modem_debug_on_settled (d : Device) (on : bool) :
  device_settled d ->
  exists d' : Device,
    modem_debug_on on d = Some (tt, d')
    /\ device_settled d'
    /\ _fh d' = _fh d /\ _at d' = _at d
    /\ _default_timeout d' = _default_timeout d
    /\ _modem_debug_on d' = on
    /\ forall x, spare d' x = spare d x.
Proof.
  intros (Hok & Hown & Hset).
  destruct (modem_debug_on_full d on Hok) as (m & Hrun & Hok' & Hat & _ & Hspare).
  cbv zeta in *. eexists. split; [exact Hrun|].
  split; [|repeat split; exact Hspare].
  split; [exact Hok'|]. split.
  - unfold own_handler_ok in *. cbn [_at _fh set_memory set_modem_debug_on].
    destruct (_at d) as [a|]; [|contradiction].
    rewrite Hat. destruct (handler_at d a) as [h|]; [|contradiction]. exact Hown.
  - intros a h'. rewrite Hat.
    destruct (handler_at d a) as [h|] eqn:Ha; [|discriminate].
    intros [= <-]. cbn. split; [|reflexivity]. now apply (Hset a h).
Qed.

(** Deleting the node of rank [i] of the context list, or nothing. *)
Lemma delete_context_full (d : Device) (context : option addr) :
  device_ok d ->
  (forall c, context = Some c -> c ∈ _context_list d) ->
  exists d' : Device,
    delete_context context d = Some (tt, d')
    /\ device_ok d' /\ handlers_kept d d'
    /\ _context_list d' = filter (fun x => context <> Some x) (_context_list d)
    /\ objects d' = from_option (fun c => delete c (objects d)) (objects d) context
    /\ forall x, spare d x <= spare d' x.
Proof.
  intros Hok Hin.
  assert (Hlive : forall c', c' ∈ _context_list d -> context_ok d c')
    by (intros c' Hc'; now apply device_ok_context).
  destruct context as [c|].
  - specialize (Hin c eq_refl).
    pose proof (Hlive c Hin) as Hcok. unfold context_ok in Hcok.
    destruct (objects d !! c) as [o|] eqn:Hc; [|contradiction].
    destruct (context_delete_ok d c (journal d ++ [Destroyed c o]) Hok Hin)
      as (Hok' & Hkept & Hspare).
    eexists. split; [exact (delete_context_run d c o Hlive Hin Hc)|].
    split; [exact Hok'|]. split; [exact Hkept|].
    split; [reflexivity|]. split; [reflexivity | exact Hspare].
  - exists d. split; [exact (delete_context_null d Hlive)|].
    split; [exact Hok|].
    split; [apply handlers_kept_same; [apply same_settings_refl | reflexivity]|].
    split; [|split; [reflexivity | intros x; lia]].
    symmetry. apply filter_all. intros x _. discriminate.
Qed.

Lemma timeout_after_app (cs cs' : list member_call) (timeout : Z) :
  timeout_after (cs ++ cs') timeout = timeout_after cs' (timeout_after cs timeout).
Proof.
  revert timeout. induction cs as [|c cs IH]; intros timeout; [reflexivity|].
  destruct c; cbn; apply IH.
Qed.

Lemma debug_after_app (cs cs' : list member_call) (on : bool) :
  debug_after (cs ++ cs') on = debug_after cs' (debug_after cs on).
Proof.
  revert on. induction cs as [|c cs IH]; intros on; [reflexivity|].
  destruct c; cbn; apply IH.
Qed.

Lemma occurrences_cons (a x : addr) (held : list addr) :
  occurrences x (a :: held) = occurrences x held + if decide (a = x) then 1 else 0.
Proof.
  unfold occurrences. rewrite filter_cons.
  destruct (decide (a = x)); cbn [List.length]; lia.
Qed.

Lemma occurrences_nonneg (a : addr) (held : list addr) : 0 <= occurrences a held.
Proof. unfold occurrences. lia. Qed.

Lemma occurrences_delete (i : nat) (a x : addr) (held : list addr) :
  held !! i = Some a ->
  occurrences x (delete i held) = occurrences x held - if decide (a = x) then 1 else 0.
Proof.
  revert i. induction held as [|y held IH]; intros i Hi; [discriminate|].
  destruct i as [|i]; cbn in Hi.
  - injection Hi as ->. cbn [delete list_delete]. rewrite occurrences_cons. lia.
  - change (delete (S i) (y :: held)) with (y :: delete i held).
    rewrite !occurrences_cons, (IH i Hi). lia.
Qed.

Lemma delete_beyond (i : nat) (held : list addr) :
  held !! i = None -> delete i held = held.
Proof.
  revert i. induction held as [|y held IH]; intros i Hi; [reflexivity|].
  destruct i as [|i]; [discriminate|].
  change (delete (S i) (y :: held)) with (y :: delete i held).
  now rewrite (IH i Hi).
Qed.

(** Every call keeps the device in good order and leaves the client
    with handles that are covered by spare references; only [set_timeout]
    and [modem_debug_on] change the two defaults, and only
    [delete_context] leaves a handler with more spare references than the
    client holds handles. *)
Lemma invoke_client (trace_enable : bool) (c : member_call) (d : Device)
      (held : list addr) :
  client_ok d held ->
  exists (held' : list addr) (d' : Device),
    invoke trace_enable c held d = Some (held', d')
    /\ client_ok d' held'
    /\ _fh d' = _fh d /\ _at d' = _at d
    /\ _default_timeout d' = timeout_after [c] (_default_timeout d)
    /\ _modem_debug_on d' = debug_after [c] (_modem_debug_on d)
    /\ (deletes_no_context [c] = true ->
        forall x, spare d' x - occurrences x held' = spare d x - occurrences x held).
Proof.
  intros [Hd Hheld]. pose proof Hd as (Hok & _).
  assert (Hkept : forall d' : Device,
             device_ok d' -> handlers_kept d d' ->
             (forall x, spare d x <= spare d' x) ->
             client_ok d' held
             /\ _fh d' = _fh d /\ _at d' = _at d
             /\ _default_timeout d' = _default_timeout d
             /\ _modem_debug_on d' = _modem_debug_on d).
  { intros d' Hok' Hk Hspare. split; [|exact (handlers_kept_settings d d' Hk)].
    split; [now apply (settled_kept d d')|].
    intros x. specialize (Hheld x). specialize (Hspare x). lia. }
  assert (Hsame : forall d' : Device,
             device_ok d' -> handlers_kept d d' ->
             (forall x, spare d' x = spare d x) ->
             client_ok d' held
             /\ _fh d' = _fh d /\ _at d' = _at d
             /\ _default_timeout d' = _default_timeout d
             /\ _modem_debug_on d' = _modem_debug_on d
             /\ (forall x, spare d' x - occurrences x held
                           = spare d x - occurrences x held)).
  { intros d' Hok' Hk Hspare.
    destruct (Hkept d' Hok' Hk) as (H1 & H2 & H3 & H4 & H5).
    - intros x. rewrite Hspare. lia.
    - split; [exact H1|]. split; [exact H2|]. split; [exact H3|].
      split; [exact H4|]. split; [exact H5|]. intros x. now rewrite Hspare. }
  destruct c as [k fh|k|fh apn|i|fh|i|timeout|on|model];
    cbn [invoke timeout_after debug_after].
  - destruct (open_subsystem_full d k fh Hok) as (s & d' & Hrun & Hok' & Hk).
    exists held, d'. split; [run_device; now rewrite Hrun|].
    destruct (Hsame d' Hok' Hk (open_subsystem_spare d d' k fh (Some s) Hok Hrun))
      as (H1 & H2 & H3 & H4 & H5 & H6).
    split; [exact H1|]. split; [exact H2|]. split; [exact H3|].
    split; [exact H4|]. split; [exact H5|]. intros _. exact H6.
  - destruct (close_subsystem_full d k Hok) as (d' & Hrun & Hok' & Hk).
    exists held, d'. split; [run_device; now rewrite Hrun|].
    destruct (Hsame d' Hok' Hk (close_subsystem_spare d d' k Hok Hrun))
      as (H1 & H2 & H3 & H4 & H5 & H6).
    split; [exact H1|]. split; [exact H2|]. split; [exact H3|].
    split; [exact H4|]. split; [exact H5|]. intros _. exact H6.
  - destruct (create_context_full d fh apn Hok)
      as (c & a & d' & h & Hrun & Hok' & Hk & _).
    exists held, d'. split; [run_device; now rewrite Hrun|].
    destruct (Hsame d' Hok' Hk (create_context_spare d d' fh apn (Some c) Hok Hrun))
      as (H1 & H2 & H3 & H4 & H5 & H6).
    split; [exact H1|]. split; [exact H2|]. split; [exact H3|].
    split; [exact H4|]. split; [exact H5|]. intros _. exact H6.
  - destruct (delete_context_full d (_context_list d !! i) Hok)
      as (d' & Hrun & Hok' & Hk & _ & _ & Hspare).
    { intros c Hc. now apply list_elem_of_lookup_2 in Hc. }
    exists held, d'. split; [run_device; now rewrite Hrun|].
    destruct (Hkept d' Hok' Hk Hspare) as (H1 & H2 & H3 & H4 & H5).
    split; [exact H1|]. split; [exact H2|]. split; [exact H3|].
    split; [exact H4|]. split; [exact H5|].
    intros Hno. discriminate Hno.
  - destruct (get_at_handler_ok d fh Hok) as (a & d' & h & Hrun & Hok' & _).
    destruct (get_at_handler_kept d d' fh a (device_ok_pool_live d Hok) Hrun) as (Hk & _).
    destruct (get_at_handler_spare d d' fh a Hok Hrun) as [Hspare_a Hspare].
    assert (Hdiff : forall x, spare d' x - occurrences x (a :: held)
                              = spare d x - occurrences x held).
    { intros x. rewrite occurrences_cons.
      destruct (decide (a = x)) as [<-|Hne]; [lia|].
      rewrite (Hspare x) by congruence. lia. }
    exists (a :: held), d'. split; [run_device; now rewrite Hrun|].
    split; [|split; [apply Hk|split; [apply Hk|split; [apply Hk|split; [apply Hk|]]]]].
    + split; [now apply (settled_kept d d')|].
      intros x. specialize (Hheld x). specialize (Hdiff x). lia.
    + intros _. exact Hdiff.
  - destruct (held !! i) as [a|] eqn:Hi.
    + pose proof (Hheld a) as Ha_spare.
      pose proof (occurrences_delete i a a held Hi) as Hocc.
      rewrite decide_True in Hocc by reflexivity.
      pose proof (occurrences_nonneg a (delete i held)) as Hnonneg.
      assert (Hpos : 1 <= spare d a) by lia.
      unfold spare in Hpos.
      destruct (handler_at d a) as [h|] eqn:Ha; [|lia].
      assert (Hslack : users d a < Handle.ref_count h) by lia.
      destruct (release_at_handler_ok d a h Hok Ha Hslack) as (d' & Hrun & Hok' & _).
      destruct (release_at_handler_kept d d' a h (device_ok_pool_live d Hok)
                  (handler_pooled d a h Hok Ha) Ha Hrun) as (Hk & _).
      destruct (release_at_handler_spare d d' a h Hok Ha Hslack Hrun)
        as [Hspare_a Hspare].
      assert (Hdiff : forall x, spare d' x - occurrences x (delete i held)
                                = spare d x - occurrences x held).
      { intros x. rewrite (occurrences_delete i a x held Hi).
        destruct (decide (a = x)) as [<-|Hne]; [lia|].
        rewrite (Hspare x) by congruence. lia. }
      exists (delete i held), d'. split; [run_device; now rewrite Hrun|].
      split; [|split; [apply Hk|split; [apply Hk|split; [apply Hk|split; [apply Hk|]]]]].
      * split; [now apply (settled_kept d d')|].
        intros x. specialize (Hheld x). specialize (Hdiff x). lia.
      * intros _. exact Hdiff.
    + exists held, d. split; [run_device; now rewrite (delete_beyond i held Hi)|].
      split; [split; assumption|]. repeat split.
  - destruct (set_timeout_settled d timeout Hd)
      as (d' & Hrun & Hd' & Hfh & Hat & Ht & Hdb & Hspare).
    exists held, d'. split; [run_device; now rewrite Hrun|].
    split; [split; [exact Hd'|]; intros x; rewrite Hspare; apply Hheld|].
    split; [exact Hfh|]. split; [exact Hat|]. split; [exact Ht|].
    split; [exact Hdb|]. intros _ x. now rewrite Hspare.
  - destruct (modem_debug_on_settled d on Hd)
      as (d' & Hrun & Hd' & Hfh & Hat & Ht & Hdb & Hspare).
    exists held, d'. split; [run_device; now rewrite Hrun|].
    split; [split; [exact Hd'|]; intros x; rewrite Hspare; apply Hheld|].
    split; [exact Hfh|]. split; [exact Hat|]. split; [exact Ht|].
    split; [exact Hdb|]. intros _ x. now rewrite Hspare.
  - destruct (init_module_settled trace_enable model d Hd)
      as (lines & d' & Hrun & Hd' & Hsame' & Hspare).
    exists held, d'. split; [run_device; now rewrite Hrun|].
    split; [|split; [apply Hsame'|split; [apply Hsame'|split; [apply Hsame'|
             split; [apply Hsame'|intros _ x; now rewrite Hspare]]]]].
    split; [exact Hd'|]. intros x. rewrite Hspare. apply Hheld.
Qed.

Lemma invoke_all_client (trace_enable : bool) (cs : list member_call) (d : Device)
      (held : list addr) :
  client_ok d held ->
  exists (held' : list addr) (d' : Device),
    invoke_all trace_enable cs held d = Some (held', d')
    /\ client_ok d' held'
    /\ _fh d' = _fh d /\ _at d' = _at d
    /\ _default_timeout d' = timeout_after cs (_default_timeout d)
    /\ _modem_debug_on d' = debug_after cs (_modem_debug_on d)
    /\ (deletes_no_context cs = true ->
        forall x, spare d' x - occurrences x held' = spare d x - occurrences x held).
Proof.
  revert d held. induction cs as [|c cs IH]; intros d held Hd.
  - exists held, d. split; [reflexivity|]. split; [exact Hd|]. repeat split.
  - destruct (invoke_client trace_enable c d held Hd)
      as (held1 & d1 & Hrun1 & Hd1 & Hfh1 & Hat1 & Ht1 & Hdb1 & Hexact1).
    destruct (IH d1 held1 Hd1)
      as (held' & d' & Hrun & Hd' & Hfh & Hat & Ht & Hdb & Hexact).
    exists held', d'. split; [cbn [invoke_all]; run_device; now rewrite Hrun1|].
    split; [exact Hd'|].
    split; [congruence|]. split; [congruence|].
    change (c :: cs) with ([c] ++ cs).
    rewrite timeout_after_app, debug_after_app.
    split; [congruence|]. split; [congruence|].
    intros Hno x. unfold deletes_no_context in Hno.
    rewrite forallb_app in Hno. apply andb_true_iff in Hno as [Hc Hcs].
    rewrite (Hexact Hcs x). exact (Hexact1 Hc x).
Qed.

(** The constructor leaves one handler, on the transport of the
    device, with the default timeout and the debug flag off. *)
Lemma AT_CellularDevice_new_settled (fh : FileHandle) :
  exists (d : Device) (a : addr),
    AT_CellularDevice_new fh = Some d
    /\ device_settled d
    /\ _fh d = fh /\ _at d = Some a
    /\ _default_timeout d = DEFAULT_AT_TIMEOUT
    /\ _modem_debug_on d = false
    /\ forall x, spare d x = 0.
Proof.
  destruct (AT_CellularDevice_new_ok fh) as (d & Hnew & Hok).
  assert (Hd : d = set_at (Some 1%positive) (held (initial_members fh) fh 1%positive 1))
    by (vm_compute in Hnew; now injection Hnew as <-).
  exists d, 1%positive. split; [exact Hnew|]. subst d.
  split; [|repeat split].
  2:{ intros x. unfold spare, handler_at. cbn.
      destruct (decide (x = 1%positive)) as [->|Hne].
      - rewrite lookup_insert_eq. reflexivity.
      - rewrite lookup_insert_ne by congruence. now rewrite lookup_empty. }
  split; [exact Hok|]. split.
  - reflexivity.
  - intros a h. unfold handler_at. cbn.
    destruct (decide (a = 1%positive)) as [->|Hne].
    + rewrite lookup_insert_eq. intros [= <-]. split; reflexivity.
    + rewrite lookup_insert_ne by congruence. now rewrite lookup_empty.
Qed.

(** ** A transport that has its handler *)

Lemma recounted_same (d : Device) (a : addr) (h : Handle.t) :
  handler_at d a = Some h -> recounted d a h (Handle.ref_count h) = d.
Proof.
  intros Ha. apply handler_at_Some in Ha. unfold recounted.
  replace {| Handle.file_handle := Handle.file_handle h;
             Handle.ref_count := Handle.ref_count h;
             Handle.at_timeout := Handle.at_timeout h;
             Handle.debug := Handle.debug h |} with h by now destruct h.
  rewrite insert_id by exact Ha. now destruct d.
Qed.

Lemma recounted_handler (d : Device) (a : addr) (h : Handle.t) (count : Z) :
  handler_at (recounted d a h count) a
  = Some {| Handle.file_handle := Handle.file_handle h;
            Handle.ref_count := count;
            Handle.at_timeout := Handle.at_timeout h;
            Handle.debug := Handle.debug h |}.
Proof. unfold recounted. rewrite handler_at_insert. now rewrite decide_True. Qed.

Lemma recounted_again (d : Device) (a : addr) (h : Handle.t) (count count' : Z) :
  set_memory
    (<[a := ObjATHandler
              {| Handle.file_handle := Handle.file_handle h;
                 Handle.ref_count := count';
                 Handle.at_timeout := Handle.at_timeout h;
                 Handle.debug := Handle.debug h |}]>
       (objects (recounted d a h count)))
    (journal (recounted d a h count)) (recounted d a h count)
  = recounted d a h count'.
Proof. unfold recounted. cbn. now rewrite insert_insert_eq. Qed.

Lemma pooled_for_same_transports (d d' : Device) (T : FileHandle) (l : list addr) :
  (forall x, Handle.file_handle <$> handler_at d' x = Handle.file_handle <$> handler_at d x) ->
  pooled_for d' T l = pooled_for d T l.
Proof.
  intros Hsame. unfold pooled_for. induction l as [|x l IH]; [reflexivity|].
  cbn [List.find]. now rewrite Hsame, IH.
Qed.

Section Pooled.

Variable d : Device.
Variable fileHandle : option FileHandle.
Variable a : addr.
Variable h : Handle.t.

Hypothesis Hlive : pool_live d.
Hypothesis Hpooled : pooled_for d (transport_of d fileHandle) (_atHandlers d) = Some a.
Hypothesis Ha : handler_at d a = Some h.

Lemma recounted_transports (count : Z) (x : addr) :
  Handle.file_handle <$> handler_at (recounted d a h count) x
  = Handle.file_handle <$> handler_at d x.
Proof.
  unfold recounted. rewrite handler_at_insert.
  destruct (decide (a = x)) as [<-|Hne]; [now rewrite Ha | reflexivity].
Qed.

Lemma recounted_pool_live (count : Z) : pool_live (recounted d a h count).
Proof.
  unfold pool_live in *. change (_atHandlers (recounted d a h count)) with (_atHandlers d).
  eapply Forall_impl; [exact Hlive|]. intros x [hx Hx].
  pose proof (recounted_transports count x) as Hfh. rewrite Hx in Hfh.
  destruct (handler_at (recounted d a h count) x); [eauto | discriminate].
Qed.

Lemma recounted_pooled (count : Z) :
  pooled_for (recounted d a h count)
    (transport_of (recounted d a h count) fileHandle)
    (_atHandlers (recounted d a h count)) = Some a.
Proof.
  change (_atHandlers (recounted d a h count)) with (_atHandlers d).
  change (transport_of (recounted d a h count) fileHandle)
    with (transport_of d fileHandle).
  rewrite (pooled_for_same_transports d); [exact Hpooled|].
  apply recounted_transports.
Qed.

Lemma get_at_handler_recounted (count : Z) :
  get_at_handler fileHandle (recounted d a h count)
  = Some (Some a, recounted d a h (count + 1)).
Proof.
  rewrite (get_at_handler_found _ fileHandle a _ (recounted_pool_live count)
             (recounted_pooled count) (recounted_handler d a h count)).
  unfold Handle.inc_ref_count.
  cbn [Handle.file_handle Handle.ref_count Handle.at_timeout Handle.debug].
  now rewrite recounted_again.
Qed.

Lemma release_at_handler_recounted (count : Z) :
  count <> 1 ->
  release_at_handler (Some a) (recounted d a h count)
  = Some (tt, recounted d a h (count - 1)).
Proof.
  intros Hcount.
  rewrite (release_at_handler_shared _ a _ (recounted_handler d a h count))
    by exact Hcount.
  unfold Handle.dec_ref_count.
  cbn [Handle.file_handle Handle.ref_count Handle.at_timeout Handle.debug].
  now rewrite recounted_again.
Qed.

Lemma acquire_n_recounted (n : nat) (count : Z) :
  acquire_n n fileHandle (recounted d a h count)
  = Some (replicate n (Some a), recounted d a h (count + Z.of_nat n)).
Proof.
  revert count. induction n as [|n IH]; intros count.
  - cbn. now rewrite Z.add_0_r.
  - cbn [acquire_n]. run_device. rewrite get_at_handler_recounted.
    run_device. rewrite IH. cbn [replicate].
    now replace (count + 1 + Z.of_nat n) with (count + Z.of_nat (S n)) by lia.
Qed.

Lemma release_each_recounted (n : nat) (count : Z) :
  1 <= count ->
  release_each (replicate n (Some a)) (recounted d a h (count + Z.of_nat n))
  = Some (tt, recounted d a h count).
Proof.
  intros Hcount. induction n as [|n IH].
  - cbn. now rewrite Z.add_0_r.
  - cbn [replicate release_each]. run_device.
    rewrite release_at_handler_recounted by lia.
    now replace (count + Z.of_nat (S n) - 1) with (count + Z.of_nat n) by lia.
Qed.

End Pooled.

(** X6.  For a transport that has its handler in the pool (the
    transport of the device itself among them), N calls of
    [get_at_handler] return that handler each time, raising its count by
    N and constructing nothing, and N calls of [release_at_handler] on
    the handles returned give back the device exactly as it was: the
    handler stays in the pool with its count as before. *)
Theorem acquire_release_pooled (d : Device) (fileHandle : option FileHandle)
        (n : nat) (a : addr) :
  device_ok d ->
  pooled_for d (transport_of d fileHandle) (_atHandlers d) = Some a ->
  exists (h h1 : Handle.t) (d1 : Device),
    handler_at d a = Some h
    /\ Handle.file_handle h = transport_of d fileHandle
    /\ acquire_n n fileHandle d = Some (replicate n (Some a), d1)
    /\ handler_at d1 a = Some h1
    /\ Handle.ref_count h1 = Handle.ref_count h + Z.of_nat n
    /\ journal d1 = journal d
    /\ _atHandlers d1 = _atHandlers d
    /\ release_each (replicate n (Some a)) d1 = Some (tt, d).
Proof.
  intros Hok Hpooled.
  pose proof (device_ok_pool_live d Hok) as Hlive.
  destruct (pooled_for_Some d _ _ a Hpooled) as (Hin & h & Ha & Hfh).
  pose proof (device_ok_ref_count_pos d a h Hok Hin Ha) as Hpos.
  pose proof (recounted_same d a h Ha) as Hd.
  eexists h, _, (recounted d a h (Handle.ref_count h + Z.of_nat n)).
  split; [exact Ha|]. split; [exact Hfh|].
  split.
  { rewrite <- Hd at 1.
    exact (acquire_n_recounted d fileHandle a h Hlive Hpooled Ha n (Handle.ref_count h)). }
  split; [apply recounted_handler|].
  split; [reflexivity|]. split; [reflexivity|]. split; [reflexivity|].
  rewrite (release_each_recounted d a h n (Handle.ref_count h) Hpos).
  now rewrite Hd.
Qed.

Lemma acquire_release_pooled_witness :
  let d := SampleDevice.fresh_device in
  exists (a : addr) (d1 : Device),
    acquire_n 3 None d = Some ([Some a; Some a; Some a], d1)
    /\ _at d = Some a
    /\ journal d1 = journal d
    /\ release_each [Some a; Some a; Some a] d1 = Some (tt, d).
Proof.
  intros d.
  assert (Hok : device_ok d) by (apply (bool_decide_unpack _); vm_compute; exact I).
  destruct (acquire_release_pooled d None 3 1%positive Hok)
    as (h & h1 & d1 & _ & _ & Hacq & _ & _ & Hj & _ & Hrel);
    [vm_compute; reflexivity|].
  exists 1%positive, d1. split; [exact Hacq|]. split; [reflexivity|].
  split; [exact Hj | exact Hrel].
Defined.

(** ** One handler for each transport *)

Lemma omap_NoDup_inj {A B : Type} (f : A -> option B) (l : list A) (x y : A) (v : B) :
  NoDup (omap f l) -> x ∈ l -> y ∈ l -> f x = Some v -> f y = Some v -> x = y.
Proof.
  induction l as [|z l IH]; intros Hnd Hx Hy Hfx Hfy.
  - now apply not_elem_of_nil in Hx.
  - simpl in Hnd.
    assert (Htail : forall w, w ∈ l -> f w = Some v -> v ∈ omap f l).
    { intros w Hw Hfw. apply list_elem_of_omap. now exists w. }
    apply elem_of_cons in Hx as [->|Hx]; apply elem_of_cons in Hy as [->|Hy].
    + reflexivity.
    + rewrite Hfx in Hnd. apply NoDup_cons in Hnd as [Hnotin _].
      now destruct Hnotin; apply (Htail y).
    + rewrite Hfy in Hnd. apply NoDup_cons in Hnd as [Hnotin _].
      now destruct Hnotin; apply (Htail x).
    + apply IH; try assumption.
      destruct (f z); [now apply NoDup_cons in Hnd as [_ Hnd] | exact Hnd].
Qed.

(** In a device in good order two live handlers on one transport are
    one handler. *)
Lemma device_ok_one_handler (d : Device) (T : FileHandle) :
  device_ok d -> at_most_one_handler d T.
Proof.
  intros Hok a1 a2 h1 h2 Ha1 Ha2 Hfh1 Hfh2.
  pose proof Hok as (_ & _ & Hfhs & _).
  apply (omap_NoDup_inj (fun a => Handle.file_handle <$> handler_at d a)
           (_atHandlers d) a1 a2 T Hfhs).
  - exact (handler_pooled d a1 h1 Hok Ha1).
  - exact (handler_pooled d a2 h2 Hok Ha2).
  - now rewrite Ha1; cbn; rewrite Hfh1.
  - now rewrite Ha2; cbn; rewrite Hfh2.
Qed.

(** X7.  Two calls of [get_at_handler] for different transports
    return different handlers, each on its transport; the second call
    leaves the handler of the first as it was, and so does the release of
    the second handle. *)
Theorem distinct_transports_distinct_handlers (d : Device)
        (fh1 fh2 : option FileHandle) :
  device_ok d ->
  transport_of d fh1 <> transport_of d fh2 ->
  exists (a1 a2 : addr) (d1 d2 d3 : Device) (h1 h2 : Handle.t),
    get_at_handler fh1 d = Some (Some a1, d1)
    /\ get_at_handler fh2 d1 = Some (Some a2, d2)
    /\ a1 <> a2
    /\ handler_at d1 a1 = Some h1
    /\ Handle.file_handle h1 = transport_of d fh1
    /\ handler_at d2 a2 = Some h2
    /\ Handle.file_handle h2 = transport_of d fh2
    /\ handler_at d2 a1 = Some h1
    /\ release_at_handler (Some a2) d2 = Some (tt, d3)
    /\ handler_at d3 a1 = Some h1.
Proof.
  intros Hok Hdiff.
  destruct (get_at_handler_ok d fh1 Hok)
    as (a1 & d1 & h1 & Hget1 & Hok1 & Ha1 & Hfh1 & _ & _ & _ & _ & Hfh).
  destruct (get_at_handler_ok d1 fh2 Hok1)
    as (a2 & d2 & h2 & Hget2 & Hok2 & Ha2 & Hfh2 & Hslack & _).
  assert (HT2 : transport_of d1 fh2 = transport_of d fh2)
    by (unfold transport_of; now rewrite Hfh).
  rewrite HT2 in Hfh2.
  destruct (get_at_handler_kept d1 d2 fh2 a2 (device_ok_pool_live d1 Hok1) Hget2)
    as ([_ Hkept] & Hothers & _).
  assert (Hne : a1 <> a2).
  { intros ->. specialize (Hkept a2 h2 Ha2). rewrite Ha1 in Hkept.
    destruct Hkept as (Heq & _). congruence. }
  assert (Ha1' : handler_at d2 a1 = Some h1).
  { unfold handler_at. rewrite (Hothers a1 Hne). exact Ha1. }
  destruct (release_at_handler_ok d2 a2 h2 Hok2 Ha2 Hslack) as (d3 & Hrel & _).
  destruct (release_at_handler_kept d2 d3 a2 h2 (device_ok_pool_live d2 Hok2)
              (handler_pooled d2 a2 h2 Hok2 Ha2) Ha2 Hrel) as (_ & Hothers3).
  exists a1, a2, d1, d2, d3, h1, h2.
  split; [exact Hget1|]. split; [exact Hget2|]. split; [exact Hne|].
  split; [exact Ha1|]. split; [exact Hfh1|]. split; [exact Ha2|].
  split; [exact Hfh2|]. split; [exact Ha1'|]. split; [exact Hrel|].
  unfold handler_at. rewrite (Hothers3 a1 Hne). exact Ha1'.
Qed.

Lemma distinct_transports_distinct_handlers_witness :
  let d := SampleDevice.fresh_device in
  exists (a1 a2 : addr) (d1 d2 : Device),
    get_at_handler None d = Some (Some a1, d1)
    /\ get_at_handler (Some 9%positive) d1 = Some (Some a2, d2)
    /\ a1 <> a2.
Proof.
  intros d.
  assert (Hok : device_ok d) by (apply (bool_decide_unpack _); vm_compute; exact I).
  destruct (distinct_transports_distinct_handlers d None (Some 9%positive) Hok)
    as (a1 & a2 & d1 & d2 & _ & _ & _ & Hget1 & Hget2 & Hne & _);
    [vm_compute; discriminate|].
  exists a1, a2, d1, d2. split; [exact Hget1|]. split; [exact Hget2 | exact Hne].
Defined.

(** The handler of the device is the one the pool holds for its
    transport. *)
Lemma own_handler_pooled (d : Device) :
  device_ok d -> own_handler_ok d ->
  exists (a : addr) (h : Handle.t),
    _at d = Some a
    /\ handler_at d a = Some h
    /\ Handle.file_handle h = _fh d
    /\ a ∈ _atHandlers d
    /\ 1 <= Handle.ref_count h
    /\ pooled_for d (_fh d) (_atHandlers d) = Some a.
Proof.
  intros Hok Hown. unfold own_handler_ok in Hown.
  destruct (_at d) as [a|] eqn:Hat; [|contradiction].
  destruct (handler_at d a) as [h|] eqn:Ha; [|contradiction].
  pose proof (handler_pooled d a h Hok Ha) as Hin.
  exists a, h. split; [reflexivity|]. split; [exact Ha|]. split; [exact Hown|].
  split; [exact Hin|].
  split; [exact (device_ok_ref_count_pos d a h Hok Hin Ha)|].
  destruct (pooled_for d (_fh d) (_atHandlers d)) as [a'|] eqn:Hfind.
  - destruct (pooled_for_Some d (_fh d) _ a' Hfind) as (_ & h' & Ha' & Hfh').
    f_equal. exact (device_ok_one_handler d (_fh d) Hok a' a h' h Ha' Ha Hfh' Hown).
  - pose proof (proj1 (pooled_for_None d (_fh d) _) Hfind a h Hin Ha) as Hno.
    now destruct Hno.
Qed.

(** ** The device between its construction and its destruction *)

(** The device and the handles a list of member calls leaves. *)
Lemma member_calls_client (trace_enable : bool) (fh : FileHandle)
      (cs : list member_call) :
  exists (d0 d : Device) (held : list addr) (a : addr),
    AT_CellularDevice_new fh = Some d0
    /\ invoke_all trace_enable cs [] d0 = Some (held, d)
    /\ client_ok d held
    /\ _fh d = fh /\ _at d0 = Some a /\ _at d = Some a
    /\ _default_timeout d = timeout_after cs DEFAULT_AT_TIMEOUT
    /\ _modem_debug_on d = debug_after cs false
    /\ (deletes_no_context cs = true -> forall x, spare d x = occurrences x held).
Proof.
  destruct (AT_CellularDevice_new_settled fh)
    as (d0 & a & Hnew & Hd0 & Hfh0 & Hat0 & Ht0 & Hdb0 & Hspare0).
  assert (Hclient0 : client_ok d0 []).
  { split; [exact Hd0|]. intros x. apply (spare_nonneg d0 x), Hd0. }
  destruct (invoke_all_client trace_enable cs d0 [] Hclient0)
    as (held & d & Hrun & Hd & Hfh & Hat & Ht & Hdb & Hexact).
  exists d0, d, held, a. split; [exact Hnew|]. split; [exact Hrun|]. split; [exact Hd|].
  split; [congruence|]. split; [congruence|]. split; [congruence|].
  split; [congruence|]. split; [congruence|].
  intros Hno x. specialize (Hexact Hno x). rewrite (Hspare0 x) in Hexact.
  change (occurrences x []) with 0 in Hexact. lia.
Qed.

(** X8.  Whatever member calls are made on a device after its
    construction, [_at] remains the handler the constructor obtained: it
    is live, in the pool and on the transport of the device, with a
    count of at least one, so that the device-wide operations never act
    on a dead engine; and [get_at_handler] called without a transport
    returns that very handler and constructs nothing. *)
Theorem own_handler_kept (trace_enable : bool) (fh : FileHandle)
        (cs : list member_call) :
  exists (d0 d d' : Device) (held : list addr) (a : addr) (h : Handle.t),
    AT_CellularDevice_new fh = Some d0
    /\ invoke_all trace_enable cs [] d0 = Some (held, d)
    /\ _at d0 = Some a /\ _at d = Some a
    /\ a ∈ _atHandlers d
    /\ handler_at d a = Some h
    /\ Handle.file_handle h = fh
    /\ 1 <= Handle.ref_count h
    /\ get_at_handler None d = Some (Some a, d')
    /\ journal d' = journal d.
Proof.
  destruct (member_calls_client trace_enable fh cs)
    as (d0 & d & held & a & Hnew & Hrun & ((Hok & Hown & _) & _) & Hfh & Hat0 & Hat & _).
  destruct (own_handler_pooled d Hok Hown)
    as (a' & h & Hat' & Ha & Hown' & Hin & Hpos & Hpooled).
  rewrite Hat in Hat'. injection Hat' as <-. rewrite Hfh in Hown'.
  pose proof (device_ok_pool_live d Hok) as Hlive.
  eexists d0, d, _, held, a, h.
  split; [exact Hnew|]. split; [exact Hrun|]. split; [exact Hat0|].
  split; [exact Hat|]. split; [exact Hin|]. split; [exact Ha|].
  split; [exact Hown'|]. split; [exact Hpos|].
  split; [exact (get_at_handler_found d None a h Hlive Hpooled Ha) | reflexivity].
Qed.

(** X9.  The timeout and the debug flag reach every handler, those
    of the pool and those built later: whatever member calls are made
    after the construction, every live handler carries the timeout of
    the last [set_timeout] (or the default of 1000 ms when there was
    none) and the flag of the last [modem_debug_on] (or false). *)
Theorem settings_reach_every_handler (trace_enable : bool) (fh : FileHandle)
        (cs : list member_call) :
  exists (d0 d : Device) (held : list addr),
    AT_CellularDevice_new fh = Some d0
    /\ invoke_all trace_enable cs [] d0 = Some (held, d)
    /\ _default_timeout d = timeout_after cs DEFAULT_AT_TIMEOUT
    /\ _modem_debug_on d = debug_after cs false
    /\ forall (a : addr) (h : Handle.t),
         handler_at d a = Some h ->
         Handle.at_timeout h = timeout_after cs DEFAULT_AT_TIMEOUT
         /\ Handle.debug h = debug_after cs false.
Proof.
  destruct (member_calls_client trace_enable fh cs)
    as (d0 & d & held & a & Hnew & Hrun & ((_ & _ & Hset) & _) & _ & _ & _ & Ht & Hdb & _).
  exists d0, d, held. split; [exact Hnew|]. split; [exact Hrun|].
  split; [exact Ht|]. split; [exact Hdb|].
  intros x h Hx. destruct (Hset x h Hx) as [Htx Hdx].
  split; congruence.
Qed.

(** X10.  Whatever member calls are made after the construction, the
    device stays in order: no two live handlers are on the same
    transport and every live handler is in the pool with a count of at
    least one; the counter of a slot is zero exactly when the slot is
    null, and an open subsystem is a live object of its kind built on a
    live handler; every node of the context list is a live context built
    on a live handler, and no node occurs twice. *)
Theorem member_calls_keep_order (trace_enable : bool) (fh : FileHandle)
        (cs : list member_call) :
  exists (d0 d : Device) (held : list addr),
    AT_CellularDevice_new fh = Some d0
    /\ invoke_all trace_enable cs [] d0 = Some (held, d)
    /\ (forall T, at_most_one_handler d T)
    /\ (forall a h, handler_at d a = Some h ->
          a ∈ _atHandlers d /\ 1 <= Handle.ref_count h)
    /\ (forall k,
          match slot_of k d with
          | Some s =>
              1 <= ref_count_of k d
              /\ exists a h, objects d !! s = Some (ObjSubsystem k a)
                             /\ handler_at d a = Some h
          | None => ref_count_of k d = 0
          end)
    /\ NoDup (_context_list d)
    /\ (forall c, c ∈ _context_list d ->
          exists a apn h, objects d !! c = Some (ObjContext a apn)
                          /\ handler_at d a = Some h).
Proof.
  destruct (member_calls_client trace_enable fh cs)
    as (d0 & d & held & a & Hnew & Hrun & ((Hok & _) & _) & _).
  exists d0, d, held. split; [exact Hnew|]. split; [exact Hrun|].
  split; [intros T; now apply device_ok_one_handler|].
  split.
  { intros x h Hx. pose proof (handler_pooled d x h Hok Hx) as Hin.
    split; [exact Hin | exact (device_ok_ref_count_pos d x h Hok Hin Hx)]. }
  split.
  { intros k. pose proof (device_ok_slot d k Hok) as Hk. unfold slot_ok in Hk.
    destruct (slot_of k d) as [s|]; [|exact Hk].
    destruct (objects d !! s) as [[|k' at_handler|]|]; try contradiction.
    destruct Hk as (-> & Hin & Hpos).
    destruct (device_ok_handler d at_handler Hok Hin) as (h & Hh & _).
    split; [exact Hpos|]. now exists at_handler, h. }
  split; [apply Hok|].
  intros c Hc. pose proof (device_ok_context d c Hok Hc) as Hcok.
  unfold context_ok in Hcok.
  destruct (objects d !! c) as [[| |at_handler apn]|]; try contradiction.
  destruct (device_ok_handler d at_handler Hok Hcok) as (h & Hh & _).
  now exists at_handler, apn, h.
Qed.

(** X11.  The destructor frees everything after any member calls,
    deletions of contexts, changes of the timeout and of the debug flag
    and [init_module] included: it runs without touching a dead object
    and leaves an empty heap. *)
Theorem destructor_after_member_calls (trace_enable : bool) (fh : FileHandle)
        (cs : list member_call) :
  exists (d0 d : Device) (held : list addr) (j : list heap_event),
    AT_CellularDevice_new fh = Some d0
    /\ invoke_all trace_enable cs [] d0 = Some (held, d)
    /\ AT_CellularDevice_delete d = Some (∅, j).
Proof.
  destruct (member_calls_client trace_enable fh cs)
    as (d0 & d & held & a & Hnew & Hrun & ((Hok & _) & _) & _).
  destruct (destructor_leaves_nothing d Hok) as (j & Hdelete).
  exists d0, d, held, j. split; [exact Hnew|]. split; [exact Hrun | exact Hdelete].
Qed.


(** X12.  A handle is never freed under the client that holds it:
    whatever calls are made after the construction (the closes of
    subsystems built on the same handler and the deletions of contexts
    among them), every handle the client has obtained from
    [get_at_handler] and not yet released is a live handler of the pool,
    and its count covers the references of the device (its own [_at], the
    open subsystems and the contexts built on it) together with the
    handles the client holds on it. *)
Theorem held_handles_stay_live (trace_enable : bool) (fh : FileHandle)
        (cs : list member_call) :
  exists (d0 d : Device) (held : list addr),
    AT_CellularDevice_new fh = Some d0
    /\ invoke_all trace_enable cs [] d0 = Some (held, d)
    /\ forall a, a ∈ held ->
         exists h, handler_at d a = Some h
                   /\ a ∈ _atHandlers d
                   /\ users d a + occurrences a held <= Handle.ref_count h.
Proof.
  destruct (member_calls_client trace_enable fh cs)
    as (d0 & d & held & a0 & Hnew & Hrun & ((Hok & _) & Hheld) & _).
  exists d0, d, held. split; [exact Hnew|]. split; [exact Hrun|].
  intros a Ha. specialize (Hheld a).
  assert (Hocc : 1 <= occurrences a held).
  { unfold occurrences.
    assert (Hin : a ∈ filter (fun x => x = a) held)
      by (apply list_elem_of_filter; now split).
    destruct (filter (fun x => x = a) held); [now apply not_elem_of_nil in Hin|].
    cbn [List.length]. lia. }
  unfold spare in Hheld. destruct (handler_at d a) as [h|] eqn:Hlive; [|lia].
  exists h. split; [reflexivity|].
  split; [exact (handler_pooled d a h Hok Hlive) | lia].
Qed.

(** A client takes a handle on transport 9; the network subsystem is
    then opened on that transport and closed again.  The close gives back
    the reference of the subsystem, and the handler stays, with the one
    reference of the client. *)
Lemma held_handle_survives_close :
  let cs := [GetAtHandler (Some 9%positive); OpenSubsystem Network (Some 9%positive);
             CloseSubsystem Network] in
  exists (d : Device) (a : addr) (h : Handle.t),
    invoke_all false cs [] SampleDevice.fresh_device = Some ([a], d)
    /\ _network d = None
    /\ handler_at d a = Some h
    /\ Handle.file_handle h = 9%positive
    /\ Handle.ref_count h = 1.
Proof.
  intros cs.
  destruct (invoke_all false cs [] SampleDevice.fresh_device) as [[held d]|] eqn:Hrun;
    vm_compute in Hrun; [|discriminate].
  injection Hrun as <- <-.
  eexists _, _, _. split; [reflexivity|]. repeat split; reflexivity.
Qed.

(** X13.  The counts are exact as long as no context is deleted:
    after any calls that delete no context, the count of every live
    handler is the number of references the device holds on it (its own
    [_at], the open subsystems and the contexts built on it) plus the
    number of handles the client holds on it, and that number is at least
    one; so a handler is in the pool exactly as long as somebody uses it.
    [delete_context] is left out: it frees the context and makes no call
    of [release_at_handler]. *)
Theorem reference_counts_exact (trace_enable : bool) (fh : FileHandle)
        (cs : list member_call) :
  deletes_no_context cs = true ->
  exists (d0 d : Device) (held : list addr),
    AT_CellularDevice_new fh = Some d0
    /\ invoke_all trace_enable cs [] d0 = Some (held, d)
    /\ forall a h, handler_at d a = Some h ->
         Handle.ref_count h = users d a + occurrences a held
         /\ 1 <= users d a + occurrences a held.
Proof.
  intros Hno.
  destruct (member_calls_client trace_enable fh cs)
    as (d0 & d & held & a0 & Hnew & Hrun & ((Hok & _) & _) & _ & _ & _ & _ & _ & Hexact).
  exists d0, d, held. split; [exact Hnew|]. split; [exact Hrun|].
  intros a h Ha. specialize (Hexact Hno a). unfold spare in Hexact.
  rewrite Ha in Hexact.
  pose proof (device_ok_ref_count_pos d a h Hok (handler_pooled d a h Hok Ha) Ha) as Hpos.
  split; lia.
Qed.

Lemma reference_counts_exact_witness :
  let cs := [GetAtHandler (Some 9%positive); OpenSubsystem Network (Some 9%positive);
             CreateContext None (Some "internet"); OpenSubsystem SMS None;
             CloseSubsystem Network; ReleaseAtHandler 0] in
  exists (d0 d : Device) (held : list addr),
    AT_CellularDevice_new 7%positive = Some d0
    /\ invoke_all false cs [] d0 = Some (held, d)
    /\ forall a h, handler_at d a = Some h ->
         Handle.ref_count h = users d a + occurrences a held.
Proof.
  intros cs.
  destruct (reference_counts_exact false 7%positive cs) as (d0 & d & held & Hnew & Hrun & Hexact);
    [reflexivity|].
  exists d0, d, held. split; [exact Hnew|]. split; [exact Hrun|].
  intros a h Ha. exact (proj1 (Hexact a h Ha)).
Defined.





(** ** The context list *)

(** A context keeps its handler through a call that keeps the handlers
    and the objects that are not handlers. *)
Lemma context_for_kept (d d' : Device) (T : FileHandle) (apn : option string)
      (c : addr) :
  device_ok d' ->
  handlers_kept d d' ->
  (forall x o, objects d !! x = Some o ->
     (forall h0, o <> ObjATHandler h0) -> objects d' !! x = Some o) ->
  c ∈ _context_list d' ->
  context_for d T apn c -> context_for d' T apn c.
Proof.
  intros Hok' [_ Hkept] Hobjects Hin (a & h & Hc & Ha & Hfh).
  assert (Hc' : objects d' !! c = Some (ObjContext a apn))
    by (apply Hobjects; [exact Hc | intros h0; discriminate]).
  pose proof (device_ok_context d' c Hok' Hin) as Hcok. unfold context_ok in Hcok.
  rewrite Hc' in Hcok.
  destruct (device_ok_handler d' a Hok' Hcok) as (h' & Ha' & _).
  exists a, h'. split; [exact Hc'|]. split; [exact Ha'|].
  specialize (Hkept a h' Ha'). rewrite Ha in Hkept.
  destruct Hkept as (-> & _). exact Hfh.
Qed.

Lemma create_each_full (requests : list (option FileHandle * option string))
      (d : Device) :
  device_ok d ->
  exists (cs : list addr) (d' : Device),
    create_each requests d = Some (Some <$> cs, d')
    /\ device_ok d'
    /\ _fh d' = _fh d
    /\ _context_list d' = _context_list d ++ cs
    /\ Forall2 (fun c request =>
                  context_for d' (transport_of d request.1) request.2 c)
               cs requests
    /\ (forall c T apn, c ∈ _context_list d ->
          context_for d T apn c -> context_for d' T apn c)
    /\ (forall c, c ∈ cs -> objects d !! c = None).
Proof.
  revert d. induction requests as [|[fh apn] rest IH]; intros d Hok.
  - exists [], d. split; [reflexivity|]. split; [exact Hok|]. split; [reflexivity|].
    split; [now rewrite app_nil_r|]. split; [constructor|].
    split; [intros; assumption|]. intros c Hc. now apply not_elem_of_nil in Hc.
  - destruct (create_context_full d fh apn Hok)
      as (c & a & d1 & h & Hrun1 & Hok1 & Hkept1 & Hlist1 & Hfresh & Hc1 & Ha1 & Hfh1
          & Hobjects1 & Hlive1).
    destruct (IH d1 Hok1)
      as (cs & d' & Hrun & Hok' & Hfh' & Hlist' & Heach & Hold & Hnew).
    pose proof (handlers_kept_settings d d1 Hkept1) as (Hfh01 & _).
    exists (c :: cs), d'.
    split; [cbn [create_each]; run_device; rewrite Hrun1; run_device; now rewrite Hrun|].
    split; [exact Hok'|]. split; [congruence|].
    split; [rewrite Hlist', Hlist1; now rewrite <- app_assoc|].
    split.
    + constructor.
      * apply Hold; [rewrite Hlist1; apply elem_of_app; right; now left|].
        now exists a, h.
      * eapply Forall2_impl; [exact Heach|]. intros c' [fh' apn'] Hc'. cbn in *.
        unfold transport_of in *. now rewrite Hfh01 in Hc'.
    + split.
      * intros c' T apn' Hin Hfor. apply Hold.
        -- rewrite Hlist1. apply elem_of_app. now left.
        -- apply (context_for_kept d d1); try assumption.
           rewrite Hlist1. apply elem_of_app. now left.
      * intros c' Hc'. apply elem_of_cons in Hc' as [->|Hc']; [exact Hfresh|].
        pose proof (Hnew c' Hc') as Hnone.
        destruct (objects d !! c') as [o|] eqn:Hlive; [|reflexivity].
        destruct (Hlive1 c') as [o1 Ho1]; [rewrite Hlive; eauto|]. congruence.
Qed.

(** X14.  [create_context] adds at the end of the list: contexts
    created one after the other stand in the list in the order of their
    creation, after those that were there, which stay as they were; each
    is a new object that carries its access point name and is built on a
    live handler for the transport asked for (the transport of the device
    when none is given); [get_context_list] returns the head of that
    list. *)
Theorem create_context_appends (requests : list (option FileHandle * option string))
        (d : Device) :
  device_ok d ->
  exists (cs : list addr) (d' : Device),
    create_each requests d = Some (Some <$> cs, d')
    /\ _context_list d' = _context_list d ++ cs
    /\ List.length cs = List.length requests
    /\ NoDup cs
    /\ (forall c, c ∈ cs -> objects d !! c = None)
    /\ Forall2 (fun c request =>
                  context_for d' (transport_of d request.1) request.2 c)
               cs requests
    /\ (forall c T apn, c ∈ _context_list d ->
          context_for d T apn c -> context_for d' T apn c)
    /\ get_context_list d' = Some (head (_context_list d ++ cs), d')
    /\ device_ok d'.
Proof.
  intros Hok.
  destruct (create_each_full requests d Hok)
    as (cs & d' & Hrun & Hok' & _ & Hlist & Heach & Hold & Hnew).
  exists cs, d'. split; [exact Hrun|]. split; [exact Hlist|].
  pose proof Hok' as (_ & _ & _ & _ & Hnd & _). rewrite Hlist in Hnd.
  apply NoDup_app in Hnd as (_ & _ & Hnd).
  split; [exact (Forall2_length _ _ _ Heach)|].
  split; [exact Hnd|]. split; [exact Hnew|].
  split; [exact Heach|]. split; [exact Hold|].
  split; [unfold get_context_list; run_device; now rewrite Hlist | exact Hok'].
Qed.

Lemma create_context_appends_witness :
  let d := SampleDevice.busy_device in
  let requests := [(Some 9%positive, Some "internet"); (None, None)] in
  exists (cs : list addr) (d' : Device),
    create_each requests d = Some (Some <$> cs, d')
    /\ _context_list d' = _context_list d ++ cs
    /\ List.length cs = 2%nat.
Proof.
  intros d requests.
  assert (Hok : device_ok d) by (apply (bool_decide_unpack _); vm_compute; exact I).
  destruct (create_context_appends requests d Hok)
    as (cs & d' & Hrun & Hlist & Hlen & _).
  exists cs, d'. split; [exact Hrun|]. split; [exact Hlist | exact Hlen].
Defined.

Lemma filter_remove_one (c : addr) (l : list addr) :
  NoDup l -> c ∈ l ->
  S (List.length (filter (fun x => Some c <> Some x) l)) = List.length l.
Proof.
  induction l as [|x l IH]; intros Hnd Hin; [now apply not_elem_of_nil in Hin|].
  apply NoDup_cons in Hnd as [Hx Hnd]. rewrite filter_cons.
  destruct (decide (x = c)) as [->|Hne].
  - rewrite decide_False by (intros Hneq; now apply Hneq).
    rewrite filter_all; [reflexivity|].
    intros y Hy [= ->]. now apply Hx.
  - rewrite decide_True by (intros [= ->]; now apply Hne).
    cbn [List.length]. f_equal. apply IH; [exact Hnd|].
    apply elem_of_cons in Hin as [->|Hin]; [now destruct Hne | exact Hin].
Qed.

(** X15.  [delete_context] on a context of the list takes it out of
    the list from wherever it stands, the other contexts keeping their
    order and staying as they were, and frees it; the list is one node
    shorter and the device stays in order.  Called with a null pointer it
    leaves the device as it was. *)
Theorem delete_context_splices (d : Device) (c : addr) (before after : list addr) :
  device_ok d ->
  _context_list d = before ++ c :: after ->
  (exists d' : Device,
      delete_context (Some c) d = Some (tt, d')
      /\ _context_list d' = before ++ after
      /\ S (List.length (_context_list d')) = List.length (_context_list d)
      /\ objects d' !! c = None
      /\ (forall c', c' ∈ _context_list d' -> objects d' !! c' = objects d !! c')
      /\ device_ok d')
  /\ delete_context None d = Some (tt, d).
Proof.
  intros Hok Hsplit.
  assert (Hin : c ∈ _context_list d).
  { rewrite Hsplit. apply elem_of_app. right. now left. }
  assert (Hlive : forall c', c' ∈ _context_list d -> context_ok d c')
    by (intros c' Hc'; now apply device_ok_context).
  split; [|exact (delete_context_null d Hlive)].
  destruct (delete_context_full d (Some c) Hok)
    as (d' & Hrun & Hok' & _ & Hlist & Hobjects & _).
  { intros c' [= <-]. exact Hin. }
  pose proof Hok as (_ & _ & _ & _ & Hnd & _).
  rewrite Hsplit in Hnd.
  pose proof Hnd as Hparts. apply NoDup_app in Hparts as (_ & Hapart & Hafter).
  apply NoDup_cons in Hafter as [Hnotafter _].
  assert (Hfilter : filter (fun x => Some c <> Some x) (_context_list d) = before ++ after).
  { rewrite Hsplit, filter_app, filter_cons.
    rewrite decide_False by (intros Hne; now apply Hne).
    rewrite !filter_all; [reflexivity | |].
    - intros y Hy [= <-]. now apply Hnotafter.
    - intros y Hy [= <-]. apply (Hapart c Hy). now left. }
  exists d'.
  split; [exact Hrun|].
  split; [now rewrite Hlist|].
  split; [rewrite Hlist; apply filter_remove_one; [apply Hok | exact Hin]|].
  cbn in Hobjects.
  split; [rewrite Hobjects; apply lookup_delete_eq|].
  split; [|exact Hok'].
  intros c' Hc'. rewrite Hobjects. apply lookup_delete_ne.
  intros ->. rewrite Hlist, Hfilter in Hc'.
  apply elem_of_app in Hc' as [Hc'|Hc']; [apply (Hapart c' Hc'); now left | now apply Hnotafter].
Qed.

Lemma delete_context_splices_witness :
  let d := SampleDevice.run (create_context None (Some "ims")) SampleDevice.busy_device in
  exists d' : Device,
    _context_list d = [5%positive; 6%positive]
    /\ delete_context (Some 5%positive) d = Some (tt, d')
    /\ _context_list d' = [6%positive]
    /\ objects d' !! 5%positive = None.
Proof.
  intros d.
  assert (Hok : device_ok d) by (apply (bool_decide_unpack _); vm_compute; exact I).
  assert (Hlist : _context_list d = [] ++ 5%positive :: [6%positive])
    by (vm_compute; reflexivity).
  destruct (delete_context_splices d 5%positive [] [6%positive] Hok Hlist)
    as [(d' & Hrun & Hlist' & _ & Hfreed & _) _].
  exists d'.
  split; [exact Hlist|]. split; [exact Hrun|]. split; [exact Hlist' | exact Hfreed].
Defined.

(** X16.  A context created and deleted at once leaves the list as it
    was before the creation: the contexts that were there stand in the
    same order and are the same objects, the new context is freed, and
    the device stays in order. *)
Theorem create_delete_context (d : Device) (fh : option FileHandle)
        (apn : option string) :
  device_ok d ->
  exists (c : addr) (d1 d2 : Device),
    create_context fh apn d = Some (Some c, d1)
    /\ _context_list d1 = _context_list d ++ [c]
    /\ delete_context (Some c) d1 = Some (tt, d2)
    /\ _context_list d2 = _context_list d
    /\ objects d2 !! c = None
    /\ (forall c', c' ∈ _context_list d -> objects d2 !! c' = objects d !! c')
    /\ device_ok d2.
Proof.
  intros Hok.
  destruct (create_context_full d fh apn Hok)
    as (c & a & d1 & h & Hcreate & Hok1 & _ & Hlist1 & Hfresh & _ & _ & _ & Hobjects1 & _).
  destruct (delete_context_full d1 (Some c) Hok1)
    as (d2 & Hdelete & Hok2 & _ & Hlist2 & Hobjects2 & _).
  { intros c' [= <-]. rewrite Hlist1. apply elem_of_app. right. now left. }
  assert (Hnew : c ∉ _context_list d).
  { intros Hc. pose proof (device_ok_context d c Hok Hc) as Hcok.
    unfold context_ok in Hcok. now rewrite Hfresh in Hcok. }
  cbn in Hobjects2.
  exists c, d1, d2. split; [exact Hcreate|]. split; [exact Hlist1|].
  split; [exact Hdelete|]. split.
  { rewrite Hlist2, Hlist1, filter_app, filter_cons.
    rewrite decide_False by (intros Hne; now apply Hne).
    rewrite filter_all; [cbn; apply app_nil_r|].
    intros y Hy [= <-]. now apply Hnew. }
  split; [rewrite Hobjects2; apply lookup_delete_eq|].
  split; [|exact Hok2].
  intros c' Hc'. rewrite Hobjects2.
  rewrite lookup_delete_ne by (intros ->; now apply Hnew).
  pose proof (device_ok_context d c' Hok Hc') as Hcok. unfold context_ok in Hcok.
  destruct (objects d !! c') as [[| |at_handler apn']|] eqn:Hlive; try contradiction.
  apply Hobjects1; [exact Hlive | intros h0; discriminate].
Qed.

Lemma create_delete_context_witness :
  let d := SampleDevice.busy_device in
  exists (c : addr) (d1 d2 : Device),
    create_context (Some 9%positive) (Some "internet") d = Some (Some c, d1)
    /\ delete_context (Some c) d1 = Some (tt, d2)
    /\ _context_list d2 = _context_list d.
Proof.
  intros d.
  assert (Hok : device_ok d) by (apply (bool_decide_unpack _); vm_compute; exact I).
  destruct (create_delete_context d (Some 9%positive) (Some "internet") Hok)
    as (c & d1 & d2 & Hcreate & _ & Hdelete & Hlist & _).
  exists c, d1, d2. split; [exact Hcreate|]. split; [exact Hdelete | exact Hlist].
Defined.

(** ** The timeout and the debug flag, one call *)

(** X17.  [set_timeout] records the timeout as the default of the
    device and gives it to every handler of the pool, whose transport,
    count and debug flag stay as they were; nothing is constructed or
    destroyed and the device stays in order; a handler obtained from
    [get_at_handler] afterwards, pooled or new, carries that timeout. *)
Theorem set_timeout_reaches_pool (d : Device) (timeout : Z) :
  device_ok d ->
  exists d' : Device,
    set_timeout timeout d = Some (tt, d')
    /\ _default_timeout d' = timeout
    /\ _atHandlers d' = _atHandlers d
    /\ journal d' = journal d
    /\ (forall a h, handler_at d a = Some h ->
          handler_at d' a = Some (Handle.set_at_timeout timeout h))
    /\ (forall a h', handler_at d' a = Some h' -> Handle.at_timeout h' = timeout)
    /\ device_ok d'
    /\ forall fh : option FileHandle,
         exists (a : addr) (d2 : Device) (h2 : Handle.t),
           get_at_handler fh d' = Some (Some a, d2)
           /\ handler_at d2 a = Some h2
           /\ Handle.at_timeout h2 = timeout.
Proof.
  intros Hok.
  destruct (set_timeout_full d timeout Hok) as (m & Hrun & Hok' & Hat & _ & Hspare).
  cbv zeta in *.
  set (d' := set_memory m (journal d) (set_default_timeout timeout d)) in *.
  assert (Hall : forall a h', handler_at d' a = Some h' -> Handle.at_timeout h' = timeout).
  { intros a h'. rewrite Hat. destruct (handler_at d a); [|discriminate].
    now intros [= <-]. }
  exists d'. split; [exact Hrun|]. split; [reflexivity|]. split; [reflexivity|].
  split; [reflexivity|]. split; [intros a h Ha; now rewrite Hat, Ha|].
  split; [exact Hall|]. split; [exact Hok'|].
  intros fh.
  destruct (get_at_handler_ok d' fh Hok') as (a & d2 & h2 & Hget & _ & Ha2 & _).
  destruct (get_at_handler_kept d' d2 fh a (device_ok_pool_live d' Hok') Hget)
    as ([_ Hkept] & _).
  exists a, d2, h2. split; [exact Hget|]. split; [exact Ha2|].
  specialize (Hkept a h2 Ha2).
  destruct (handler_at d' a) as [h1|] eqn:Ha1.
  - destruct Hkept as (_ & -> & _). exact (Hall a h1 Ha1).
  - now destruct Hkept as [-> _].
Qed.

Lemma set_timeout_reaches_pool_witness :
  let d := SampleDevice.busy_device in
  exists d' : Device,
    set_timeout 5000 d = Some (tt, d')
    /\ _default_timeout d' = 5000
    /\ forall a h', handler_at d' a = Some h' -> Handle.at_timeout h' = 5000.
Proof.
  intros d.
  assert (Hok : device_ok d) by (apply (bool_decide_unpack _); vm_compute; exact I).
  destruct (set_timeout_reaches_pool d 5000 Hok)
    as (d' & Hrun & Hdefault & _ & _ & _ & Hall & _).
  exists d'. split; [exact Hrun|]. split; [exact Hdefault | exact Hall].
Defined.

(** X18.  [modem_debug_on] records the flag and gives it to every
    handler of the pool, whose transport, count and timeout stay as they
    were; a handler obtained from [get_at_handler] afterwards, pooled or
    new, carries the flag, whether it is on or off. *)
Theorem modem_debug_on_reaches_pool (d : Device) (on : bool) :
  device_ok d ->
  exists d' : Device,
    modem_debug_on on d = Some (tt, d')
    /\ _modem_debug_on d' = on
    /\ _atHandlers d' = _atHandlers d
    /\ journal d' = journal d
    /\ (forall a h, handler_at d a = Some h ->
          handler_at d' a = Some (Handle.set_debug on h))
    /\ (forall a h', handler_at d' a = Some h' -> Handle.debug h' = on)
    /\ device_ok d'
    /\ forall fh : option FileHandle,
         exists (a : addr) (d2 : Device) (h2 : Handle.t),
           get_at_handler fh d' = Some (Some a, d2)
           /\ handler_at d2 a = Some h2
           /\ Handle.debug h2 = on.
Proof.
  intros Hok.
  destruct (modem_debug_on_full d on Hok) as (m & Hrun & Hok' & Hat & _ & Hspare).
  cbv zeta in *.
  set (d' := set_memory m (journal d) (set_modem_debug_on on d)) in *.
  assert (Hall : forall a h', handler_at d' a = Some h' -> Handle.debug h' = on).
  { intros a h'. rewrite Hat. destruct (handler_at d a); [|discriminate].
    now intros [= <-]. }
  exists d'. split; [exact Hrun|]. split; [reflexivity|]. split; [reflexivity|].
  split; [reflexivity|]. split; [intros a h Ha; now rewrite Hat, Ha|].
  split; [exact Hall|]. split; [exact Hok'|].
  intros fh.
  destruct (get_at_handler_ok d' fh Hok') as (a & d2 & h2 & Hget & _ & Ha2 & _).
  destruct (get_at_handler_kept d' d2 fh a (device_ok_pool_live d' Hok') Hget)
    as ([_ Hkept] & _).
  exists a, d2, h2. split; [exact Hget|]. split; [exact Ha2|].
  specialize (Hkept a h2 Ha2).
  destruct (handler_at d' a) as [h1|] eqn:Ha1.
  - destruct Hkept as (_ & _ & ->). exact (Hall a h1 Ha1).
  - now destruct Hkept as [_ ->].
Qed.

Lemma modem_debug_on_reaches_pool_witness :
  let d := SampleDevice.busy_device in
  exists d' : Device,
    modem_debug_on true d = Some (tt, d')
    /\ forall a h', handler_at d' a = Some h' -> Handle.debug h' = true.
Proof.
  intros d.
  assert (Hok : device_ok d) by (apply (bool_decide_unpack _); vm_compute; exact I).
  destruct (modem_debug_on_reaches_pool d true Hok)
    as (d' & Hrun & _ & _ & _ & _ & Hall & _).
  exists d'. split; [exact Hrun | exact Hall].
Defined.

(** ** [init_module] *)

Lemma set_ref_count_same (k : subsystem) (d : Device) :
  set_ref_count k (ref_count_of k d) d = d.
Proof. destruct d, k; reflexivity. Qed.

Lemma set_memory_same (d : Device) : set_memory (objects d) (journal d) d = d.
Proof. now destruct d. Qed.

(** An [open] followed by a [close], on the transport of the device:
    the members and the objects are as before. *)
Lemma open_close_own (d : Device) (k : subsystem) :
  device_ok d -> own_handler_ok d ->
  exists (s : addr) (d1 : Device) (j : list heap_event),
    open_subsystem k None d = Some (Some s, d1)
    /\ close_subsystem k d1
       = Some (tt, set_memory (objects d) (journal d ++ j) d)
    /\ (j = []
        \/ exists at_handler,
             slot_of k d = None
             /\ j = [Constructed s (ObjSubsystem k at_handler);
                     Destroyed s (ObjSubsystem k at_handler)]).
Proof.
  intros Hok Hown. destruct (slot_of k d) as [s|] eqn:Hslot.
  - pose proof (device_ok_slot d k Hok) as Hk. unfold slot_ok in Hk.
    rewrite Hslot in Hk.
    destruct (objects d !! s) as [[|k' at_handler|]|]; try contradiction.
    destruct Hk as (_ & _ & Hpos).
    exists s, (set_ref_count k (ref_count_of k d + 1) d), [].
    split; [now apply open_subsystem_again|]. split; [|now left].
    rewrite (close_subsystem_count _ k s).
    + rewrite ref_count_of_set_ref_count, set_ref_count_twice.
      replace (ref_count_of k d + 1 - 1) with (ref_count_of k d) by lia.
      now rewrite set_ref_count_same, app_nil_r, set_memory_same.
    + now rewrite slot_of_set_ref_count.
    + rewrite ref_count_of_set_ref_count. lia.
  - destruct (own_handler_pooled d Hok Hown)
      as (a & h & _ & Ha & _ & Hin & Hpos & Hpooled).
    pose proof (device_ok_pool_live d Hok) as Hlive.
    pose proof (device_ok_empty_slot d k Hok Hslot) as Hcount.
    set (d1 := set_memory (<[a := ObjATHandler (Handle.inc_ref_count h)]> (objects d))
                 (journal d) d).
    assert (Hget : get_at_handler None d = Some (Some a, d1))
      by exact (get_at_handler_found d None a h Hlive Hpooled Ha).
    set (s := fresh (dom (objects d1))).
    assert (Hs : objects d1 !! s = None) by (apply not_elem_of_dom, is_fresh).
    set (j := [Constructed s (ObjSubsystem k a); Destroyed s (ObjSubsystem k a)]).
    exists s, (opened d1 k s a 1), j.
    split.
    { rewrite (open_subsystem_first d d1 k None a Hslot Hget).
      change (ref_count_of k d1) with (ref_count_of k d). now rewrite Hcount. }
    split; [|right; now exists a].
    rewrite (close_subsystem_last d1 k s a Hs). unfold closing.
    rewrite (closing_empty_slot d1 k _ Hslot Hcount).
    rewrite (release_at_handler_shared _ a (Handle.inc_ref_count h)).
    + rewrite dec_inc_ref_count. unfold d1. cbn.
      rewrite insert_insert_eq, insert_id by (now apply handler_at_Some).
      reflexivity.
    + unfold handler_at, d1. cbn. now rewrite lookup_insert_eq.
    + cbn. lia.
Qed.

(** X19.  [init_module] returns success whatever the model query
    returns, and leaves every member and object of the device as it was,
    whether the information subsystem was open or not: when traces are
    compiled in it opens the information subsystem and closes it again,
    building and destroying the object only if the slot was empty, and
    traces the model when the query succeeded; otherwise it does
    nothing. *)
Theorem init_module_leaves_device (trace_enable : bool)
        (model : nsapi_error_t * string) (d : Device) :
  device_ok d -> own_handler_ok d ->
  exists (lines : list ATHandler.trace_msg) (j : list heap_event),
    init_module trace_enable model d
    = Some ((NSAPI_ERROR_OK, lines), set_memory (objects d) (journal d ++ j) d)
    /\ lines = (if trace_enable && (model.1 =? NSAPI_ERROR_OK)
                then [ATHandler.tr_info_msg ("Model " +:+ model.2)] else [])
    /\ (j = []
        \/ exists s at_handler,
             trace_enable = true /\ _information d = None
             /\ j = [Constructed s (ObjSubsystem Information at_handler);
                     Destroyed s (ObjSubsystem Information at_handler)]).
Proof.
  intros Hok Hown. destruct model as [ret pbuf]. destruct trace_enable.
  - destruct (open_close_own d Information Hok Hown) as (s & d1 & j & Hopen & Hclose & Hj).
    eexists _, j. split; [|split; [reflexivity|]].
    + unfold init_module, open_information, close_information. run_device.
      rewrite Hopen. run_device. rewrite Hclose. reflexivity.
    + destruct Hj as [->|(a & Hslot & ->)]; [now left|].
      right. now exists s, a.
  - exists [], []. split; [|split; [reflexivity | now left]].
    unfold init_module. run_device. now rewrite app_nil_r, set_memory_same.
Qed.

Lemma init_module_leaves_device_witness :
  let d := SampleDevice.fresh_device in
  exists j : list heap_event,
    init_module true (NSAPI_ERROR_OK, "BG96") d
    = Some ((NSAPI_ERROR_OK, [ATHandler.tr_info_msg "Model BG96"]),
            set_memory (objects d) (journal d ++ j) d).
Proof.
  intros d.
  assert (Hok : device_ok d) by (apply (bool_decide_unpack _); vm_compute; exact I).
  assert (Hown : own_handler_ok d) by (vm_compute; reflexivity).
  destruct (init_module_leaves_device true (NSAPI_ERROR_OK, "BG96") d Hok Hown)
    as (lines & j & Hrun & -> & _).
  exists j. exact Hrun.
Defined.

(** ** The counters and the destructor *)

Lemma forced_counters (d : Device) (n1 n2 n3 n4 : Z) :
  forced (set_ref_count Information n4
            (set_ref_count Power n3 (set_ref_count SMS n2 (set_ref_count Network n1 d))))
  = forced d.
Proof. now destruct d. Qed.

(** X20.  The destructor does not read the four counters: "all is
    deleted even if somewhere close was not called and reference counting
    is messed up".  On a device in good order whose counters have been
    replaced by any four numbers, it does what it does on the device
    itself, and leaves an empty heap. *)
Theorem destructor_ignores_counters (d : Device) (n1 n2 n3 n4 : Z) :
  device_ok d ->
  let messed :=
    set_ref_count Information n4
      (set_ref_count Power n3 (set_ref_count SMS n2 (set_ref_count Network n1 d))) in
  AT_CellularDevice_delete messed = AT_CellularDevice_delete d
  /\ exists j : list heap_event, AT_CellularDevice_delete messed = Some (∅, j).
Proof.
  intros Hok messed.
  assert (Hsame : AT_CellularDevice_delete messed = AT_CellularDevice_delete d).
  { unfold AT_CellularDevice_delete. run_device.
    change (set_ref_count Information 1
              (set_ref_count Power 1 (set_ref_count SMS 1 (set_ref_count Network 1 messed))))
      with (forced messed).
    change (set_ref_count Information 1
              (set_ref_count Power 1 (set_ref_count SMS 1 (set_ref_count Network 1 d))))
      with (forced d).
    unfold messed. now rewrite forced_counters. }
  split; [exact Hsame|].
  rewrite Hsame. now apply destructor_leaves_nothing.
Qed.

Lemma destructor_ignores_counters_witness :
  let d := SampleDevice.busy_device in
  exists j : list heap_event,
    AT_CellularDevice_delete
      (set_ref_count Information (-1)
         (set_ref_count Power 7 (set_ref_count SMS 0 (set_ref_count Network 100 d))))
    = Some (∅, j).
Proof.
  intros d.
  assert (Hok : device_ok d) by (apply (bool_decide_unpack _); vm_compute; exact I).
  destruct (destructor_ignores_counters d 100 0 7 (-1) Hok) as [_ Hfreed].
  exact Hfreed.
Defined.

(** ** The code [set_power_save_mode] returns *)

Section Result.

Import ATHandler.

Lemma set_power_save_mode_disable_run (w : io) :
  let out := set_power_save_mode 0 0 w in
  fst out = last_error (after disable_exchange w)
  /\ last_error (snd out) = fst out
  /\ trace_out (snd out) = trace_out w.
Proof.
  intros out. subst out. destruct w as [m cs e tr]. unfold set_power_save_mode.
  change ((0 =? 0) && (0 =? 0)) with true.
  run_engine. rewrite <- !app_assoc. repeat split; reflexivity.
Qed.

(** X21.  In both of its branches [set_power_save_mode] returns the
    status the engine holds at the end of the one request it sends (the
    disable request when both durations are zero, the enable request
    otherwise), and that status is left recorded in the engine; the only
    line it ever traces is the warning of the enable branch, on a status
    that is not OK: a failure of the disable request is returned without
    a trace. *)
Theorem set_power_save_mode_result (periodic_time active_time : Z) (w : io) :
  let out := set_power_save_mode periodic_time active_time w in
  let both_zero := (periodic_time =? 0) && (active_time =? 0) in
  let exchange :=
    if both_zero then disable_exchange
    else enable_exchange (PSM.pt periodic_time) (PSM.at_ active_time) in
  fst out = last_error (after exchange w)
  /\ last_error (snd out) = fst out
  /\ trace_out (snd out)
     = trace_out w
       ++ (if both_zero || (fst out =? NSAPI_ERROR_OK) then []
           else [tr_warn_msg "Power save mode not enabled!"]).
Proof.
  intros out both_zero exchange. subst out both_zero exchange.
  destruct (Z.eqb_spec periodic_time 0) as [->|Hp];
    [destruct (Z.eqb_spec active_time 0) as [->|Ha]|]; cbn [andb orb].
  - destruct (set_power_save_mode_disable_run w) as (Hcode & Hstatus & Htrace).
    split; [exact Hcode|]. split; [exact Hstatus|].
    rewrite Htrace. now rewrite app_nil_r.
  - destruct (set_power_save_mode_not_both_zero 0 active_time w)
      as (Hcode & _ & Hstatus & Htrace); [now right|].
    split; [exact Hcode|]. split; [now rewrite Hstatus, Hcode|].
    now rewrite Htrace, Hcode.
  - destruct (set_power_save_mode_not_both_zero periodic_time active_time w)
      as (Hcode & _ & Hstatus & Htrace); [now left|].
    split; [exact Hcode|]. split; [now rewrite Hstatus, Hcode|].
    now rewrite Htrace, Hcode.
Qed.

(** A modem that refuses the disable request: the code comes back and
    nothing is traced. *)
Lemma set_power_save_mode_disable_refused :
  let w := init (Sample.modem_no_final_ok Sample.NSAPI_ERROR_DEVICE_ERROR None) in
  fst (set_power_save_mode 0 0 w) = Sample.NSAPI_ERROR_DEVICE_ERROR
  /\ trace_out (snd (set_power_save_mode 0 0 w)) = [].
Proof. split; reflexivity. Qed.

End Result.
